(** * p1547: the IEEE 1547.1 evaluation library of svp_1547.1

    A shallow embedding of [Lib/svpelab/p1547.py] and the properties its
    specification states about it.

    Conventions of the embedding.
    - Python [float]s are idealised: piecewise-linear arithmetic is carried
      out over the rationals [Q] (exact, executable), the exponential
      open-loop model over the reals [R].  Equalities between computed
      numbers are therefore stated with [==] (Qeq) or in [R].
    - A Python exception is a value of [PyExc]; a computation that may raise
      returns a [result].
    - A [dict] with string keys is a [gmap string _]; a missing key raises
      [KeyError].
    - Logging calls ([self.ts.log...]) have no effect on any value and are
      left out. *)

From Stdlib Require Import ZArith QArith Qround Lqa Reals Lra List String Ascii Lia.
From stdpp Require Import base strings gmap fin_maps.
Import ListNotations.

#[local] Open Scope Z_scope.

(** ** Exceptions and results *)

Inductive PyExc : Set :=
  | KeyError
  | TypeError
  | ZeroDivisionError
  | ValueError
  | UnboundLocalError
  | P1547Error.

Inductive result (A : Type) : Type :=
  | Ok (a : A)
  | Raise (e : PyExc).

Arguments Ok {A} a.
Arguments Raise {A} e.

#[global] Instance result_ret : MRet result := fun _ a => Ok a.
#[global] Instance result_bind : MBind result := fun _ _ f m =>
  match m with
  | Ok a => f a
  | Raise e => Raise e
  end.

(** [d[k]] on a dictionary. *)
Definition getitem {K} `{Countable K} {A} (d : gmap K A) (k : K) : result A :=
  match d !! k with
  | Some a => Ok a
  | None => Raise KeyError
  end.

(** ** UtilParameters: the step label generator *)

Module UtilParameters.

(** The two attributes the label generator reads and writes;
    [UtilParameters.__init__] sets both to [None]. *)
Record t : Set := mk {
  step_label : option Z;
  double_letter_label : option bool
}.

Definition init : t := mk None None.

(** [ord c] of a one-character string; any other length is a [TypeError]. *)
Definition ord (s : string) : result Z :=
  match s with
  | String c EmptyString => Ok (Z.of_N (N_of_ascii c))
  | _ => Raise TypeError
  end.

Definition chr1 (n : Z) : string := String (ascii_of_N (Z.to_N n)) EmptyString.

(** [chr n].  Only the ASCII range is modelled: [get_step_label] resets
    every value above 90 before it calls [chr]. *)
Definition chr (n : Z) : result string :=
  if (0 <=? n) && (n <? 128) then Ok (chr1 n) else Raise ValueError.

(** [set_step_label(starting_label=None)]: the default start is ['a']. *)
Definition set_step_label (starting_label : option string) (self : t) : result t :=
  let starting_label := default "a"%string starting_label in
  starting_label_value ← ord starting_label;
  Ok (mk (Some starting_label_value) (Some false)).

(** Truth value of [self.double_letter_label] ([None] is false). *)
Definition truthy (b : option bool) : bool := default false b.

(** [get_step_label()]: returns the label and the updated object. *)
Definition get_step_label (self : t) : result (string * t) :=
  match step_label self with
  | None => Raise TypeError
  | Some n =>
      let self1 := if 90 <? n then mk (Some 65) (Some true) else self in
      match step_label self1 with
      | None => Raise TypeError
      | Some n1 =>
          c ← chr n1;
          let step_label_str :=
            if truthy (double_letter_label self1)
            then ("Step " ++ c ++ c)%string
            else ("Step " ++ c)%string in
          Ok (step_label_str, mk (Some (n1 + 1)) (double_letter_label self1))
      end
  end.

(** [n] successive calls of [get_step_label]. *)
Fixpoint get_step_labels (n : nat) (self : t) : result (list string * t) :=
  match n with
  | O => Ok ([], self)
  | S n' =>
      r ← get_step_label self;
      rs ← get_step_labels n' r.2;
      Ok (r.1 :: rs.1, rs.2)
  end.

(** Closed forms, for a start letter of code [c] in ['A'..'Z']: the label
    of call number [k] (from 0) and the object before that call. *)
Definition label_at (c : Z) (k : nat) : string :=
  let i := c + Z.of_nat k in
  if i <=? 90 then ("Step " ++ chr1 i)%string
  else let l := chr1 (65 + (i - 91) mod 26) in ("Step " ++ l ++ l)%string.

Definition state_at (c : Z) (k : nat) : t :=
  let i := c + Z.of_nat k in
  if i <=? 91 then mk (Some i) (Some false)
  else mk (Some (66 + (i - 92) mod 26)) (Some true).

End UtilParameters.


(** ** Numbers: Python arithmetic on idealised floats *)

#[local] Open Scope Q_scope.

(** Function names (module constants of the source). *)
Definition FW : string := "FW".
Definition CPF : string := "CPF".
Definition VW : string := "VW".
Definition VV : string := "VV".
Definition WV : string := "WV".
Definition CRP : string := "CRP".
Definition LAP : string := "LAP".
Definition PRI : string := "PRI".

(** Round to the nearest integer, ties to the even one. *)
Definition round_half_even (q : Q) : Z :=
  let f := Qfloor q in
  match Qcompare (q - inject_Z f) (1 # 2) with
  | Lt => f
  | Gt => (f + 1)%Z
  | Eq => if Z.even f then f else (f + 1)%Z
  end.

(** [round(q, ndigits)] for [ndigits >= 0]. *)
Definition py_round (q : Q) (ndigits : N) : Q :=
  let scale := (10 ^ Z.of_N ndigits)%Z in
  Qmake (round_half_even (q * inject_Z scale)) (Z.to_pos scale).

(** [int(q)]: truncation towards zero. *)
Definition py_int (q : Q) : Q := inject_Z (Z.quot (Qnum q) (Zpos (Qden q))).

(** [a / b] on floats. *)
Definition py_div (a b : Q) : result Q :=
  if Qeq_dec b 0 then Raise ZeroDivisionError else Ok (a / b).

(** Arithmetic on a value that may be [None]. *)
Definition py_add (a : option Q) (b : Q) : result Q :=
  match a with Some x => Ok (x + b) | None => Raise TypeError end.
Definition py_sub (a : option Q) (b : Q) : result Q :=
  match a with Some x => Ok (x - b) | None => Raise TypeError end.

(** [numpy.interp(x, xp, fp)] is library code, not part of the repository;
    it is modelled after its documented contract for increasing [xp]:
    [fp[0]] left of the first point, [fp[-1]] from the last point on, the
    point's own value at a sample point, and the straight line through the
    two neighbouring points in between.  numpy does not check that [xp]
    increases; on a table that does not (the Watt-Var table of a unit that
    absorbs power descends) it returns what its search happens to find,
    [fp[-1]] right of the last point for one, and this model does not
    follow it there.  Every property below that speaks of an interpolated
    value assumes ascending break-points. *)
Fixpoint interp_from (x x0 y0 : Q) (rest : list (Q * Q)) : Q :=
  match rest with
  | [] => y0
  | (x1, y1) :: tl =>
      if Qlt_le_dec x x1
      then (if Qeq_dec x x0 then y0
            else ((y1 - y0) / (x1 - x0)) * (x - x0) + y0)
      else interp_from x x1 y1 tl
  end.

Definition np_interp (x : Q) (xp fp : list Q) : result Q :=
  if negb (Nat.eqb (length xp) (length fp)) then Raise ValueError
  else match combine xp fp with
       | [] => Raise ValueError
       | (x0, y0) :: rest =>
           Ok (if Qlt_le_dec x x0 then y0 else interp_from x x0 y0 rest)
       end.

(** ** EutParameters *)

Module EutParameters.

(** The ratings read by [EutParameters.__init__].  The numeric ratings are
    taken as configured; [var_rated] and [absorb] keep their [None]. *)
Record t : Type := mk {
  v_nom : Q;
  s_rated : Q;
  v_high : Q;
  v_low : Q;
  f_nom : Q;
  f_max : Q;
  f_min : Q;
  p_rated : Q;
  p_rated_prime : Q;
  p_min : Q;
  var_rated : option Q;
  absorb : option string
}.

(** [self.MRA], per Table 3 of IEEE Std 1547-2018. *)
Definition MRA (self : t) : gmap string Q :=
  list_to_map
    [ ("V"%string, 0.01 * v_nom self);
      ("Q"%string, 0.05 * s_rated self);
      ("P"%string, 0.05 * s_rated self);
      ("F"%string, 0.01);
      ("T"%string, 0.01);
      ("PF"%string, 0.01) ].

End EutParameters.

(** ** The aggregate object of a test run *)

Module ActiveFunction.

(** The attributes of the [ActiveFunction] object that the criteria
    evaluator reads.  [get_measurement_total] stands for the measurement
    provider behind [DataLogging.get_measurement_total]: a reading, [None]
    when the aggregation failed, or an exception. *)
Record t : Type := mk {
  eut : EutParameters.t;
  pwr : Q;
  max_pwr_lim : Q;
  curve : Z;
  param : gmap string (gmap Z (gmap string Q));
  step_dict : option (gmap string Q);
  current_step_label : option string;
  get_measurement_total : string -> result (option Q)
}.

(** [get_params(function, curve=self.curve)] with a curve given: the
    parameters of the active curve. *)
Definition get_params (self : t) (function : string) : result (gmap string Q) :=
  curves ← getitem (param self) function;
  getitem curves (curve self).

(** [self.MRA[k]]. *)
Definition MRA (self : t) (k : string) : result Q :=
  getitem (EutParameters.MRA (eut self)) k.

End ActiveFunction.

(** ** Curve tables: the [set_params] methods *)

Module VoltVar.
Import EutParameters.

(** [x * y] where [x] may be [None]. *)
Definition mul_opt (x : option Q) (y : Q) : result Q :=
  match x with Some v => Ok (v * y) | None => Raise TypeError end.

(** [VoltVar.set_params]: Tables 25 to 27, category B. *)
Definition set_params (self : EutParameters.t)
    (param : gmap string (gmap Z (gmap string Q)))
  : result (gmap string (gmap Z (gmap string Q))) :=
  let c1 : gmap string Q :=
    list_to_map
      [ ("V1"%string, py_round (0.92 * v_nom self) 2);
        ("V2"%string, py_round (0.98 * v_nom self) 2);
        ("V3"%string, py_round (1.02 * v_nom self) 2);
        ("V4"%string, py_round (1.08 * v_nom self) 2);
        ("Q1"%string, py_round (s_rated self * 0.44) 2);
        ("Q2"%string, py_round (s_rated self * 0.0) 2);
        ("Q3"%string, py_round (s_rated self * 0.0) 2);
        ("Q4"%string, py_round (s_rated self * -0.44) 2);
        ("TR"%string, 5.0) ] in
  a1 ← mul_opt (var_rated self) 1.0;
  a2 ← mul_opt (var_rated self) 0.5;
  a3 ← mul_opt (var_rated self) 0.5;
  a4 ← mul_opt (var_rated self) (-1.0);
  let c2 : gmap string Q :=
    list_to_map
      [ ("V1"%string, py_round (0.88 * v_nom self) 2);
        ("V2"%string, py_round (1.04 * v_nom self) 2);
        ("V3"%string, py_round (1.07 * v_nom self) 2);
        ("V4"%string, py_round (1.10 * v_nom self) 2);
        ("Q1"%string, py_round a1 2);
        ("Q2"%string, py_round a2 2);
        ("Q3"%string, py_round a3 2);
        ("Q4"%string, py_round a4 2);
        ("TR"%string, 1.0) ] in
  b1 ← mul_opt (var_rated self) 1.0;
  b2 ← mul_opt (var_rated self) (-0.5);
  b3 ← mul_opt (var_rated self) (-0.5);
  b4 ← mul_opt (var_rated self) (-1.0);
  let c3 : gmap string Q :=
    list_to_map
      [ ("V1"%string, py_round (0.90 * v_nom self) 2);
        ("V2"%string, py_round (0.93 * v_nom self) 2);
        ("V3"%string, py_round (0.96 * v_nom self) 2);
        ("V4"%string, py_round (1.10 * v_nom self) 2);
        ("Q1"%string, py_round b1 2);
        ("Q2"%string, py_round b2 2);
        ("Q3"%string, py_round b3 2);
        ("Q4"%string, py_round b4 2);
        ("TR"%string, 90.0) ] in
  Ok (<[VV := <[3%Z := c3]> (<[2%Z := c2]> (<[1%Z := c1]> ∅))]> param).

End VoltVar.

Module VoltWatt.
Import EutParameters.

(** [VoltWatt.set_params]: Tables 31 to 33. *)
Definition set_params (self : EutParameters.t)
    (param : gmap string (gmap Z (gmap string Q)))
  : gmap string (gmap Z (gmap string Q)) :=
  let p2 :=
    if Qlt_le_dec (0.2 * p_rated self) (p_min self)
    then py_int (0.2 * p_rated self)
    else py_int (p_min self) in
  let yes := bool_decide (absorb self = Some "Yes"%string) in
  let c (v1 : Q) (tr : Q) (p2' : Q) : gmap string Q :=
    list_to_map
      [ ("V1"%string, py_round (v1 * v_nom self) 2);
        ("V2"%string, py_round (1.10 * v_nom self) 2);
        ("P1"%string, py_round (p_rated self) 2);
        ("TR"%string, tr);
        ("P2"%string, p2') ] in
  let c1 := c 1.06 10.0 (if yes then 0 else p2) in
  let c2 := c 1.05 90.0 (if yes then p_rated_prime self else p2) in
  let c3 := c 1.09 0.5 (if yes then p_rated_prime self else p2) in
  <[VW := <[3%Z := c3]> (<[2%Z := c2]> (<[1%Z := c1]> ∅))]> param.

End VoltWatt.

Module FrequencyWatt.
Import EutParameters.

(** [FrequencyWatt.set_params]: Tables 34 and 35.  The host parameters
    [eut_fw.p_small] and [fw.test_i_tr] are arguments, [None] when unset. *)
Definition set_params (self : EutParameters.t)
    (p_small tr1 tr2 tr3 : option Q)
    (param : gmap string (gmap Z (gmap string Q)))
  : gmap string (gmap Z (gmap string Q)) :=
  let p_small := default 0.05 p_small in
  let c (dbf kof tr k : Q) : gmap string Q :=
    list_to_map
      [ ("dbf"%string, dbf);
        ("kof"%string, kof);
        ("TR"%string, tr);
        ("f_small"%string, p_small * f_nom self * k) ] in
  let c1 := c 0.036 0.05 (default 5.0 tr1) 0.05 in
  let c2 := c 0.017 0.03 (default 0.2 tr2) 0.02 in
  let c3 := c 1.0 0.05 (default 10.0 tr3) 0.02 in
  <[FW := <[3%Z := c3]> (<[2%Z := c2]> (<[1%Z := c1]> ∅))]> param.

End FrequencyWatt.

(** ** CriteriaValidation: targets and pass/fail windows *)

Module CriteriaValidation.
Import EutParameters ActiveFunction.

Section Targets.

(** [math.sqrt] on non-negative floats is library code with no rational
    counterpart; it is a parameter of the embedding. *)
Variable math_sqrt : Q -> Q.

Definition py_sqrt (x : Q) : result Q :=
  if Qlt_le_dec x 0 then Raise ValueError else Ok (math_sqrt x).

(** The independent value a law is evaluated at: [value] when it is given,
    otherwise [step_dict[key]] when [step_dict] is a dict; with neither the
    local stays unassigned. *)
Definition value_or_step (value : option Q) (step_dict : option (gmap string Q))
    (key : string) : result Q :=
  match value with
  | Some v => Ok v
  | None =>
      match step_dict with
      | Some d => getitem d key
      | None => Raise UnboundLocalError
      end
  end.

(** [step_dict[key]] where [step_dict] may be [None]. *)
Definition step_item (step_dict : option (gmap string Q)) (key : string) : result Q :=
  match step_dict with
  | Some d => getitem d key
  | None => Raise TypeError
  end.

(** [update_target_value(function, value, step_dict)].  The result is
    [None] when no branch returns. *)
Definition update_target_value (self : ActiveFunction.t) (function : string)
    (value : option Q) (step_dict : option (gmap string Q)) : result (option Q) :=
  if String.eqb function VV then
    vv_pairs ← get_params self VV;
    v1 ← getitem vv_pairs "V1"%string; v2 ← getitem vv_pairs "V2"%string;
    v3 ← getitem vv_pairs "V3"%string; v4 ← getitem vv_pairs "V4"%string;
    q1 ← getitem vv_pairs "Q1"%string; q2 ← getitem vv_pairs "Q2"%string;
    q3 ← getitem vv_pairs "Q3"%string; q4 ← getitem vv_pairs "Q4"%string;
    v ← value_or_step value step_dict "V"%string;
    q_value ← np_interp v [v1; v2; v3; v4] [q1; q2; q3; q4];
    let q_value := q_value * pwr self in
    Ok (Some (py_round q_value 1))
  else if String.eqb function VW then
    vw_pairs ← get_params self VW;
    v1 ← getitem vw_pairs "V1"%string; v2 ← getitem vw_pairs "V2"%string;
    p1 ← getitem vw_pairs "P1"%string; p2 ← getitem vw_pairs "P2"%string;
    v ← value_or_step value step_dict "V"%string;
    p_value ← np_interp v [v1; v2] [p1; p2];
    let p_value := if Qlt_le_dec p_value (p_min (eut self)) then p_min (eut self) else p_value in
    let p_value := p_value * pwr self in
    Ok (Some (py_round p_value 1))
  else if String.eqb function CPF then
    pf ← step_item step_dict "PF"%string;
    let sign := if Qlt_le_dec 0 pf then -1.0 else 1.0 in
    p ← match value with
        | Some v => Ok v
        | None => step_item step_dict "P"%string
        end;
    inv ← py_div 1 (pf * pf);
    q_value ← py_sqrt (p * p * (inv - 1));
    Ok (Some (q_value * sign))
  else if String.eqb function CRP then
    q_value ← step_item step_dict "Q"%string;
    Ok (Some (py_round q_value 1))
  else if String.eqb function WV then
    curves ← getitem (param self) WV;
    wv ← getitem curves (curve self);
    p1 ← getitem wv "P1"%string; p2 ← getitem wv "P2"%string; p3 ← getitem wv "P3"%string;
    q1 ← getitem wv "Q1"%string; q2 ← getitem wv "Q2"%string; q3 ← getitem wv "Q3"%string;
    p_value ← match value with Some v => Ok v | None => Raise UnboundLocalError end;
    let p_value :=
      if Qlt_le_dec p_value (p_min (eut self)) then p_min (eut self)
      else if Qlt_le_dec (p_rated (eut self)) p_value then p_rated (eut self)
      else p_value in
    q_value ← np_interp p_value [p1; p2; p3] [q1; q2; q3];
    Ok (Some (q_value * pwr self))
  else if String.eqb function FW then
    fw_pairs ← get_params self FW;
    dbf ← getitem fw_pairs "dbf"%string;
    let f_dob := f_nom (eut self) + dbf in
    let f_dub := f_nom (eut self) - dbf in
    let p_db :=
      if Qlt_le_dec (pwr self * 100) (max_pwr_lim self) then pwr self
      else max_pwr_lim self / 100 in
    let p_avl := pwr self * p_rated (eut self) in
    value ← match value, step_dict with
            | None, Some d => v ← getitem d "F"%string; Ok (Some v)
            | _, _ => Ok value
            end;
    match value with
    | None => Raise TypeError
    | Some value =>
        if Qle_bool f_dub value && Qle_bool value f_dob then
          Ok (Some (p_db * p_rated (eut self)))
        else if Qlt_le_dec f_dob value then
          curves ← getitem (param self) FW;
          c ← getitem curves (curve self);
          kof ← getitem c "kof"%string;
          d ← py_div (value - f_dob) (f_nom (eut self) * kof);
          let p_targ := (p_db - d) * p_rated (eut self) in
          Ok (Some (if Qlt_le_dec p_targ (p_min (eut self)) then p_min (eut self) else p_targ))
        else if Qlt_le_dec value f_dub then
          curves ← getitem (param self) FW;
          c ← getitem curves (curve self);
          kof ← getitem c "kof"%string;
          d ← py_div (f_dub - value) (f_nom (eut self) * kof);
          let p_targ := (p_db + d) * p_rated (eut self) in
          Ok (Some (if Qlt_le_dec p_avl p_targ then p_avl else p_targ))
        else Ok None
    end
  else if String.eqb function LAP then
    p ← step_item step_dict "P"%string;
    Ok (Some (p * p_rated (eut self)))
  else Ok None.

Definition triple : Type := (option Q * option Q * option Q)%type.

(** [calculate_target_values(function)]: the tuple
    [(target, target_min, target_max)].  A local that no branch assigned
    makes the final [return] raise [UnboundLocalError]. *)
Definition calculate_target_values (self : ActiveFunction.t) (function : string)
  : result triple :=
  let step_dict := step_dict self in
  let utv := update_target_value self in
  pri ← (if String.eqb PRI function then
           v_meas ← get_measurement_total self "V"%string;
           f_meas ← get_measurement_total self "F"%string;
           target_vw ← utv VW v_meas step_dict;
           mv ← MRA self "V"%string; x ← py_add v_meas (mv * 1.5);
           r ← utv VW (Some x) step_dict;
           mp ← MRA self "P"%string; target_min_vw ← py_sub r (mp * 1.5);
           mv ← MRA self "V"%string; x ← py_sub v_meas (mv * 1.5);
           r ← utv VW (Some x) step_dict;
           mp ← MRA self "P"%string; target_max_vw ← py_add r (mp * 1.5);
           target_fw ← utv FW f_meas step_dict;
           mf ← MRA self "F"%string; x ← py_add f_meas (mf * 1.5);
           r ← utv FW (Some x) step_dict;
           mp ← MRA self "P"%string; target_min_fw ← py_sub r (mp * 1.5);
           mf ← MRA self "F"%string; x ← py_sub f_meas (mf * 1.5);
           target_max_fw ← utv FW (Some x) step_dict;
           match target_vw, target_fw with
           | Some tv, Some tf =>
               if Qlt_le_dec tv tf
               then Ok (Some (target_vw, Some target_min_vw, Some target_max_vw))
               else Ok (Some (target_fw, Some target_min_fw, target_max_fw))
           | _, _ => Raise TypeError
           end
         else Ok None);
  if String.eqb function VV then
    v_meas ← get_measurement_total self "V"%string;
    target ← utv VV v_meas step_dict;
    mv ← MRA self "V"%string; x ← py_add v_meas (mv * 1.5);
    r ← utv VV (Some x) step_dict;
    mq ← MRA self "Q"%string; target_min ← py_sub r (mq * 1.5);
    mv ← MRA self "V"%string; x ← py_sub v_meas (mv * 1.5);
    r ← utv VV (Some x) step_dict;
    mq ← MRA self "Q"%string; target_max ← py_add r (mq * 1.5);
    Ok (target, Some target_min, Some target_max)
  else if String.eqb function VW then
    v_meas ← get_measurement_total self "V"%string;
    target ← utv VW v_meas step_dict;
    mv ← MRA self "V"%string; x ← py_add v_meas (mv * 1.5);
    r ← utv VW (Some x) step_dict;
    mp ← MRA self "P"%string; target_min ← py_sub r (mp * 1.5);
    mv ← MRA self "V"%string; x ← py_sub v_meas (mv * 1.5);
    r ← utv VW (Some x) step_dict;
    mp ← MRA self "P"%string; target_max ← py_add r (mp * 1.5);
    Ok (target, Some target_min, Some target_max)
  else if String.eqb function CPF then
    p_meas ← get_measurement_total self "P"%string;
    target ← utv CPF p_meas step_dict;
    mp ← MRA self "P"%string; x ← py_add p_meas (mp * 1.5);
    r ← utv CPF (Some x) step_dict;
    mq ← MRA self "Q"%string; target_min ← py_sub r (1.5 * mq);
    mp ← MRA self "P"%string; x ← py_sub p_meas (mp * 1.5);
    r ← utv CPF (Some x) step_dict;
    mq ← MRA self "Q"%string; target_max ← py_add r (1.5 * mq);
    Ok (target, Some target_min, Some target_max)
  else if String.eqb function CRP then
    target ← step_item step_dict "Q"%string;
    q ← step_item step_dict "Q"%string;
    mq ← MRA self "Q"%string; let target_min := q - mq * 1.5 in
    q ← step_item step_dict "Q"%string;
    mq ← MRA self "Q"%string; let target_max := q + mq * 1.5 in
    Ok (Some target, Some target_min, Some target_max)
  else if String.eqb function WV then
    p_meas ← get_measurement_total self "P"%string;
    target ← utv WV p_meas step_dict;
    mp ← MRA self "P"%string; x ← py_add p_meas (mp * 1.5);
    r ← utv WV (Some x) step_dict;
    mq ← MRA self "Q"%string; target_min ← py_sub r (mq * 1.5);
    mp ← MRA self "P"%string; x ← py_sub p_meas (mp * 1.5);
    r ← utv WV (Some x) step_dict;
    mq ← MRA self "Q"%string; target_max ← py_add r (mq * 1.5);
    Ok (target, Some target_min, Some target_max)
  else if String.eqb function FW then
    f_meas ← get_measurement_total self "F"%string;
    target ← utv FW f_meas step_dict;
    mf ← MRA self "F"%string; x ← py_add f_meas (mf * 1.5);
    r ← utv FW (Some x) step_dict;
    mp ← MRA self "P"%string; target_min ← py_sub r (mp * 1.5);
    mf ← MRA self "F"%string; x ← py_sub f_meas (mf * 1.5);
    r ← utv FW (Some x) step_dict;
    mp ← MRA self "P"%string; target_max ← py_add r (mp * 1.5);
    Ok (target, Some target_min, Some target_max)
  else if String.eqb function LAP then
    if bool_decide (current_step_label self = Some "Step C"%string) then
      target ← utv LAP None step_dict;
      r ← utv LAP None step_dict;
      mp ← MRA self "P"%string; target_min ← py_sub r (mp * 1.5);
      r ← utv LAP None step_dict;
      mp ← MRA self "P"%string; target_max ← py_add r (mp * 1.5);
      Ok (target, Some target_min, Some target_max)
    else if bool_decide (current_step_label self = Some "Step D"%string)
            || bool_decide (current_step_label self = Some "Step E"%string) then
      f_meas ← get_measurement_total self "F"%string;
      target ← utv FW f_meas step_dict;
      mf ← MRA self "F"%string; x ← py_add f_meas (mf * 1.5);
      r ← utv FW (Some x) step_dict;
      mp ← MRA self "P"%string; target_min ← py_sub r (mp * 1.5);
      mf ← MRA self "F"%string; x ← py_sub f_meas (mf * 1.5);
      r ← utv FW (Some x) step_dict;
      mp ← MRA self "P"%string; target_max ← py_add r (mp * 1.5);
      Ok (target, Some target_min, Some target_max)
    else if bool_decide (current_step_label self = Some "Step F"%string) then
      p_meas ← get_measurement_total self "P"%string;
      target ← utv WV p_meas step_dict;
      mp ← MRA self "P"%string; x ← py_add p_meas (mp * 1.5);
      r ← utv WV (Some x) step_dict;
      mq ← MRA self "Q"%string; target_min ← py_sub r (mq * 1.5);
      mp ← MRA self "P"%string; x ← py_sub p_meas (mp * 1.5);
      r ← utv WV (Some x) step_dict;
      mq ← MRA self "Q"%string; target_max ← py_add r (mq * 1.5);
      Ok (target, Some target_min, Some target_max)
    else Ok (None, None, None)
  else
    match pri with
    | Some t => Ok t
    | None => Raise UnboundLocalError
    end.



End Targets.

End CriteriaValidation.

(** ** Ride-through test sequences *)

Module RideThrough.

(** One row of [TEST_CONDITION]: the [pd.Series]
    [[condition, minimum duration, value]]. *)
Record condition : Type := mk_condition {
  cond_id : Q;
  min_duration : Q;
  cond_value : Q
}.

(** One row of the test-sequence frame, with its two timing columns. *)
Record row : Type := mk_row {
  row_condition : Q;
  row_min_duration : Q;
  row_values : Q;
  start_timing : Q;
  end_timing : Q
}.

(** The loop [for i in range(1, len(df))]: each row starts where the
    previous one ended. *)
Fixpoint timing_loop (prev_end : Q) (conds : list condition) : list row :=
  match conds with
  | [] => []
  | c :: tl =>
      let start := prev_end in
      let stop := start + min_duration c in
      mk_row (cond_id c) (min_duration c) (cond_value c) start stop
        :: timing_loop stop tl
  end.

(** The timing columns of a frame: row 0 starts at [T0].  (Every caller
    appends at least one condition first.) *)
Definition set_timing (T0 : Q) (conds : list condition) : list row :=
  match conds with
  | [] => []
  | c :: tl =>
      let stop := T0 + min_duration c in
      mk_row (cond_id c) (min_duration c) (cond_value c) T0 stop
        :: timing_loop stop tl
  end.

(** [df.append(test_condition[k])] for each key in turn. *)
Fixpoint append_all (test_condition : gmap string condition) (keys : list string)
  : result (list condition) :=
  match keys with
  | [] => Ok []
  | k :: tl =>
      c ← getitem test_condition k;
      cs ← append_all test_condition tl;
      Ok (c :: cs)
  end.

(** [random.uniform(a, b)] for the draw [u] of [random.random()]. *)
Definition uniform (a b u : Q) : Q := a + (b - a) * u.



End RideThrough.

Module VoltageRideThrough.
Import RideThrough.

(** The modes [set_vrt_modes] produces, [f"{LV}_{CAT_2}"] and so on. *)
Inductive mode : Set := LV_CAT_2 | LV_CAT_3 | HV_CAT_2 | HV_CAT_3.

Definition mode_name (m : mode) : string :=
  match m with
  | LV_CAT_2 => "LV_CAT_2"
  | LV_CAT_3 => "LV_CAT_3"
  | HV_CAT_2 => "HV_CAT_2"
  | HV_CAT_3 => "HV_CAT_3"
  end.

(** [self.params]: the entries the sequence generator reads. *)
Record params : Type := mk_params {
  range_steps : string;
  eut_startup_time : Q;
  consecutive_ena : string
}.

(** [set_test_conditions]: the [TEST_CONDITION] dictionary.  [mra_v_pu] is
    [MRA["V"] / v_nom]; [rnd k] is the [k]-th draw of [random.random()]. *)
Definition test_conditions (p : params) (mra_v_pu : Q) (rnd : nat -> Q) (m : mode)
  : gmap string condition :=
  let fig := String.eqb (range_steps p) "Figure" in
  let ran := String.eqb (range_steps p) "Random" in
  let u (k : nat) (a b : Q) := uniform a b (rnd k) in
  let c := mk_condition in
  let table (f r : list (string * condition)) : gmap string condition :=
    if fig then list_to_map f else if ran then list_to_map r else ∅ in
  match m with
  | LV_CAT_2 =>
      table
        [ ("A"%string, c 1 10 0.94);
          ("B"%string, c 2 0.160 (0.3 - 2 * mra_v_pu));
          ("C"%string, c 3 0.160 (0.45 - 2 * mra_v_pu));
          ("D"%string, c 4 2.68 0.65);
          ("D'"%string, c (4 + 10) 7.68 (0.67 + 2 * mra_v_pu));
          ("E"%string, c 5 2.0 0.88);
          ("F"%string, c 6 120.0 0.94) ]
        [ ("A"%string, c 1 10 (u 0%nat (0.88 + 2 * mra_v_pu) 1.0));
          ("B"%string, c 2 0.160 (u 1%nat 0.0 (0.3 - 2 * mra_v_pu)));
          ("C"%string, c 3 0.160 (u 2%nat 0.0 (0.45 - 2 * mra_v_pu)));
          ("D"%string, c 4 2.68 (u 3%nat (0.45 + 2 * mra_v_pu) (0.65 - 2 * mra_v_pu)));
          ("D'"%string, c (4 + 10) 7.68 (u 4%nat 0.67 (0.88 - 2 * mra_v_pu)));
          ("E"%string, c 5 2.0 (u 5%nat (0.65 + 2 * mra_v_pu) (0.88 - 2 * mra_v_pu)));
          ("F"%string, c 6 120.0 (u 6%nat (0.88 + 2 * mra_v_pu) 1.0)) ]
  | LV_CAT_3 =>
      table
        [ ("A"%string, c 1 5 0.94);
          ("B"%string, c 2 1 (0.05 - 2 * mra_v_pu));
          ("C"%string, c 3 9 (0.5 - 2 * mra_v_pu));
          ("C'"%string, c (3 + 10) 9 (0.52 + 2 * mra_v_pu));
          ("D"%string, c 4 10.0 0.7);
          ("E"%string, c 5 120.0 0.94) ]
        [ ("A"%string, c 1 5 (u 0%nat (0.88 + 2 * mra_v_pu) 1.0));
          ("B"%string, c 2 1 (u 1%nat 0.0 (0.05 - 2 * mra_v_pu)));
          ("C"%string, c 3 9 (u 2%nat 0.0 (0.5 - 2 * mra_v_pu)));
          ("C'"%string, c (3 + 10) 9 (u 3%nat 0.52 (0.7 - 2 * mra_v_pu)));
          ("D"%string, c 4 10.0 (u 4%nat (0.5 + 2 * mra_v_pu) (0.7 - 2 * mra_v_pu)));
          ("E"%string, c 5 120.0 (u 5%nat (0.88 + 2 * mra_v_pu) 1.0)) ]
  | HV_CAT_2 =>
      table
        [ ("A"%string, c 1 10 1.0);
          ("B"%string, c 2 0.2 (1.2 - 2 * mra_v_pu));
          ("C"%string, c 3 0.3 1.175);
          ("D"%string, c 4 0.5 1.15);
          ("E"%string, c 5 120.0 1.0) ]
        [ ("A"%string, c 1 10 (u 0%nat 1.0 (1.1 - 2 * mra_v_pu)));
          ("B"%string, c 2 0.2 (u 1%nat 1.18 1.2));
          ("C"%string, c 3 0.3 (u 2%nat 1.155 1.175));
          ("D"%string, c 4 0.5 (u 3%nat 1.13 1.15));
          ("E"%string, c 5 120.0 (u 4%nat 1.0 (1.1 - 2 * mra_v_pu))) ]
  | HV_CAT_3 =>
      table
        [ ("A"%string, c 1 5 1.05);
          ("B"%string, c 2 12 (1.2 - 2 * mra_v_pu));
          ("B'"%string, c (2 + 10) 12 1.12);
          ("C"%string, c 3 120 1.05) ]
        [ ("A"%string, c 1 5 (u 0%nat 1.0 (1.1 - 2 * mra_v_pu)));
          ("B"%string, c 2 12 (u 1%nat 1.18 1.2));
          ("B'"%string, c (2 + 10) 12 (u 2%nat 1.12 1.2));
          ("C"%string, c 3 120 (u 3%nat 1.0 (1.1 - 2 * mra_v_pu))) ]
  end.

(** The condition letters of a sequence, in the order they are appended. *)
Definition sequence_keys (m : mode) (consecutive : bool) : list string :=
  (match m, consecutive with
   | LV_CAT_2, true =>
       concat [ ["A"; "B"; "C"; "D"; "E"]; ["A"; "B"; "C"; "D"; "E"; "F"];
                ["A"; "B"; "C"; "D'"; "F"] ]
   | LV_CAT_2, false => ["A"; "B"; "C"; "D"; "E"; "F"]
   | LV_CAT_3, true =>
       concat [ ["A"; "B"; "C"; "D"]; ["A"; "B"; "C"; "D"];
                ["A"; "B"; "C"; "D"; "E"]; ["A"; "B"; "C'"; "D"; "E"] ]
   | LV_CAT_3, false => ["A"; "B"; "C"; "D"; "E"]
   | HV_CAT_2, true => concat [ ["A"; "B"; "C"; "D"]; ["A"; "B"; "C"; "D"; "E"] ]
   | HV_CAT_2, false => ["A"; "B"; "C"; "D"; "E"]
   | HV_CAT_3, true =>
       concat [ ["A"; "B"]; ["A"; "B"]; ["A"; "B"; "C"]; ["A"; "B'"; "C"] ]
   | HV_CAT_3, false => ["A"; "B"; "C"]
   end)%string.

(** [get_test_sequence(current_mode, test_condition)]. *)
Definition get_test_sequence (p : params) (m : mode)
    (test_condition : gmap string condition) : result (list row) :=
  let T0 := eut_startup_time p in
  let CONSECUTIVE := String.eqb (consecutive_ena p) "Enabled" in
  conds ← append_all test_condition (sequence_keys m CONSECUTIVE);
  Ok (set_timing T0 conds).

(** [set_test_conditions(current_mode)]. *)
Definition set_test_conditions (p : params) (mra_v_pu : Q) (rnd : nat -> Q) (m : mode)
  : result (list row) :=
  get_test_sequence p m (test_conditions p mra_v_pu rnd m).


End VoltageRideThrough.

Module FrequencyRideThrough.
Import RideThrough.

Definition LFRT : string := "LFRT".
Definition HFRT : string := "HFRT".

(** [self.params]: the entries the sequence generator reads. *)
Record params : Type := mk_params {
  lf_parameter : Q;
  lf_period : Q;
  hf_parameter : Q;
  hf_period : Q;
  eut_startup_time : Q
}.

(** [sub in s] on strings. *)
Definition contains (sub s : string) : bool :=
  match String.index 0 sub s with Some _ => true | None => false end.

(** [set_test_conditions]: the [TEST_CONDITION] dictionary. *)
Definition test_conditions (p : params) (f_nom : Q) (current_mode : string)
  : gmap string condition :=
  if contains LFRT current_mode then
    list_to_map
      [ ("Step E"%string, mk_condition 1 1 f_nom);
        ("Step G"%string, mk_condition 2 (lf_period p) (lf_parameter p));
        ("Step H"%string, mk_condition 1 11 f_nom) ]
  else if contains HFRT current_mode then
    list_to_map
      [ ("Step E"%string, mk_condition 1 1 f_nom);
        ("Step G"%string, mk_condition 2 (hf_period p) (hf_parameter p));
        ("Step H"%string, mk_condition 1 11 f_nom) ]
  else ∅.

(** [get_test_sequence(current_mode, test_condition)]. *)
Definition get_test_sequence (p : params) (current_mode : string)
    (test_condition : gmap string condition) : result (list row) :=
  let T0 := eut_startup_time p in
  conds ← append_all test_condition ["Step E"; "Step G"; "Step H"]%string;
  Ok (set_timing T0 conds).

Definition set_test_conditions (p : params) (f_nom : Q) (current_mode : string)
  : result (list row) :=
  get_test_sequence p current_mode (test_conditions p f_nom current_mode).


End FrequencyRideThrough.

Module PhaseChangeRideThrough.
Import RideThrough.

(** [set_test_conditions]: Table 9; condition G repeats condition A. *)
Definition test_conditions : gmap string condition :=
  list_to_map
    [ ("A"%string, mk_condition 1.0 30 0.0);
      ("G"%string, mk_condition 1.0 30 0.0);
      ("B"%string, mk_condition 2.0 0.5 60.0);
      ("C"%string, mk_condition 3.0 0.5 60.0);
      ("D"%string, mk_condition 4.0 0.5 60.0);
      ("E"%string, mk_condition 5.0 60.0 20.0);
      ("F"%string, mk_condition 6.0 60.0 20.0) ].

(** [get_test_sequence(test_num, test_condition)]. *)
Definition get_test_sequence (T0 : Q) (test_num : Q)
    (test_condition : gmap string condition) : result (list row) :=
  let keys :=
    (if Qeq_dec 1.0 test_num then ["A"; "B"; "G"]
     else if Qeq_dec 2.0 test_num then ["A"; "C"; "G"]
     else if Qeq_dec 3.0 test_num then ["A"; "D"; "G"]
     else if Qeq_dec 4.0 test_num then ["A"; "E"; "G"]
     else ["A"; "F"; "G"])%string in
  conds ← append_all test_condition keys;
  Ok (set_timing T0 conds).

Definition set_test_conditions (T0 : Q) (test_num : Q) : result (list row) :=
  get_test_sequence T0 test_num test_conditions.


End PhaseChangeRideThrough.

(** ** The open-loop response model and the transient criterion *)

Module OpenLoop.

#[local] Open Scope R_scope.

Inductive verdict : Set := Pass | Fail.

(** [calculate_open_loop_value(y0, y_ss, duration, tr)].  [y0] and [y_ss]
    come from dictionaries whose entries may still be [None]. *)
Definition calculate_open_loop_value (y0 y_ss : option R) (duration tr : R)
  : result R :=
  let time_const := tr / (- (ln 0.1)) in
  if Req_dec_T time_const 0 then Raise ZeroDivisionError
  else
    let number_of_taus := duration / time_const in
    let resp_fraction := 1 - exp (- number_of_taus) in
    match y_ss, y0 with
    | Some y_ss, Some y0 => Ok ((y_ss - y0) * resp_fraction + y0)
    | _, _ => Raise TypeError
    end.

(** What [open_loop_resp_criteria] reads: the running script, [MRA[y]] and
    [MRA['T']], the elapsed time [timestamp_tr - initial timestamp], and the
    initial, target and measured value of the first y criterion. *)
Record inputs : Type := mk_inputs {
  script_name : string;
  mra_y : R;
  mra_T : R;
  duration : R;
  initial_y_value : option R;
  tr_targ : option R;
  tr_meas : option R
}.

(** The locals of [open_loop_resp_criteria] and the verdict it stores in
    [tr_value['TR_90_%_PF']]. *)
Record outcome : Type := mk_outcome {
  y_target : R;
  increasing : bool;
  y_min : R;
  y_max : R;
  tr_90_pf : verdict
}.

(** [open_loop_resp_criteria(tr=1)]. *)
Definition open_loop_resp_criteria (i : inputs) (tr : R) : result outcome :=
  let crp := String.eqb (script_name i) CRP in
  let y_start := if crp then Some 0.0 else initial_y_value i in
  let mra_t := if crp then 0 else mra_T i * duration i in
  let y_ss := tr_targ i in
  y_target ← calculate_open_loop_value y_start y_ss (duration i) tr;
  match y_start, tr_meas i with
  | Some y0, Some y_meas =>
      let increasing := if Rle_dec y0 y_target then true else false in
      lo ← calculate_open_loop_value y_start y_ss
             (if increasing then duration i - 1.5 * mra_t else duration i + 1.5 * mra_t) tr;
      let y_min := lo - 1.5 * mra_y i in
      hi ← calculate_open_loop_value y_start y_ss
             (if increasing then duration i + 1.5 * mra_t else duration i - 1.5 * mra_t) tr;
      let y_max := hi + 1.5 * mra_y i in
      let pf :=
        if crp then
          if increasing
          then (if Rle_dec y_min y_meas then Pass else Fail)
          else (if Rle_dec y_meas y_max then Pass else Fail)
        else
          if Rle_dec y_min y_meas
          then (if Rle_dec y_meas y_max then Pass else Fail)
          else Fail in
      Ok (mk_outcome y_target increasing y_min y_max pf)
  | _, _ => Raise TypeError
  end.

End OpenLoop.

(** * Statements

    The predicates the properties are stated with, in the specification's
    words, and the example runs they are evaluated on. *)

(** A dictionary literal is read like the association list it is built
    from: the first pair with the key wins. *)
Fixpoint assoc {A} (l : list (string * A)) (k : string) : option A :=
  match l with
  | [] => None
  | (k', v) :: tl => if String.eqb k' k then Some v else assoc tl k
  end.

(** Bounded quantification over an integer interval, by enumeration. *)
Fixpoint Z_upto (lo : Z) (n : nat) : list Z :=
  match n with
  | O => []
  | S n' => lo :: Z_upto (lo + 1) n'
  end.






(** The duration of Step G that a mode selects. *)
Definition step_g_period (p : FrequencyRideThrough.params) (current_mode : string)
  : Q :=
  if FrequencyRideThrough.contains FrequencyRideThrough.LFRT current_mode
  then FrequencyRideThrough.lf_period p
  else FrequencyRideThrough.hf_period p.


(** A returned number, up to the value of the fraction. *)
Definition returns (r : result (option Q)) (x : Q) : Prop :=
  match r with Ok (Some y) => y == x | _ => False end.

(** A looked-up number, up to the value of the fraction. *)
Definition has_value (r : result Q) (x : Q) : Prop :=
  match r with Ok y => y == x | _ => False end.

(** A returned window, up to the value of the fractions. *)
Definition returns_window (r : result CriteriaValidation.triple) (t lo hi : Q) : Prop :=
  match r with
  | Ok (Some a, Some b, Some c) => a == t /\ b == lo /\ c == hi
  | _ => False
  end.


(** The dead-band set-point of the Frequency-Watt law. *)
Definition p_db (self : ActiveFunction.t) : Q :=
  if Qlt_le_dec (ActiveFunction.pwr self * 100) (ActiveFunction.max_pwr_lim self)
  then ActiveFunction.pwr self
  else ActiveFunction.max_pwr_lim self / 100.

(** The start value the transient criterion uses: 0 for the CRP script,
    the value recorded at the start of the step otherwise. *)
Definition y_start_of (i : OpenLoop.inputs) : option R :=
  if String.eqb (OpenLoop.script_name i) CRP then Some 0.0%R
  else OpenLoop.initial_y_value i.

(** The accuracy in time the transient criterion uses: none for the CRP
    script, [MRA['T']] times the elapsed time otherwise. *)
Definition mra_t_of (i : OpenLoop.inputs) : R :=
  if String.eqb (OpenLoop.script_name i) CRP then 0%R
  else (OpenLoop.mra_T i * OpenLoop.duration i)%R.

(** An instance of the [math.sqrt] parameter for evaluating examples (exact
    on the squares of integers). *)
Definition isqrt (q : Q) : Q := inject_Z (Z.sqrt (Qfloor q)).

(** An example run: a 10 kW, 120 V, 60 Hz unit with the curve tables its
    [set_params] methods build, and a measurement provider that reads
    [v], [f] and [p]. *)
Definition eut_10kW : EutParameters.t :=
  EutParameters.mk 120 10000 132 105.6 60 66 56 10000 (-10000) 2000
    (Some 4400) (Some "No"%string).

Definition curves_10kW : gmap string (gmap Z (gmap string Q)) :=
  match VoltVar.set_params eut_10kW ∅ with
  | Ok param =>
      FrequencyWatt.set_params eut_10kW None None None None
        (VoltWatt.set_params eut_10kW param)
  | Raise _ => ∅
  end.

Definition readings (v f p : Q) (type_meas : string) : result (option Q) :=
  if String.eqb type_meas "V" then Ok (Some v)
  else if String.eqb type_meas "F" then Ok (Some f)
  else if String.eqb type_meas "P" then Ok (Some p)
  else Ok None.

Definition run_10kW (pwr : Q) (label : option string) (v f p : Q) : ActiveFunction.t :=
  ActiveFunction.mk eut_10kW pwr 100 1 curves_10kW
    (Some {[ "P"%string := 0.5 ]}) label (readings v f p).

(** * More of the library *)

From stdpp Require pretty.

(** ** The Watt-Var curve table *)

Module WattVar.
Import EutParameters.

(** [WattVar.set_params]: Tables 28 to 30.  The test
    [self.absorb is "Yes"] compares object identity, which the value of
    the string does not determine; its outcome is the argument
    [absorb_is_yes]. *)
Definition set_params (self : EutParameters.t) (absorb_is_yes : bool)
    (param : gmap string (gmap Z (gmap string Q)))
  : gmap string (gmap Z (gmap string Q)) :=
  let p :=
    if Qlt_le_dec (0.2 * p_rated self) (p_min self)
    then p_min self
    else 0.2 * p_rated self in
  let c1 : gmap string Q :=
    if absorb_is_yes then
      list_to_map
        [ ("P1"%string, py_round p 2);
          ("P2"%string, py_round (0.5 * p_rated_prime self) 2);
          ("P3"%string, py_round (1.0 * p_rated_prime self) 2);
          ("Q1"%string, 0);
          ("Q2"%string, 0);
          ("Q3"%string, py_round (s_rated self * 0.44) 2);
          ("TR"%string, 10.0) ]
    else
      list_to_map
        [ ("P1"%string, py_round p 2);
          ("P2"%string, py_round (0.5 * p_rated self) 2);
          ("P3"%string, py_round (1.0 * p_rated self) 2);
          ("Q1"%string, py_round (s_rated self * 0.0) 2);
          ("Q2"%string, py_round (s_rated self * 0.0) 2);
          ("Q3"%string, py_round (s_rated self * -0.44) 2) ] in
  let c2 : gmap string Q :=
    if absorb_is_yes then
      list_to_map
        [ ("P1"%string, py_round (- p) 2);
          ("P2"%string, py_round (0.5 * p_rated_prime self) 2);
          ("P3"%string, py_round (1.0 * p_rated_prime self) 2);
          ("Q1"%string, py_round (s_rated self * 0.22) 2);
          ("Q2"%string, py_round (s_rated self * 0.22) 2);
          ("Q3"%string, py_round (s_rated self * 0.44) 2);
          ("TR"%string, 10.0) ]
    else
      list_to_map
        [ ("P1"%string, py_round p 2);
          ("P2"%string, py_round (0.5 * p_rated self) 2);
          ("P3"%string, py_round (1.0 * p_rated self) 2);
          ("Q1"%string, py_round (s_rated self * -0.22) 2);
          ("Q2"%string, py_round (s_rated self * -0.22) 2);
          ("Q3"%string, py_round (s_rated self * -0.44) 2) ] in
  let c3 : gmap string Q :=
    if absorb_is_yes then
      list_to_map
        [ ("P1"%string, py_round (- p) 2);
          ("P2"%string, py_round (0.5 * p_rated_prime self) 2);
          ("P3"%string, py_round (1.0 * p_rated_prime self) 2);
          ("Q1"%string, py_round 0 2);
          ("Q2"%string, py_round (s_rated self * 0.44) 2);
          ("Q3"%string, py_round (s_rated self * 0.44) 2);
          ("TR"%string, 10.0) ]
    else
      list_to_map
        [ ("P1"%string, py_round p 2);
          ("P2"%string, py_round (0.5 * p_rated self) 2);
          ("P3"%string, py_round (1.0 * p_rated self) 2);
          ("Q1"%string, py_round (s_rated self * 0.0) 2);
          ("Q2"%string, py_round (s_rated self * -0.44) 2);
          ("Q3"%string, py_round (s_rated self * -0.44) 2) ] in
  <[WV := <[3%Z := c3]> (<[2%Z := c2]> (<[1%Z := c1]> ∅))]> param.

End WattVar.

(** ** More of the ride-through classes: modes and stop times *)

Definition LV : string := "LV".
Definition HV : string := "HV".
Definition CAT_2 : string := "CAT_2".
Definition CAT_3 : string := "CAT_3".

(** [VoltageRideThrough.set_vrt_modes]: the list stored in
    [params["modes"]], from [params["lv_mode"]], [params["hv_mode"]] and
    [params["categories"]]. *)
Definition set_vrt_modes (lv_mode hv_mode categories : string) : list string :=
  let modes := [] in
  let modes :=
    if String.eqb lv_mode "Enabled"
       && (String.eqb categories CAT_2 || String.eqb categories "Both")
    then modes ++ [(LV ++ "_" ++ CAT_2)%string] else modes in
  let modes :=
    if String.eqb lv_mode "Enabled"
       && (String.eqb categories CAT_3 || String.eqb categories "Both")
    then modes ++ [(LV ++ "_" ++ CAT_3)%string] else modes in
  let modes :=
    if String.eqb hv_mode "Enabled"
       && (String.eqb categories CAT_2 || String.eqb categories "Both")
    then modes ++ [(HV ++ "_" ++ CAT_2)%string] else modes in
  let modes :=
    if String.eqb hv_mode "Enabled"
       && (String.eqb categories CAT_3 || String.eqb categories "Both")
    then modes ++ [(HV ++ "_" ++ CAT_3)%string] else modes in
  modes.

(** The [if]/[elif] chain on [current_mode] that
    [VoltageRideThrough.set_test_conditions] and [get_test_sequence] both
    dispatch on; [None] when no branch applies. *)
Definition vrt_branch (current_mode : string) : option VoltageRideThrough.mode :=
  let has := FrequencyRideThrough.contains in
  if has CAT_2 current_mode && has LV current_mode then Some VoltageRideThrough.LV_CAT_2
  else if has CAT_3 current_mode && has LV current_mode then Some VoltageRideThrough.LV_CAT_3
  else if has CAT_2 current_mode && has HV current_mode then Some VoltageRideThrough.HV_CAT_2
  else if has CAT_3 current_mode && has HV current_mode then Some VoltageRideThrough.HV_CAT_3
  else None.

(** [FrequencyRideThrough.set_modes], from [params["lf_mode"]] and
    [params["hf_mode"]]. *)
Definition set_modes (lf_mode hf_mode : string) : list string :=
  let modes := [] in
  let modes :=
    if String.eqb lf_mode "Enabled" then modes ++ [FrequencyRideThrough.LFRT] else modes in
  let modes :=
    if String.eqb hf_mode "Enabled" then modes ++ [FrequencyRideThrough.HFRT] else modes in
  modes.

(** [get_vrt_stop_time], [get_frt_stop_time] and [get_pcrt_stop_time]:
    [test_sequences_df[..._END_TIMING].iloc[-1]].  [None] stands for the
    [IndexError] on a frame without rows. *)
Definition get_vrt_stop_time (test_sequences_df : list RideThrough.row) : option Q :=
  last (map RideThrough.end_timing test_sequences_df).

Definition get_frt_stop_time (test_sequences_df : list RideThrough.row) : option Q :=
  last (map RideThrough.end_timing test_sequences_df).

Definition get_pcrt_stop_time (test_sequences_df : list RideThrough.row) : option Q :=
  last (map RideThrough.end_timing test_sequences_df).

(** ** DataLogging: the measurement aggregation *)

Module DataLogging.

(** [self.type_meas]. *)
Definition type_meas : gmap string string :=
  list_to_map
    [ ("V", "AC_VRMS"); ("I", "AC_IRMS"); ("P", "AC_P"); ("Q", "AC_Q");
      ("VA", "AC_S"); ("F", "AC_FREQ"); ("PF", "AC_PF") ]%string.

(** [str.lower()], on ASCII text: the capital letters are lowered, every
    other character is kept. *)
Definition lower_ascii (c : ascii) : ascii :=
  let n := N_of_ascii c in
  if ((65 <=? n) && (n <=? 90))%N then ascii_of_N (n + 32) else c.

Fixpoint lower (s : string) : string :=
  match s with
  | EmptyString => EmptyString
  | String c tl => String (lower_ascii c) (lower tl)
  end.

(** [get_measurement_label(type_meas)].  [phases] is taken as a string;
    with none of the three names [meas_label] stays unassigned. *)
Definition get_measurement_label (phases : string) (type_meas' : string)
  : result (list string) :=
  meas_root ← getitem type_meas type_meas';
  if String.eqb (lower phases) "single phase" then
    Ok [(meas_root ++ "_1")%string]
  else if String.eqb (lower phases) "split phase" then
    Ok [(meas_root ++ "_1")%string; (meas_root ++ "_2")%string]
  else if String.eqb (lower phases) "three phase" then
    Ok [(meas_root ++ "_1")%string; (meas_root ++ "_2")%string;
        (meas_root ++ "_3")%string]
  else Raise UnboundLocalError.

(** [l[i]] on a list of labels.  (Python raises [IndexError]; inside the
    [try] block below every exception is caught alike.) *)
Definition label_item (l : list string) (i : nat) : result string :=
  match l !! i with Some s => Ok s | None => Raise KeyError end.

(** [a + b], [a / n] and [round(a, 4)] on readings that may be [None]. *)
Definition add_readings (a b : option Q) : result Q :=
  match a, b with Some x, Some y => Ok (x + y) | _, _ => Raise TypeError end.

Definition div_reading (a nb_phases : option Q) : result Q :=
  match a, nb_phases with
  | Some x, Some n => py_div x n
  | _, _ => Raise TypeError
  end.

Definition round_reading (a : option Q) : result Q :=
  match a with Some x => Ok (py_round x 4) | None => Raise TypeError end.

(** [get_measurement_total(type_meas, log=False)].  [data] is the dataset
    that [self.daq.data_capture_read()] returns; [data.get(label)] is
    [None] for a label that is absent.  The label is first looked up
    outside the [try] block (for the debug log), so its exceptions escape;
    every exception of the block itself turns into the result [None]. *)
Definition get_measurement_total (phases : string) (data : gmap string Q)
    (type_meas' : string) : result (option Q) :=
  let label := get_measurement_label phases type_meas' in
  l ← label; _ ← label_item l 0;
  let block : result Q :=
    vn ← (if String.eqb phases "Single phase" then
            l ← label; k ← label_item l 0;
            Ok (data !! k, Some 1)
          else if String.eqb phases "Split phase" then
            l ← label; k ← label_item l 0; let value1 := data !! k in
            l ← label; k ← label_item l 1; let value2 := data !! k in
            value ← add_readings value1 value2;
            Ok (Some value, Some 2)
          else if String.eqb phases "Three phase" then
            l ← label; k ← label_item l 0; let value1 := data !! k in
            l ← label; k ← label_item l 1; let value2 := data !! k in
            l ← label; k ← label_item l 2; let value3 := data !! k in
            value ← add_readings value1 value2;
            value ← add_readings (Some value) value3;
            Ok (Some value, Some 3)
          else Ok (None, None));
    let '(value, nb_phases) := vn in
    value ← (if String.eqb type_meas' "V" then
               v ← div_reading value nb_phases; Ok (Some v)
             else if String.eqb type_meas' "F" then
               l ← label; k ← label_item l 0; Ok (data !! k)
             else Ok value);
    round_reading value in
  match block with
  | Ok v => Ok (Some v)
  | Raise _ => Ok None
  end.

End DataLogging.

(** ** The step sequences of the characterisation tests *)

Module StepSequences.
Import EutParameters ActiveFunction.

(** A [collections.OrderedDict] from step labels to values: the pairs in
    insertion order, each key once. *)
Definition OrderedDict : Type := list (string * Q).

(** [d[k] = v] (also [d.update({k: v})]): a present key keeps its place,
    a new one goes to the end. *)
Fixpoint od_set (d : OrderedDict) (k : string) (v : Q) : OrderedDict :=
  match d with
  | [] => [(k, v)]
  | (k', v') :: tl =>
      if String.eqb k' k then (k', v) :: tl else (k', v') :: od_set tl k v
  end.

(** [del d[k]]. *)
Fixpoint od_del (d : OrderedDict) (k : string) : result OrderedDict :=
  match d with
  | [] => Raise KeyError
  | (k', v') :: tl =>
      if String.eqb k' k then Ok tl
      else tl' ← od_del tl k; Ok ((k', v') :: tl')
  end.

(** The statement [steps_dict[self.get_step_label()] = value]. *)
Definition set_next (value : Q) (st : OrderedDict * UtilParameters.t)
  : result (OrderedDict * UtilParameters.t) :=
  r ← UtilParameters.get_step_label st.2;
  Ok (od_set st.1 r.1 value, r.2).

(** The loop [for step, x in d.items(): ...] whose body only updates
    [d[step]]: every pair is visited once, in order, with the value it
    has at that moment. *)
Definition for_items (body : OrderedDict -> string -> Q -> OrderedDict)
    (d : OrderedDict) : OrderedDict :=
  foldl (fun d' (k : string) =>
           match assoc d' k with
           | Some x => body d' k x
           | None => d'
           end) d (map fst d).

(** The body of the loop of the voltage sequences: round to [ndigits]
    decimals, then replace what lies outside the limits of the unit. *)
Definition round_and_limit (lo hi : Q) (ndigits : N)
    (d : OrderedDict) (step : string) (x : Q) : OrderedDict :=
  let d := od_set d step (py_round x ndigits) in
  if Qlt_le_dec hi x then od_set d step hi
  else if Qlt_le_dec x lo then od_set d step lo
  else d.

(** The bodies of the two loops of the frequency sequences. *)
Definition round_and_limit_above (hi : Q) (ndigits : N)
    (d : OrderedDict) (step : string) (x : Q) : OrderedDict :=
  let d := od_set d step (py_round x ndigits) in
  if Qlt_le_dec hi x then od_set d step hi else d.

Definition round_and_limit_below (lo : Q) (ndigits : N)
    (d : OrderedDict) (step : string) (x : Q) : OrderedDict :=
  let d := od_set d step (py_round x ndigits) in
  if Qlt_le_dec x lo then od_set d step lo else d.

(** [VoltWatt.create_vw_dict_steps(mode='Normal')]: the steps, [None] for
    another mode, and the label generator after the call. *)
Definition create_vw_dict_steps (self : ActiveFunction.t) (u : UtilParameters.t)
    (mode : string) : result (option OrderedDict * UtilParameters.t) :=
  if String.eqb mode "Normal" then
    u ← UtilParameters.set_step_label (Some "G"%string) u;
    let v_steps_dict : OrderedDict := [] in
    v_pairs ← get_params self VW;
    mra_v ← MRA self "V"%string;
    let a_v := mra_v * 1.5 in
    st ← set_next (v_low (eut self) + a_v) (v_steps_dict, u);
    v1 ← getitem v_pairs "V1"%string;
    st ← set_next (v1 - a_v) st;
    v1 ← getitem v_pairs "V1"%string;
    st ← set_next (v1 + a_v) st;
    v2 ← getitem v_pairs "V2"%string; v1 ← getitem v_pairs "V1"%string;
    st ← set_next ((v2 + v1) / 2) st;
    v2 ← getitem v_pairs "V2"%string;
    st ← set_next (v2 - a_v) st;
    v2 ← getitem v_pairs "V2"%string;
    st ← set_next (v2 + a_v) st;
    st ← set_next (v_high (eut self) - a_v) st;
    v2 ← getitem v_pairs "V2"%string;
    st ← set_next (v2 + a_v) st;
    v2 ← getitem v_pairs "V2"%string;
    st ← set_next (v2 - a_v) st;
    v1 ← getitem v_pairs "V1"%string; v2 ← getitem v_pairs "V2"%string;
    st ← set_next ((v1 + v2) / 2) st;
    v1 ← getitem v_pairs "V1"%string;
    st ← set_next (v1 + a_v) st;
    v1 ← getitem v_pairs "V1"%string;
    st ← set_next (v1 - a_v) st;
    st ← set_next (v_low (eut self) + a_v) st;
    let '(v_steps_dict, u) := st in
    v2 ← getitem v_pairs "V2"%string;
    v_steps_dict ←
      (if Qlt_le_dec (v_high (eut self)) v2 then
         d ← od_del v_steps_dict "Step K";
         d ← od_del d "Step L";
         d ← od_del d "Step M";
         d ← od_del d "Step N";
         od_del d "Step O"
       else Ok v_steps_dict);
    let v_steps_dict :=
      for_items (round_and_limit (v_low (eut self)) (v_high (eut self)) 2)
        v_steps_dict in
    Ok (Some v_steps_dict, u)
  else Ok (None, u).

(** [FrequencyWatt.create_fw_dict_steps(mode)].  For a mode other than
    ['Above'] and ['Below'] the final [f_steps_dict[mode]] finds no
    entry. *)
Definition create_fw_dict_steps (self : ActiveFunction.t) (u : UtilParameters.t)
    (mode : string) : result (OrderedDict * UtilParameters.t) :=
  mra_f ← MRA self "F"%string;
  let a_f := mra_f * 1.5 in
  let f_nom := f_nom (eut self) in
  fw_param ← get_params self FW;
  u ← UtilParameters.set_step_label (Some "G"%string) u;
  if String.eqb mode "Above" then
    let st : OrderedDict * UtilParameters.t := ([], u) in
    st ← set_next f_nom st;
    dbf ← getitem fw_param "dbf"%string;
    st ← set_next ((f_nom + dbf) - a_f) st;
    dbf ← getitem fw_param "dbf"%string;
    st ← set_next ((f_nom + dbf) + a_f) st;
    f_small ← getitem fw_param "f_small"%string; dbf ← getitem fw_param "dbf"%string;
    st ← set_next (f_small + f_nom + dbf) st;
    st ← set_next (f_max (eut self) - a_f) st;
    f_small ← getitem fw_param "f_small"%string;
    st ← set_next (f_max (eut self) - f_small) st;
    dbf ← getitem fw_param "dbf"%string;
    st ← set_next ((f_nom + dbf) + a_f) st;
    dbf ← getitem fw_param "dbf"%string;
    st ← set_next ((f_nom + dbf) - a_f) st;
    st ← set_next f_nom st;
    let '(d, u) := st in
    Ok (for_items (round_and_limit_above (f_max (eut self)) 3) d, u)
  else if String.eqb mode "Below" then
    let st : OrderedDict * UtilParameters.t := ([], u) in
    dbf ← getitem fw_param "dbf"%string;
    st ← set_next ((f_nom - dbf) + a_f) st;
    dbf ← getitem fw_param "dbf"%string;
    st ← set_next ((f_nom - dbf) - a_f) st;
    f_small ← getitem fw_param "f_small"%string; dbf ← getitem fw_param "dbf"%string;
    st ← set_next (f_nom - f_small - dbf) st;
    st ← set_next (f_min (eut self) + a_f) st;
    f_small ← getitem fw_param "f_small"%string;
    st ← set_next (f_min (eut self) + f_small) st;
    dbf ← getitem fw_param "dbf"%string;
    st ← set_next ((f_nom - dbf) - a_f) st;
    dbf ← getitem fw_param "dbf"%string;
    st ← set_next ((f_nom - dbf) + a_f) st;
    st ← set_next f_nom st;
    let '(d, u) := st in
    Ok (for_items (round_and_limit_below (f_min (eut self)) 3) d, u)
  else Raise KeyError.

(** [WattVar.create_wv_dict_steps()]. *)
Definition create_wv_dict_steps (self : ActiveFunction.t) (u : UtilParameters.t)
  : result (OrderedDict * UtilParameters.t) :=
  let p_steps_dict : OrderedDict := [] in
  p_pairs ← get_params self WV;
  u ← UtilParameters.set_step_label (Some "G"%string) u;
  mra_p ← MRA self "P"%string;
  let a_p := mra_p * 1.5 in
  st ← set_next (p_min (eut self)) (p_steps_dict, u);
  p1 ← getitem p_pairs "P1"%string;
  lowest_p_value ←
    (if Qlt_le_dec (p1 - a_p) (p_min (eut self)) then Ok (p_min (eut self))
     else p1 ← getitem p_pairs "P1"%string; Ok (p1 - a_p));
  p3 ← getitem p_pairs "P3"%string;
  highest_p_value ←
    (if Qlt_le_dec (p_rated (eut self)) (p3 + a_p) then Ok (p_rated (eut self))
     else p3 ← getitem p_pairs "P3"%string; Ok (p3 + a_p));
  st ← set_next lowest_p_value st;
  p1 ← getitem p_pairs "P1"%string;
  st ← set_next (p1 + a_p) st;
  p1 ← getitem p_pairs "P1"%string; p2 ← getitem p_pairs "P2"%string;
  st ← set_next ((p1 + p2) / 2) st;
  p2 ← getitem p_pairs "P2"%string;
  st ← set_next (p2 - a_p) st;
  p2 ← getitem p_pairs "P2"%string;
  st ← set_next (p2 + a_p) st;
  p2 ← getitem p_pairs "P2"%string; p3 ← getitem p_pairs "P3"%string;
  st ← set_next ((p2 + p3) / 2) st;
  p3 ← getitem p_pairs "P3"%string;
  st ← set_next (p3 - a_p) st;
  st ← set_next highest_p_value st;
  st ← set_next (p_rated (eut self)) st;
  st ← set_next highest_p_value st;
  p3 ← getitem p_pairs "P3"%string;
  st ← set_next (p3 - a_p) st;
  p2 ← getitem p_pairs "P2"%string; p3 ← getitem p_pairs "P3"%string;
  st ← set_next ((p2 + p3) / 2) st;
  p2 ← getitem p_pairs "P2"%string;
  st ← set_next (p2 + a_p) st;
  p2 ← getitem p_pairs "P2"%string;
  st ← set_next (p2 - a_p) st;
  p1 ← getitem p_pairs "P1"%string; p2 ← getitem p_pairs "P2"%string;
  st ← set_next ((p1 + p2) / 2) st;
  p1 ← getitem p_pairs "P1"%string;
  st ← set_next (p1 + a_p) st;
  st ← set_next lowest_p_value st;
  st ← set_next (p_min (eut self)) st;
  Ok st.

(** [VoltVar.create_vv_dict_steps(mode='Normal', ul1547=None)];
    [running_test_script_parameters] holds ["VREF"].  The two special
    modes return [None] after the reference voltage, the accuracy and the
    curve have been read and the label generator has been reset. *)
Definition create_vv_dict_steps (self : ActiveFunction.t) (u : UtilParameters.t)
    (running_test_script_parameters : gmap string Q)
    (mode : string) (ul1547 : option string)
  : result (option OrderedDict * UtilParameters.t) :=
  v_ref ← getitem running_test_script_parameters "VREF"%string;
  let v_steps_dict : OrderedDict := [] in
  mra_v ← MRA self "V"%string;
  let a_v := mra_v * 1.5 in
  v_pairs ← get_params self VV;
  u ← UtilParameters.set_step_label (Some "G"%string) u;
  if String.eqb mode "Vref-test" then Ok (None, u)
  else if String.eqb mode "Imbalanced grid" then Ok (None, u)
  else
    let v_nom := v_nom (eut self) in
    (* Capacitive test *)
    v3 ← getitem v_pairs "V3"%string;
    st ← set_next (v3 - a_v) (v_steps_dict, u);
    v3 ← getitem v_pairs "V3"%string;
    st ← set_next (v3 + a_v) st;
    v3 ← getitem v_pairs "V3"%string; v4 ← getitem v_pairs "V4"%string;
    st ← set_next ((v3 + v4) / 2) st;
    v4 ← getitem v_pairs "V4"%string;
    st ← set_next (v4 - a_v) st;
    v4 ← getitem v_pairs "V4"%string;
    st ← set_next (v4 + a_v) st;
    st ← set_next (v_high (eut self) - a_v) st;
    v4 ← getitem v_pairs "V4"%string;
    st ← set_next (v4 + a_v) st;
    v4 ← getitem v_pairs "V4"%string;
    st ← set_next (v4 - a_v) st;
    v3 ← getitem v_pairs "V3"%string; v4 ← getitem v_pairs "V4"%string;
    st ← set_next ((v3 + v4) / 2) st;
    v3 ← getitem v_pairs "V3"%string;
    st ← set_next (v3 + a_v) st;
    v3 ← getitem v_pairs "V3"%string;
    st ← set_next (v3 - a_v) st;
    st ← set_next (v_ref * v_nom) st;
    st ← (match ul1547 with
          | None => set_next (v_ref * v_nom) st
          | Some _ => set_next v_nom st
          end);
    (* Inductive test *)
    v2 ← getitem v_pairs "V2"%string;
    st ← set_next (v2 + a_v) st;
    v2 ← getitem v_pairs "V2"%string;
    st ← set_next (v2 - a_v) st;
    v1 ← getitem v_pairs "V1"%string; v2 ← getitem v_pairs "V2"%string;
    st ← set_next ((v1 + v2) / 2) st;
    v1 ← getitem v_pairs "V1"%string;
    st ← set_next (v1 + a_v) st;
    v1 ← getitem v_pairs "V1"%string;
    st ← set_next (v1 - a_v) st;
    st ← set_next (v_low (eut self) + a_v) st;
    v1 ← getitem v_pairs "V1"%string;
    st ← set_next (v1 - a_v) st;
    v1 ← getitem v_pairs "V1"%string;
    st ← set_next (v1 + a_v) st;
    v1 ← getitem v_pairs "V1"%string; v2 ← getitem v_pairs "V2"%string;
    st ← set_next ((v1 + v2) / 2) st;
    v2 ← getitem v_pairs "V2"%string;
    st ← set_next (v2 - a_v) st;
    v2 ← getitem v_pairs "V2"%string;
    st ← set_next (v2 + a_v) st;
    st ← set_next (v_ref * v_nom) st;
    st ← (match ul1547 with
          | None => set_next (v_ref * v_nom) st
          | Some _ => set_next v_nom st
          end);
    let '(v_steps_dict, u) := st in
    let v_steps_dict :=
      for_items (round_and_limit (v_low (eut self)) (v_high (eut self)) 2)
        v_steps_dict in
    v4 ← getitem v_pairs "V4"%string;
    v_steps_dict ←
      (if Qlt_le_dec (v_high (eut self)) v4 then
         d ← od_del v_steps_dict "Step J";
         d ← od_del d "Step K";
         d ← od_del d "Step M";
         od_del d "Step N"
       else Ok v_steps_dict);
    v1 ← getitem v_pairs "V1"%string;
    v_steps_dict ←
      (if Qlt_le_dec v1 (v_low (eut self)) then
         d ← od_del v_steps_dict "Step V";
         d ← od_del d "Step W";
         d ← od_del d "Step Y";
         od_del d "Step Z"
       else Ok v_steps_dict);
    Ok (Some v_steps_dict, u).

End StepSequences.

(** ** ImbalanceComponent *)

Module ImbalanceComponent.

(** [self.mag] and [self.ang]; [__init__] leaves both empty. *)
Record t : Type := mk {
  mag : gmap string (list Q);
  ang : gmap string (list Q)
}.

Definition init : t := mk ∅ ∅.

(** [set_imbalance_config(imbalance_angle_fix=None)] for a unit of nominal
    voltage [v_nom]. *)
Definition set_imbalance_config (v_nom : Q) (imbalance_angle_fix : option string)
    (self : t) : t :=
  let selected (s : string) := bool_decide (imbalance_angle_fix = Some s) in
  if selected "std"%string then
    mk (<["case_b"%string := [0.91 * v_nom; 1.07 * v_nom; 1.07 * v_nom]]>
          (<["case_a"%string := [1.07 * v_nom; 0.91 * v_nom; 0.91 * v_nom]]> (mag self)))
       (<["case_b"%string := [0.0; -120.0; 120.0]]>
          (<["case_a"%string := [0.0; -120.0; 120.0]]> (ang self)))
  else if selected "fix_mag"%string then
    mk (<["case_b"%string := [0.91 * v_nom; 1.07 * v_nom; 1.07 * v_nom]]>
          (<["case_a"%string := [1.07 * v_nom; 0.91 * v_nom; 0.91 * v_nom]]> (mag self)))
       (<["case_b"%string := [0.0; -114.5; 114.5]]>
          (<["case_a"%string := [0.0; -126.59; 126.59]]> (ang self)))
  else if selected "fix_ang"%string then
    mk (<["case_b"%string := [0.9 * v_nom; 1.08 * v_nom; 1.08 * v_nom]]>
          (<["case_a"%string := [1.08 * v_nom; 0.91 * v_nom; 0.91 * v_nom]]> (mag self)))
       (<["case_b"%string := [0.0; -120.0; 120.0]]>
          (<["case_a"%string := [0.0; -120.0; 120.0]]> (ang self)))
  else if selected "not_fix"%string then
    mk (<["case_b"%string := [0.9 * v_nom; 1.08 * v_nom; 1.08 * v_nom]]>
          (<["case_a"%string := [1.08 * v_nom; 0.91 * v_nom; 0.91 * v_nom]]> (mag self)))
       (<["case_b"%string := [0.0; -114.5; 114.5]]>
          (<["case_a"%string := [0.0; -126.59; 126.59]]> (ang self)))
  else self.

(** [sum(l)]. *)
Definition py_sum (l : list Q) : Q := foldl Qplus 0 l.

(** [set_grid_asymmetric(grid, case, imbalance_resp='AVG_3PH_RMS')]: the
    magnitudes and angles handed to the grid simulator ([None] for
    [grid=None]) and the value returned. *)
Definition set_grid_asymmetric (self : t) (grid : bool) (case imbalance_resp : string)
  : result (option (list Q * list Q) * option Q) :=
  config ← (if grid then
              m ← getitem (mag self) case;
              a ← getitem (ang self) case;
              Ok (Some (m, a))
            else Ok None);
  if String.eqb imbalance_resp "AVG_3PH_RMS" then
    m ← getitem (mag self) case;
    Ok (config, Some (py_round (py_sum m / 3.0) 2))
  else Ok (config, None).

End ImbalanceComponent.

(** ** Prioritization: the steps of Table 39 *)

Module Prioritization.
Import EutParameters.

(** A step: the dictionary [{'V': v, 'F': f, 'P': p}].  A value is
    [None] where Python stores [None]. *)
Definition step (v f p : Q) : gmap string (option Q) :=
  <["P"%string := Some p]> (<["F"%string := Some f]> (<["V"%string := Some v]> ∅)).

Definition step_dicts (self : EutParameters.t) : list (gmap string (option Q)) :=
  [ step (1.00 * v_nom self) 60.00 (0.5 * p_rated self);
    step (1.09 * v_nom self) 60.00 (0.4 * p_rated self);
    step (1.09 * v_nom self) 60.33 (0.3 * p_rated self);
    step (1.09 * v_nom self) 60.00 (0.4 * p_rated self);
    step (1.09 * v_nom self) 59.36 (0.4 * p_rated self);
    step (1.00 * v_nom self) 59.36 (0.6 * p_rated self);
    step (1.00 * v_nom self) 60.00 (0.5 * p_rated self);
    step (1.00 * v_nom self) 59.36 (0.7 * p_rated self) ].

(** [y * x] where [x] may be [None]. *)
Definition rmul_opt (y : Q) (x : option Q) : result Q :=
  match x with Some v => Ok (y * v) | None => Raise TypeError end.

(** The loop of the [VV] branch, with its counter [i]. *)
Fixpoint vv_loop (q_rated : option Q) (i : Z) (l : list (gmap string (option Q)))
  : result (list (gmap string (option Q))) :=
  match l with
  | [] => Ok []
  | step_dict :: tl =>
      q ← (if (0 <? i)%Z || (i <? 5)%Z then rmul_opt (-0.44) q_rated else Ok 0);
      tl' ← vv_loop q_rated (i + 1) tl;
      Ok (<["Q"%string := Some q]> step_dict :: tl')
  end.

(** The loop of the [WV] branch, with its counter [i]. *)
Fixpoint wv_loop (q_rated : option Q) (i : Z) (l : list (gmap string (option Q)))
  : result (list (gmap string (option Q))) :=
  match l with
  | [] => Ok []
  | step_dict :: tl =>
      q ← (if (i =? 5)%Z || (i <? 7)%Z then rmul_opt 0.05 q_rated else Ok 0);
      tl' ← wv_loop q_rated (i + 1) tl;
      Ok (<["Q"%string := Some q]> step_dict :: tl')
  end.

(** [create_pri_dict_steps(function)]. *)
Definition create_pri_dict_steps (self : EutParameters.t) (function : string)
  : result (list (gmap string (option Q))) :=
  let q_rated := var_rated self in
  if String.eqb function VV then vv_loop q_rated 0 (step_dicts self)
  else if String.eqb function CPF then
    Ok (map (fun step_dict => <["PF"%string := Some 0.9]> step_dict) (step_dicts self))
  else if String.eqb function CRP then
    Ok (map (fun step_dict => <["Q"%string := q_rated]> step_dict) (step_dicts self))
  else if String.eqb function WV then wv_loop q_rated 0 (step_dicts self)
  else Ok (step_dicts self).

End Prioritization.

(** ** The time-response store, its verdicts and the result summary *)

Module TimeResponse.

(** An integer under the conversions [%d] and [%s]. *)
Definition str_int (z : Z) : string := pretty.pretty z.

(** What [tr_value] holds under a key: [None], a number, or a string such
    as ['Pass']. *)
Inductive value : Type :=
  | VNone
  | VNum (q : Q)
  | VStr (s : string).

(** The attributes read by the summary and by the accuracy criterion.
    [y_criteria] is the dictionary in insertion order; [FIRST_ITER] and
    [LAST_ITER] are the integers that [record_timeresponse] stores in
    [tr_value] under these keys, [None] when the key is absent. *)
Record t : Type := mk {
  x_criteria : list string;
  y_criteria : list (string * string);
  meas_values : list string;
  criteria_mode : bool * bool * bool;
  FIRST_ITER : option Z;
  LAST_ITER : option Z;
  tr_value : gmap string value;
  current_step_label : option string;
  filename : option string
}.

(** The columns of one measured value in [set_sc_points]. *)
Definition sc_columns (xs ys : list string) (meas_value : string) : list string :=
  (if bool_decide (meas_value ∈ xs) then [meas_value +:+ "_TARGET"]
   else if bool_decide (meas_value ∈ ys) then
     [meas_value +:+ "_TARGET"; meas_value +:+ "_TARGET_MIN";
      meas_value +:+ "_TARGET_MAX"]
   else [])
  ++ [meas_value +:+ "_MEAS"].

(** [set_sc_points()]: the list stored in [sc_points['sc']]. *)
Definition set_sc_points (self : t) : list string :=
  let xs := x_criteria self in
  let ys := (y_criteria self).*1 in
  flat_map (sc_columns xs ys) (meas_values self) ++ ["event"].

(** The columns of one measured value in [set_result_summary_name]. *)
Definition name_columns (xs ys : list string) (meas_value : string) : list string :=
  [meas_value +:+ "_MEAS"]
  ++ (if bool_decide (meas_value ∈ xs) then [meas_value +:+ "_TARGET"]
      else if bool_decide (meas_value ∈ ys) then
        [meas_value +:+ "_TARGET"; meas_value +:+ "_TARGET_MIN";
         meas_value +:+ "_TARGET_MAX"]
      else []).

(** The list [row_data] of [set_result_summary_name]. *)
Definition summary_names (self : t) : list string :=
  let xs := x_criteria self in
  let ys := (y_criteria self).*1 in
  let '(m0, m1, m2) := criteria_mode self in
  (if m0 then ["90%_BY_TR=1"] else [])
  ++ (if m1 then ["WITHIN_BOUNDS_BY_TR=1"] else [])
  ++ (if m2 then ["WITHIN_BOUNDS_BY_LAST_TR"] else [])
  ++ flat_map (name_columns xs ys) (meas_values self)
  ++ ["STEP"; "FILENAME"].

Definition newline : string := String "010" EmptyString.

(** [set_result_summary_name()]: the value of [rslt_sum_col_name]. *)
Definition set_result_summary_name (self : t) : string :=
  String.concat "," (summary_names self) +:+ newline.

(** A result, an exception of [result], or [IndexError]. *)
Inductive outcome (A : Type) : Type :=
  | Returns (a : A)
  | Raises (e : PyExc)
  | RaisesIndexError.

Arguments Returns {A} a.
Arguments Raises {A} e.
Arguments RaisesIndexError {A}.

#[global] Instance outcome_bind : MBind outcome := fun _ _ f m =>
  match m with
  | Returns a => f a
  | Raises e => Raises e
  | RaisesIndexError => RaisesIndexError
  end.

Definition lift {A} (r : result A) : outcome A :=
  match r with Ok a => Returns a | Raise e => Raises e end.

(** [self.tr_value['FIRST_ITER']] and [self.tr_value['LAST_ITER']]. *)
Definition iter_item (o : option Z) : result Z :=
  match o with Some z => Ok z | None => Raise KeyError end.

(** [str(v)]; [str_float] prints a number. *)
Definition py_str (str_float : Q -> string) (v : value) : string :=
  match v with
  | VNone => "None"
  | VNum q => str_float q
  | VStr s => s
  end.

(** [round(v, ndigits)]. *)
Definition round_value (v : value) (ndigits : N) : result value :=
  match v with
  | VNum q => Ok (VNum (py_round q ndigits))
  | _ => Raise TypeError
  end.

(** [ys[-1]]. *)
Definition last_item (ys : list string) : outcome string :=
  match last ys with Some y => Returns y | None => RaisesIndexError end.

(** The cells of one measured value in [write_rslt_sum]. *)
Definition row_cells (str_float : Q -> string) (d : gmap string value)
    (xs ys : list string) (last_iter : Z) (meas_value : string)
  : result (list string) :=
  v ← getitem d (meas_value +:+ "_TR_" +:+ str_int last_iter);
  cx ← (if bool_decide (meas_value ∈ xs) then
          t ← getitem d (meas_value +:+ "_TR_TARG_" +:+ str_int last_iter);
          Ok [py_str str_float t]
        else Ok []);
  cy ← (if bool_decide (meas_value ∈ ys) then
          t ← getitem d (meas_value +:+ "_TR_TARG_" +:+ str_int last_iter);
          t' ← round_value t 3;
          mn ← getitem d (meas_value +:+ "_TR_" +:+ str_int last_iter +:+ "_MIN");
          mn' ← round_value mn 3;
          mx ← getitem d (meas_value +:+ "_TR_" +:+ str_int last_iter +:+ "_MAX");
          mx' ← round_value mx 3;
          Ok [py_str str_float t'; py_str str_float mn'; py_str str_float mx']
        else Ok []);
  Ok ([py_str str_float v] ++ cx ++ cy).

(** The loop over [meas_values]. *)
Fixpoint row_loop (str_float : Q -> string) (d : gmap string value)
    (xs ys : list string) (last_iter : Z) (l : list string)
  : result (list string) :=
  match l with
  | [] => Ok []
  | meas_value :: tl =>
      c ← row_cells str_float d xs ys last_iter meas_value;
      r ← row_loop str_float d xs ys last_iter tl;
      Ok (c ++ r)
  end.

(** The list [row_data] of [write_rslt_sum], checked as [join] checks it:
    a step label [None] raises [TypeError] there. *)
Definition row_data (str_float : Q -> string) (self : t) : outcome (list string) :=
  let xs := x_criteria self in
  let ys := (y_criteria self).*1 in
  let d := tr_value self in
  first_iter ← lift (iter_item (FIRST_ITER self));
  last_iter ← lift (iter_item (LAST_ITER self));
  let '(m0, m1, m2) := criteria_mode self in
  c0 ← (if m0 then
          v ← lift (getitem d "TR_90_%_PF"); Returns [py_str str_float v]
        else Returns []);
  c1 ← (if m1 then
          y ← last_item ys;
          v ← lift (getitem d (y +:+ "_TR_" +:+ str_int first_iter +:+ "_PF"));
          Returns [py_str str_float v]
        else Returns []);
  c2 ← (if m2 then
          y ← last_item ys;
          v ← lift (getitem d (y +:+ "_TR_" +:+ str_int last_iter +:+ "_PF"));
          Returns [py_str str_float v]
        else Returns []);
  cells ← lift (row_loop str_float d xs ys last_iter (meas_values self));
  label ← match current_step_label self with
          | Some l => Returns l
          | None => Raises TypeError
          end;
  Returns (c0 ++ c1 ++ c2 ++ cells
           ++ [label; match filename self with Some f => f | None => "None" end]).

(** [write_rslt_sum()]. *)
Definition write_rslt_sum (str_float : Q -> string) (self : t) : outcome string :=
  r ← row_data str_float self;
  Returns (String.concat "," r +:+ newline).

(** [a <= b] on stored values. *)
Definition le_value (a b : value) : result bool :=
  match a, b with
  | VNum x, VNum y => Ok (Qle_bool x y)
  | VStr s, VStr u => Ok (String.leb s u)
  | _, _ => Raise TypeError
  end.

(** A value under the conversion [%0.1f]. *)
Definition format_f (v : value) : result unit :=
  match v with VNum _ => Ok tt | _ => Raise TypeError end.

(** The assessment of one criterion at one iteration, with the log line
    that follows it. *)
Definition assess (d : gmap string value) (y : string) (tr_iter : Z)
  : result (gmap string value) :=
  let k := y +:+ "_TR_" +:+ str_int tr_iter in
  mn ← getitem d (k +:+ "_MIN");
  v ← getitem d k;
  b1 ← le_value mn v;
  b ← (if b1 : bool then mx ← getitem d (k +:+ "_MAX"); le_value v mx
       else Ok false);
  let d' := <[k +:+ "_PF" := VStr (if b : bool then "Pass" else "Fail")]> d in
  mn' ← getitem d' (k +:+ "_MIN");
  v' ← getitem d' k;
  mx' ← getitem d' (k +:+ "_MAX");
  _ ← getitem d' (k +:+ "_PF");
  _ ← format_f mn';
  _ ← format_f v';
  _ ← format_f mx';
  Ok d'.

(** The loop over [range(FIRST_ITER, LAST_ITER + 1)]. *)
Fixpoint iter_loop (m1 m2 : bool) (first_iter last_iter : Z)
    (y : string) (iters : list Z) (d : gmap string value)
  : result (gmap string value) :=
  match iters with
  | [] => Ok d
  | tr_iter :: tl =>
      d' ← (if (first_iter =? tr_iter)%Z && m1 || (last_iter =? tr_iter)%Z && m2
            then assess d y tr_iter else Ok d);
      iter_loop m1 m2 first_iter last_iter y tl d'
  end.

(** The loop over [y_criteria]. *)
Fixpoint criteria_loop (self : t) (ys : list string) (d : gmap string value)
  : result (gmap string value) :=
  match ys with
  | [] => Ok d
  | y :: tl =>
      first_iter ← iter_item (FIRST_ITER self);
      last_iter ← iter_item (LAST_ITER self);
      let '(_, m1, m2) := criteria_mode self in
      d' ← iter_loop m1 m2 first_iter last_iter y
             (Z_upto first_iter (Z.to_nat (last_iter + 1 - first_iter))) d;
      criteria_loop self tl d'
  end.

(** [result_accuracy_criteria()]: [tr_value] as the call leaves it. *)
Definition result_accuracy_criteria (self : t) : result (gmap string value) :=
  criteria_loop self (y_criteria self).*1 (tr_value self).

End TimeResponse.

(** ** The construction of the test object *)

Module ActiveFunctionInit.

Definition IOP : string := "IOP".
Definition UI : string := "UI".

(** [d.update({k: v})] on a dictionary in insertion order. *)
Fixpoint update (d : list (string * string)) (k v : string) : list (string * string) :=
  match d with
  | [] => [(k, v)]
  | (k', v') :: tl =>
      if String.eqb k' k then (k, v) :: tl else (k', v') :: update tl k v
  end.

(** [list(OrderedDict.fromkeys(l))]: the first occurrences, in order. *)
Definition fromkeys (l : list string) : list string :=
  foldl (fun keys x => if bool_decide (x ∈ keys) then keys else keys ++ [x]) [] l.

(** The state that [__init__] threads through its branches.  The local
    list [x_criterias] is [local] until the [PRI] branch binds the name to
    the class attribute [Prioritization.x_criteria]; from then on
    ([aliased]) it is that list, [pri_x], and [+=] extends the class
    attribute in place. *)
Record state : Type := mk_state {
  st_param : gmap string (gmap Z (gmap string Q));
  local : list string;
  aliased : bool;
  pri_x : list string;
  st_y_criteria : list (string * string);
  st_criteria_mode : bool * bool * bool
}.

(** [x_criterias]. *)
Definition x_criterias (s : state) : list string :=
  if aliased s then pri_x s else local s.

(** [x_criterias += l]. *)
Definition extend (l : list string) (s : state) : state :=
  if aliased s
  then mk_state (st_param s) (local s) true (pri_x s ++ l)
         (st_y_criteria s) (st_criteria_mode s)
  else mk_state (st_param s) (local s ++ l) false (pri_x s)
         (st_y_criteria s) (st_criteria_mode s).

(** [self.y_criteria.update({k: v})]. *)
Definition y_update (k v : string) (s : state) : state :=
  mk_state (st_param s) (local s) (aliased s) (pri_x s)
    (update (st_y_criteria s) k v) (st_criteria_mode s).

Definition with_param (p : gmap string (gmap Z (gmap string Q))) (s : state) : state :=
  mk_state p (local s) (aliased s) (pri_x s) (st_y_criteria s) (st_criteria_mode s).

(** What [__init__] leaves: the curve tables, the criteria, the measured
    values, the criteria mode, and the class attribute
    [Prioritization.x_criteria]. *)
Record t : Type := mk {
  param : gmap string (gmap Z (gmap string Q));
  x_criteria : list string;
  y_criteria : list (string * string);
  meas_values : list string;
  criteria_mode : bool * bool * bool;
  Prioritization_x_criteria : list string
}.

(** The branches of [__init__], one for each [if X in functions:], in the
    order of the source; [has] is the membership test. *)
Definition branch_VW (e : EutParameters.t) (has : string -> bool) (s : state) : state :=
  if has VW then
    y_update "P" VW (extend ["V"%string]
      (with_param (VoltWatt.set_params e (st_param s)) s))
  else s.

Definition branch_VV (e : EutParameters.t) (has : string -> bool) (s : state)
  : result state :=
  if has VV then
    p ← VoltVar.set_params e (st_param s);
    Ok (y_update "Q" VV (extend ["V"%string] (with_param p s)))
  else Ok s.

Definition branch_CPF (has : string -> bool) (s : state) : state :=
  if has CPF then y_update "Q" CPF (extend ["V"; "P"]%string s) else s.

Definition branch_CRP (has : string -> bool) (s : state) : state :=
  if has CRP then y_update "Q" CRP (extend ["V"%string] s) else s.

Definition branch_WV (e : EutParameters.t) (absorb_is_yes : bool)
    (has : string -> bool) (s : state) : state :=
  if has WV then
    y_update "Q" WV (extend ["P"%string]
      (with_param (WattVar.set_params e absorb_is_yes (st_param s)) s))
  else s.

Definition branch_FW (e : EutParameters.t)
    (fw : option Q * option Q * option Q * option Q)
    (has : string -> bool) (s : state) : state :=
  if has FW then
    let '(p_small, tr1, tr2, tr3) := fw in
    y_update "P" FW (extend ["F"%string]
      (with_param (FrequencyWatt.set_params e p_small tr1 tr2 tr3 (st_param s)) s))
  else s.

(** The [LAP] branch takes the criteria of [FrequencyWatt]. *)
Definition branch_LAP (has : string -> bool) (s : state) : state :=
  if has LAP then y_update "P" FW (extend ["F"%string] s) else s.

(** The [PRI] branch assigns: [x_criterias = Prioritization.x_criteria]. *)
Definition branch_PRI (has : string -> bool) (s : state) : state :=
  if has PRI then
    y_update "P" PRI (y_update "Q" PRI
      (mk_state (st_param s) (local s) true (pri_x s)
         (st_y_criteria s) (st_criteria_mode s)))
  else s.

(** The initialiser of [Interoperability] empties [self.param] and calls
    [self.set_params()], which on this class is [VoltWatt.set_params]; it
    also sets the criteria mode. *)
Definition branch_IOP (e : EutParameters.t) (has : string -> bool) (s : state) : state :=
  if has IOP then
    y_update "P" IOP (extend ["V"%string]
      (mk_state (VoltWatt.set_params e ∅) (local s) (aliased s) (pri_x s)
         (st_y_criteria s) (true, true, true)))
  else s.

Definition branch_UI (has : string -> bool) (s : state) : state :=
  if has UI then y_update "P" UI (extend ["V"%string] s) else s.

(** The end of [__init__]: duplicates are removed. *)
Definition finish (s : state) : t :=
  mk (st_param s)
     (fromkeys (x_criterias s))
     (st_y_criteria s)
     (fromkeys (x_criterias s ++ (st_y_criteria s).*1))
     (st_criteria_mode s)
     (pri_x s).

(** [ActiveFunction.__init__(ts, script_name, functions, criteria_mode)]
    for a unit with the ratings [e], that is, a unit whose [v_nom],
    [s_rated], [p_rated], [p_min] and [f_nom] are configured numbers;
    where the host leaves one of them unset the initialisers fail before
    anything modelled here ([EutParameters.__init__] on [v_nom] and
    [s_rated], [VoltWatt.set_params] and [WattVar.set_params] on [p_rated]
    and [p_min], [FrequencyWatt.set_params] on [f_nom]), and this model
    does not cover such a unit.  [criteria_mode'] is the list of the three
    modes.  [absorb_is_yes] is the outcome of the identity test of
    [WattVar.set_params], [fw] the host parameters of
    [FrequencyWatt.set_params], [pri] the class attribute
    [Prioritization.x_criteria] before the call. *)
Definition init (e : EutParameters.t) (absorb_is_yes : bool)
    (fw : option Q * option Q * option Q * option Q)
    (functions : list string) (criteria_mode' : bool * bool * bool)
    (pri : list string) : result t :=
  let has (f : string) : bool := bool_decide (f ∈ functions) in
  s ← branch_VV e has
        (branch_VW e has (mk_state ∅ [] false pri [] criteria_mode'));
  Ok (finish
        (branch_UI has
           (branch_IOP e has
              (branch_PRI has
                 (branch_LAP has
                    (branch_FW e fw has
                       (branch_WV e absorb_is_yes has
                          (branch_CRP has (branch_CPF has s))))))))).

End ActiveFunctionInit.

(** ** Further statements *)

(** The example run with the Watt-Var table added (the unit does not
    absorb active power). *)
Definition curves_10kW_wv : gmap string (gmap Z (gmap string Q)) :=
  WattVar.set_params eut_10kW false curves_10kW.

Definition run_10kW_wv (pwr : Q) (v f p : Q) : ActiveFunction.t :=
  ActiveFunction.mk eut_10kW pwr 100 1 curves_10kW_wv None None (readings v f p).

(** A Volt-Var curve with every break-point present, its voltages in
    ascending and its reactive powers in descending order. *)
Definition descending_curve (c : gmap string Q) : Prop :=
  exists v1 v2 v3 v4 q1 q2 q3 q4 : Q,
    getitem c "V1"%string = Ok v1 /\ getitem c "V2"%string = Ok v2
    /\ getitem c "V3"%string = Ok v3 /\ getitem c "V4"%string = Ok v4
    /\ getitem c "Q1"%string = Ok q1 /\ getitem c "Q2"%string = Ok q2
    /\ getitem c "Q3"%string = Ok q3 /\ getitem c "Q4"%string = Ok q4
    /\ v1 <= v2 /\ v2 <= v3 /\ v3 <= v4
    /\ q4 <= q3 /\ q3 <= q2 /\ q2 <= q1.

(** The time a voltage ride-through sequence takes after start-up, in
    seconds: the sum of the minimum durations of its conditions. *)
Definition vrt_duration (m : VoltageRideThrough.mode) (consecutive : bool) : Q :=
  match m, consecutive with
  | VoltageRideThrough.LV_CAT_2, false => 135
  | VoltageRideThrough.LV_CAT_2, true => 288
  | VoltageRideThrough.LV_CAT_3, false => 145
  | VoltageRideThrough.LV_CAT_3, true => 340
  | VoltageRideThrough.HV_CAT_2, false => 131
  | VoltageRideThrough.HV_CAT_2, true => 142
  | VoltageRideThrough.HV_CAT_3, false => 137
  | VoltageRideThrough.HV_CAT_3, true => 308
  end.

(** The band of residual voltages, in per unit, on each side. *)
Definition vrt_band (m : VoltageRideThrough.mode) : Q * Q :=
  match m with
  | VoltageRideThrough.LV_CAT_2 | VoltageRideThrough.LV_CAT_3 => (0, 1)
  | VoltageRideThrough.HV_CAT_2 | VoltageRideThrough.HV_CAT_3 => (1, 1.2)
  end.

(** What the loop of the voltage sequences leaves in a step. *)
Definition limited (lo hi : Q) (ndigits : N) (x : Q) : Q :=
  if Qlt_le_dec hi x then hi
  else if Qlt_le_dec x lo then lo
  else py_round x ndigits.

(** Sample points in ascending order with values in descending order,
    from the point [(x0, y0)] on. *)
Fixpoint descending_from (x0 y0 : Q) (rest : list (Q * Q)) : Prop :=
  match rest with
  | [] => True
  | (x1, y1) :: tl => x0 <= x1 /\ y1 <= y0 /\ descending_from x1 y1 tl
  end.

(** The measured values that are both a step value and a criterion. *)
Definition both_criteria (self : TimeResponse.t) : list string :=
  List.filter
    (fun m => bool_decide (m ∈ TimeResponse.x_criteria self)
              && bool_decide (m ∈ (TimeResponse.y_criteria self).*1))
    (TimeResponse.meas_values self).

(** The number of criteria modes that are enabled. *)
Definition enabled_modes (self : TimeResponse.t) : nat :=
  let '(m0, m1, m2) := TimeResponse.criteria_mode self in
  (Nat.b2n m0 + Nat.b2n m1 + Nat.b2n m2)%nat.

(** A Volt-Var step after two time responses, with its values stored. *)
Definition volt_var_store : TimeResponse.t :=
  TimeResponse.mk ["V"%string] [("Q"%string, VV)] ["V"%string; "Q"%string]
    (true, true, true) (Some 1%Z) (Some 2%Z)
    (list_to_map
       [ ("TR_90_%_PF"%string, TimeResponse.VStr "Pass");
         ("V_TR_2"%string, TimeResponse.VNum 254.4);
         ("V_TR_TARG_2"%string, TimeResponse.VNum 254.4);
         ("Q_TR_1"%string, TimeResponse.VNum (-1900));
         ("Q_TR_1_MIN"%string, TimeResponse.VNum (-2500));
         ("Q_TR_1_MAX"%string, TimeResponse.VNum (-1500));
         ("Q_TR_2"%string, TimeResponse.VNum (-1400));
         ("Q_TR_TARG_2"%string, TimeResponse.VNum (-2000));
         ("Q_TR_2_MIN"%string, TimeResponse.VNum (-2500));
         ("Q_TR_2_MAX"%string, TimeResponse.VNum (-1500)) ])
    (Some "Step G"%string) None.

(** The same store after the accuracy criterion has run. *)
Definition volt_var_assessed : TimeResponse.t :=
  match TimeResponse.result_accuracy_criteria volt_var_store with
  | Ok d =>
      TimeResponse.mk ["V"%string] [("Q"%string, VV)] ["V"%string; "Q"%string]
        (true, true, true) (Some 1%Z) (Some 2%Z) d (Some "Step G"%string) None
  | Raise _ => volt_var_store
  end.

(** A printer of numbers for the examples: numerator and denominator. *)
Definition str_fraction (q : Q) : string :=
  TimeResponse.str_int (Qnum q) +:+ "/" +:+ TimeResponse.str_int (Zpos (Qden q)).

(** The iterations that the accuracy criterion assesses: the first one
    when the second criteria mode is on, the last one when the third is,
    provided the range from [a] to [b] is not empty. *)
Definition assessed (self : TimeResponse.t) (a b i : Z) : Prop :=
  (a <= b)%Z
  /\ ((i = a /\ (TimeResponse.criteria_mode self).1.2 = true)
      \/ (i = b /\ (TimeResponse.criteria_mode self).2 = true)).

(** The verdict for a reading [v] and the bounds [mn] and [mx]. *)
Definition verdict (mn v mx : Q) : string :=
  if Qle_bool mn v && Qle_bool v mx then "Pass" else "Fail".

(** What holds of every character of a printed integer. *)
Definition numeric (c : ascii) : Prop := c <> "_"%char /\ c <> "F"%char.

(** The store [d] with the verdicts of the pairs [(y, i)] written in this
    order; [num y i] gives the lower bound, the reading and the upper
    bound of the pair. *)
Definition store_verdicts (num : string -> Z -> Q * Q * Q)
    (d : gmap string TimeResponse.value) (pairs : list (string * Z))
  : gmap string TimeResponse.value :=
  foldl (fun d p =>
           <[(p.1 +:+ "_TR_" +:+ TimeResponse.str_int p.2) +:+ "_PF"
             := TimeResponse.VStr
                  (let '(mn, v, mx) := num p.1 p.2 in verdict mn v mx)]> d)
    d pairs.

(** The bounds and readings of the Volt-Var store. *)
Definition volt_var_numbers (y : string) (i : Z) : Q * Q * Q :=
  if (i =? 1)%Z then (-2500, -1900, -1500) else (-2500, -1400, -1500).

(** * Properties *)

(** ** Tools *)

Ltac qlra := Lqa.lra.
Ltac rlra := Lra.lra.

Lemma list_to_map_assoc {A} (l : list (string * A)) (k : string) :
  (list_to_map l : gmap string A) !! k = assoc l k.
Proof.
  induction l as [|[k' v] tl IH]; cbn [assoc].
  - apply lookup_empty.
  - cbn [list_to_map foldr uncurry].
    destruct (String.eqb_spec k' k) as [->|Hne].
    + apply lookup_insert_eq.
    + rewrite lookup_insert_ne by exact Hne. exact IH.
Qed.

Lemma getitem_list_to_map {A} (l : list (string * A)) (k : string) :
  getitem (list_to_map l) k
  = match assoc l k with Some a => Ok a | None => Raise KeyError end.
Proof. unfold getitem. now rewrite list_to_map_assoc. Qed.

Ltac dict_lookup :=
  rewrite ?getitem_list_to_map;
  cbn [assoc String.eqb Ascii.eqb Bool.eqb mbind result_bind
       RideThrough.append_all andb].


Lemma Z_upto_In (n : nat) :
  forall lo z, (lo <= z < lo + Z.of_nat n)%Z -> In z (Z_upto lo n).
Proof.
  induction n as [|n IH]; intros lo z Hz; simpl.
  - lia.
  - destruct (Z.eq_dec lo z) as [->|Hne]; [now left|right].
    apply IH. lia.
Qed.

Lemma Z_interval_forallb (P : Z -> bool) (lo : Z) (n : nat) :
  forallb P (Z_upto lo n) = true ->
  forall z, (lo <= z < lo + Z.of_nat n)%Z -> P z = true.
Proof.
  intros Hall z Hz. rewrite forallb_forall in Hall.
  apply Hall, Z_upto_In, Hz.
Qed.

(** ** The step label generator (C4) *)

Section StepLabels.
Import UtilParameters.
#[local] Open Scope Z_scope.

Lemma chr_ascii (n : Z) : 0 <= n < 128 -> chr n = Ok (chr1 n).
Proof.
  intros Hn. unfold chr.
  destruct (Z.leb_spec 0 n); [|lia].
  destruct (Z.ltb_spec n 128); [reflexivity|lia].
Qed.

Lemma ord_chr1 (n : Z) : 0 <= n < 256 -> ord (chr1 n) = Ok n.
Proof.
  intros Hn. unfold ord, chr1.
  rewrite N_ascii_embedding by lia.
  now rewrite Z2N.id by lia.
Qed.

(** One call from the closed-form state yields the closed-form label and
    the next closed-form state. *)
Lemma get_step_label_at (c : Z) (k : nat) :
  65 <= c <= 90 ->
  get_step_label (state_at c k) = Ok (label_at c k, state_at c (S k)).
Proof.
  intros Hc. unfold state_at, label_at.
  replace (c + Z.of_nat (S k)) with (c + Z.of_nat k + 1) by lia.
  set (i := c + Z.of_nat k).
  assert (Hi : 65 <= i) by (unfold i; lia).
  destruct (Z.leb_spec i 91) as [H91|H91].
  - (* still in, or just leaving, the single-letter phase *)
    unfold get_step_label; cbn [step_label double_letter_label].
    destruct (Z.ltb_spec 90 i) as [H90|H90].
    + assert (i = 91) as -> by lia. reflexivity.
    + cbn [step_label double_letter_label].
      rewrite chr_ascii by lia. cbn.
      destruct (Z.leb_spec i 90); [|lia].
      destruct (Z.leb_spec (i + 1) 91); [reflexivity|lia].
  - (* double-letter phase *)
    destruct (Z.leb_spec i 90); [lia|].
    destruct (Z.leb_spec (i + 1) 91); [lia|].
    assert (Hm := Z.mod_pos_bound (i - 92) 26 eq_refl).
    set (m := (i - 92) mod 26) in *.
    unfold get_step_label; cbn [step_label double_letter_label].
    destruct (Z.ltb_spec 90 (66 + m)) as [H90|H90].
    + assert (m = 25) as Hm25 by lia.
      assert ((i - 91) mod 26 = 0) as ->
        by (unfold m in Hm25; Z.div_mod_to_equations; lia).
      assert ((i + 1 - 92) mod 26 = 0) as ->
        by (unfold m in Hm25; Z.div_mod_to_equations; lia).
      reflexivity.
    + cbn [step_label double_letter_label].
      rewrite chr_ascii by lia. cbn.
      assert ((i - 91) mod 26 = m + 1) as ->
        by (unfold m in *; Z.div_mod_to_equations; lia).
      assert ((i + 1 - 92) mod 26 = m + 1) as ->
        by (unfold m in *; Z.div_mod_to_equations; lia).
      replace (65 + (m + 1)) with (66 + m) by lia.
      replace (66 + (m + 1)) with (66 + m + 1) by lia.
      reflexivity.
Qed.

Lemma get_step_labels_at (c : Z) (n : nat) :
  65 <= c <= 90 ->
  forall k, get_step_labels n (state_at c k)
            = Ok (map (label_at c) (seq k n), state_at c (k + n)).
Proof.
  intros Hc. induction n as [|n IH]; intros k; cbn [get_step_labels seq map].
  - now rewrite Nat.add_0_r.
  - rewrite get_step_label_at by exact Hc. cbn.
    rewrite IH. cbn. now rewrite Nat.add_succ_r.
Qed.

(** The labels handed out before the generator wraps are pairwise
    distinct, for every capital start letter. *)
Lemma labels_before_wrap_NoDup (c : Z) :
  65 <= c <= 90 ->
  NoDup (map (label_at c) (seq 0 (Z.to_nat (91 - c) + 26))).
Proof.
  intros Hc.
  pose (P := fun c : Z =>
    bool_decide (NoDup (map (label_at c) (seq 0 (Z.to_nat (91 - c) + 26))))).
  assert (HP : P c = true).
  { apply (Z_interval_forallb P 65 26); [vm_compute; reflexivity | lia]. }
  unfold P in HP. now apply bool_decide_eq_true in HP.
Qed.

End StepLabels.

(** C4 (as amended).  Started at a capital letter of code [c], the
    generator hands out the single letters up to ['Z'], then the doubled
    letters ['AA'], ['BB'], ... in a cycle of 26: call number [k] returns
    [label_at c k].  The labels before the cycle wraps (the remaining single
    letters and the 26 doubled ones) are pairwise distinct; the first
    doubled label is ["Step AA"], and 26 calls later ["Step AA"] is handed
    out again. *)
Theorem C4_step_labels_until_wrap (c : Z) :
  (65 <= c <= 90)%Z ->
  UtilParameters.set_step_label (Some (UtilParameters.chr1 c)) UtilParameters.init
    = Ok (UtilParameters.state_at c 0)
  /\ (forall n : nat,
        UtilParameters.get_step_labels n (UtilParameters.state_at c 0)
        = Ok (map (UtilParameters.label_at c) (seq 0 n), UtilParameters.state_at c n))
  /\ NoDup (map (UtilParameters.label_at c) (seq 0 (Z.to_nat (91 - c) + 26)))
  /\ UtilParameters.label_at c (Z.to_nat (91 - c)) = "Step AA"%string
  /\ UtilParameters.label_at c (Z.to_nat (91 - c) + 26) = "Step AA"%string.
Proof.
  intros Hc. repeat split.
  - unfold UtilParameters.set_step_label, default.
    cbn [from_option id Datatypes.id].
    rewrite ord_chr1 by lia. cbn.
    unfold UtilParameters.state_at.
    replace (c + Z.of_nat 0)%Z with c by lia.
    destruct (Z.leb_spec c 91); [reflexivity|lia].
  - intros n. now rewrite get_step_labels_at.
  - now apply labels_before_wrap_NoDup.
  - unfold UtilParameters.label_at.
    replace (c + Z.of_nat (Z.to_nat (91 - c)))%Z with 91%Z by lia.
    reflexivity.
  - unfold UtilParameters.label_at.
    replace (c + Z.of_nat (Z.to_nat (91 - c) + 26))%Z with 117%Z by lia.
    reflexivity.
Qed.

(** C4, an instance: started at ['A'], the calls return the 26 single
    letters, then ["Step AA"], ["Step BB"], ... *)
Lemma C4_step_labels_from_A :
  UtilParameters.set_step_label (Some (UtilParameters.chr1 65)) UtilParameters.init
    = Ok (UtilParameters.state_at 65 0)
  /\ (forall n : nat,
        UtilParameters.get_step_labels n (UtilParameters.state_at 65 0)
        = Ok (map (UtilParameters.label_at 65) (seq 0 n), UtilParameters.state_at 65 n))
  /\ NoDup (map (UtilParameters.label_at 65) (seq 0 (Z.to_nat (91 - 65) + 26)))
  /\ UtilParameters.label_at 65 (Z.to_nat (91 - 65)) = "Step AA"%string
  /\ UtilParameters.label_at 65 (Z.to_nat (91 - 65) + 26) = "Step AA"%string.
Proof.
  apply (C4_step_labels_until_wrap 65). lia.
Defined.

(** C4, the claim as stated fails: started at ['A'], the 27th and the 53rd
    call both return ["Step AA"], so 53 calls do not yield distinct labels. *)
Lemma C4_label_repeats_after_52_calls :
  exists s0 l s',
    UtilParameters.set_step_label (Some "A"%string) UtilParameters.init = Ok s0
    /\ UtilParameters.get_step_labels 53 s0 = Ok (l, s')
    /\ nth_error l 26 = Some "Step AA"%string
    /\ nth_error l 52 = Some "Step AA"%string
    /\ ~ NoDup l.
Proof.
  eexists. eexists. eexists.
  split; [reflexivity|].
  split; [vm_compute; reflexivity|].
  split; [reflexivity|].
  split; [reflexivity|].
  intros Hnd.
  apply (bool_decide_eq_true_2 _) in Hnd.
  vm_compute in Hnd. discriminate Hnd.
Qed.

(** ** Ride-through sequences (C3, C10) *)

Section RideThroughProps.
Import RideThrough.


Lemma set_timing_loop (T0 : Q) (conds : list condition) :
  set_timing T0 conds = timing_loop T0 conds.
Proof. destruct conds; reflexivity. Qed.















End RideThroughProps.

Section VoltageSequences.
Import RideThrough VoltageRideThrough.



End VoltageSequences.

Section FrequencySequences.
Import RideThrough FrequencyRideThrough.

Lemma frt_conditions (p : params) (f_nom : Q) (current_mode : string) :
  contains LFRT current_mode = true \/ contains HFRT current_mode = true ->
  exists e g h,
    append_all (test_conditions p f_nom current_mode)
      ["Step E"; "Step G"; "Step H"]%string = Ok [e; g; h]
    /\ map min_duration [e; g; h] = [1; step_g_period p current_mode; 11].
Proof.
  intros Hmode. unfold test_conditions, step_g_period.
  destruct (contains LFRT current_mode).
  - dict_lookup. eexists _, _, _. split; reflexivity.
  - destruct Hmode as [Hm|Hm]; [discriminate|]. rewrite Hm.
    dict_lookup. eexists _, _, _. split; reflexivity.
Qed.

End FrequencySequences.

Section PhaseSequences.
Import RideThrough PhaseChangeRideThrough.


End PhaseSequences.








(** ** Targets and windows (C1, C2, C5, C8, C9) *)

Section Rounding.

Lemma round_half_even_bounds (q : Q) :
  (Qfloor q <= round_half_even q <= Qfloor q + 1)%Z.
Proof.
  unfold round_half_even.
  destruct (Qcompare _ _); [destruct (Z.even _)| |]; lia.
Qed.

Lemma round_half_even_mono (a b : Q) :
  a <= b -> (round_half_even a <= round_half_even b)%Z.
Proof.
  intros Hab.
  pose proof (Qfloor_resp_le _ _ Hab) as Hfl.
  destruct (Z.eq_dec (Qfloor a) (Qfloor b)) as [Heq|Hne].
  - unfold round_half_even. rewrite <- Heq.
    destruct (Qcompare (a - inject_Z (Qfloor a)) (1 # 2)) eqn:Ca;
      destruct (Qcompare (b - inject_Z (Qfloor a)) (1 # 2)) eqn:Cb;
      try (destruct (Z.even (Qfloor a))); try lia; exfalso;
      repeat match goal with
             | H : Qcompare _ _ = Eq |- _ => apply <- Qeq_alt in H
             | H : Qcompare _ _ = Lt |- _ => apply <- Qlt_alt in H
             | H : Qcompare _ _ = Gt |- _ => apply <- Qgt_alt in H
             end; qlra.
  - pose proof (round_half_even_bounds a). pose proof (round_half_even_bounds b). lia.
Qed.

Lemma py_round_mono (a b : Q) (n : N) : a <= b -> py_round a n <= py_round b n.
Proof.
  intros Hab. unfold py_round.
  assert (Hs : (0 < 10 ^ Z.of_N n)%Z) by (apply Z.pow_pos_nonneg; lia).
  unfold Qle. cbn [Qnum Qden].
  apply Z.mul_le_mono_nonneg_r; [lia|].
  apply round_half_even_mono.
  apply Qmult_le_compat_r; [exact Hab|].
  unfold Qle; cbn; lia.
Qed.

End Rounding.

Section Interp.

(** Between two sample points the interpolated value does not exceed an
    upper bound of the two dependent values. *)
Lemma segment_le (x x0 x1 y0 y1 hi : Q) :
  x0 <= x -> x < x1 -> y0 <= hi -> y1 <= hi ->
  (y1 - y0) / (x1 - x0) * (x - x0) + y0 <= hi.
Proof.
  intros H0 H1 Hy0 Hy1.
  assert (Hd : 0 < x1 - x0) by qlra.
  set (l := (x - x0) / (x1 - x0)).
  assert (Hl0 : 0 <= l).
  { unfold l. apply Qle_shift_div_l; [exact Hd|]. qlra. }
  assert (Hl1 : l <= 1).
  { unfold l. apply Qle_shift_div_r; [exact Hd|]. qlra. }
  assert (E : (y1 - y0) / (x1 - x0) * (x - x0) + y0 == hi - ((1 - l) * (hi - y0) + l * (hi - y1))).
  { unfold l. field. qlra. }
  rewrite E.
  assert (0 <= (1 - l) * (hi - y0)) by (apply Qmult_le_0_compat; qlra).
  assert (0 <= l * (hi - y1)) by (apply Qmult_le_0_compat; qlra).
  qlra.
Qed.

Lemma np_interp_2_le (x v1 v2 p1 p2 hi : Q) :
  p1 <= hi -> p2 <= hi ->
  exists y, np_interp x [v1; v2] [p1; p2] = Ok y /\ y <= hi.
Proof.
  intros H1 H2. unfold np_interp. cbn.
  eexists. split; [reflexivity|].
  destruct (Qlt_le_dec x v1); [exact H1|].
  destruct (Qlt_le_dec x v2); [|exact H2].
  destruct (Qeq_dec x v1); [exact H1|].
  now apply segment_le.
Qed.

End Interp.

Section Criteria.
Import EutParameters ActiveFunction CriteriaValidation.
Variable math_sqrt : Q -> Q.

#[local] Abbreviation utv := (update_target_value math_sqrt).
#[local] Abbreviation calc := (calculate_target_values math_sqrt).

Lemma MRA_V self : MRA self "V" = Ok (0.01 * v_nom (eut self)).
Proof. unfold MRA, EutParameters.MRA. now rewrite getitem_list_to_map. Qed.
Lemma MRA_P self : MRA self "P" = Ok (0.05 * s_rated (eut self)).
Proof. unfold MRA, EutParameters.MRA. now rewrite getitem_list_to_map. Qed.
Lemma MRA_F self : MRA self "F" = Ok 0.01.
Proof. unfold MRA, EutParameters.MRA. now rewrite getitem_list_to_map. Qed.













Ltac lap_branch :=
  unfold calculate_target_values;
  cbn [String.eqb Ascii.eqb Bool.eqb VV VW CPF CRP WV FW LAP PRI];
  repeat case_bool_decide; try congruence; cbn [orb mbind result_bind].



(** At Step F the branch evaluates the Watt-Var law, where its comment
    names Volt-Watt. *)
Lemma LAP_step_F self :
  current_step_label self = Some "Step F"%string ->
  calc self LAP = calc self WV.
Proof. intros Hl; lap_branch; reflexivity. Qed.



Lemma eqb_false_of_ne (a b : string) : a <> b -> String.eqb a b = false.
Proof. intros H. now apply String.eqb_neq. Qed.

(** A function name outside the eight constants: no branch applies. *)
Lemma unknown_function self (function : string) value sd :
  ~ In function [VV; VW; CPF; CRP; WV; FW; LAP; PRI] ->
  utv self function value sd = Ok None
  /\ calc self function = Raise UnboundLocalError.
Proof.
  intros Hf. cbn [In] in Hf.
  assert (H1 : String.eqb function VV = false) by (apply eqb_false_of_ne; intuition congruence).
  assert (H2 : String.eqb function VW = false) by (apply eqb_false_of_ne; intuition congruence).
  assert (H3 : String.eqb function CPF = false) by (apply eqb_false_of_ne; intuition congruence).
  assert (H4 : String.eqb function CRP = false) by (apply eqb_false_of_ne; intuition congruence).
  assert (H5 : String.eqb function WV = false) by (apply eqb_false_of_ne; intuition congruence).
  assert (H6 : String.eqb function FW = false) by (apply eqb_false_of_ne; intuition congruence).
  assert (H7 : String.eqb function LAP = false) by (apply eqb_false_of_ne; intuition congruence).
  assert (H8 : String.eqb PRI function = false)
    by (apply eqb_false_of_ne; intuition congruence).
  unfold update_target_value, calculate_target_values.
  rewrite H1, H2, H3, H4, H5, H6, H7, H8. split; reflexivity.
Qed.



(** The active curve of a function, looked up as the laws do. *)
Lemma get_params_inv self (function : string) (c : gmap string Q) :
  get_params self function = Ok c ->
  exists curves, getitem (param self) function = Ok curves
                 /\ getitem curves (curve self) = Ok c.
Proof.
  unfold get_params. intros H.
  destruct (getitem (param self) function) as [curves|]; [|discriminate].
  exists curves. split; [reflexivity|exact H].
Qed.

(** The Volt-Watt target is the one-decimal rounding of a power between
    [p_min * pwr] and [p_rated * pwr]. *)
Lemma VW_target_bounds self (v : Q) sd (c : gmap string Q) (v1 v2 p1 p2 : Q) :
  get_params self VW = Ok c ->
  getitem c "V1"%string = Ok v1 -> getitem c "V2"%string = Ok v2 ->
  getitem c "P1"%string = Ok p1 -> getitem c "P2"%string = Ok p2 ->
  p1 <= p_rated (eut self) -> p2 <= p_rated (eut self) ->
  p_min (eut self) <= p_rated (eut self) ->
  0 <= pwr self ->
  exists t, utv self VW (Some v) sd = Ok (Some t)
            /\ py_round (p_min (eut self) * pwr self) 1 <= t
            /\ t <= py_round (p_rated (eut self) * pwr self) 1.
Proof.
  intros Hc Hv1 Hv2 Hp1 Hp2 Hle1 Hle2 Hmin Hpwr.
  unfold update_target_value.
  cbn [String.eqb Ascii.eqb Bool.eqb VV VW CPF CRP WV FW LAP PRI].
  rewrite Hc. cbn [mbind result_bind].
  rewrite Hv1, Hv2, Hp1, Hp2. cbn [mbind result_bind value_or_step].
  destruct (np_interp_2_le v v1 v2 p1 p2 _ Hle1 Hle2) as (y & -> & Hy).
  cbn [mbind result_bind].
  eexists. split; [reflexivity|].
  destruct (Qlt_le_dec y (p_min (eut self))) as [Hlt|Hge].
  - split; apply py_round_mono.
    + apply Qle_refl.
    + now apply Qmult_le_compat_r.
  - split; apply py_round_mono; now apply Qmult_le_compat_r.
Qed.

Lemma p_db_le_pwr self : p_db self <= pwr self.
Proof.
  unfold p_db. destruct (Qlt_le_dec _ _) as [H|H]; [apply Qle_refl|].
  apply Qle_shift_div_r; [reflexivity|exact H].
Qed.

(** The Frequency-Watt target stays between [p_min] and [p_rated] when
    the dead-band set-point is not below [p_min] and the power level is at
    most 1. *)
Lemma FW_target_bounds self (v : Q) sd (c : gmap string Q) (dbf kof : Q) :
  get_params self FW = Ok c ->
  getitem c "dbf"%string = Ok dbf -> getitem c "kof"%string = Ok kof ->
  0 < f_nom (eut self) * kof ->
  0 <= p_rated (eut self) ->
  p_min (eut self) <= p_db self * p_rated (eut self) ->
  pwr self <= 1 ->
  exists t, utv self FW (Some v) sd = Ok (Some t)
            /\ p_min (eut self) <= t /\ t <= p_rated (eut self).
Proof.
  intros Hc Hdbf Hkof Hk Hpr Hmin Hpwr.
  destruct (get_params_inv _ _ _ Hc) as (curves & Hcs & Hcc).
  pose proof (p_db_le_pwr self) as Hdb.
  assert (Hdbr : p_db self * p_rated (eut self) <= p_rated (eut self)).
  { assert (0 <= (1 - p_db self) * p_rated (eut self))
      by (apply Qmult_le_0_compat; qlra).
    qlra. }
  assert (Havl : p_db self * p_rated (eut self) <= pwr self * p_rated (eut self))
    by (now apply Qmult_le_compat_r).
  assert (Havl1 : pwr self * p_rated (eut self) <= p_rated (eut self)).
  { assert (0 <= (1 - pwr self) * p_rated (eut self))
      by (apply Qmult_le_0_compat; qlra).
    qlra. }
  unfold update_target_value.
  cbn [String.eqb Ascii.eqb Bool.eqb VV VW CPF CRP WV FW LAP PRI].
  rewrite Hc. cbn [mbind result_bind]. rewrite Hdbf. cbn [mbind result_bind].
  fold (p_db self).
  destruct (Qle_bool _ v && Qle_bool v _) eqn:Hband.
  { eexists. split; [reflexivity|]. split; assumption. }
  assert (Hdiv : forall n, 0 <= n -> exists d,
             py_div n (f_nom (eut self) * kof) = Ok d /\ 0 <= d * p_rated (eut self)).
  { intros n Hn. unfold py_div.
    destruct (Qeq_dec _ 0) as [E|_]; [rewrite E in Hk; discriminate Hk|].
    eexists. split; [reflexivity|].
    apply Qmult_le_0_compat; [|exact Hpr].
    apply Qle_shift_div_l; [exact Hk|]. now rewrite Qmult_0_l. }
  destruct (Qlt_le_dec _ v) as [Hov|Hov].
  - rewrite Hcs. cbn [mbind result_bind]. rewrite Hcc. cbn [mbind result_bind].
    rewrite Hkof. cbn [mbind result_bind].
    destruct (Hdiv (v - (f_nom (eut self) + dbf))) as (d & -> & Hd); [qlra|].
    cbn [mbind result_bind]. eexists. split; [reflexivity|].
    assert (E : (p_db self - d) * p_rated (eut self)
                == p_db self * p_rated (eut self) - d * p_rated (eut self)) by ring.
    destruct (Qlt_le_dec _ (p_min (eut self))) as [Hcl|Hcl].
    + split; [apply Qle_refl|qlra].
    + split; [exact Hcl|]. rewrite E. qlra.
  - destruct (Qlt_le_dec v _) as [Hun|Hun].
    + rewrite Hcs. cbn [mbind result_bind]. rewrite Hcc. cbn [mbind result_bind].
      rewrite Hkof. cbn [mbind result_bind].
      destruct (Hdiv (f_nom (eut self) - dbf - v)) as (d & -> & Hd); [qlra|].
      cbn [mbind result_bind]. eexists. split; [reflexivity|].
      assert (E : (p_db self + d) * p_rated (eut self)
                  == p_db self * p_rated (eut self) + d * p_rated (eut self)) by ring.
      destruct (Qlt_le_dec _ _) as [Hcl|Hcl].
      * split; qlra.
      * split; [rewrite E; qlra|qlra].
    + exfalso. apply andb_false_iff in Hband.
      rewrite <- !not_true_iff_false, !Qle_bool_iff in Hband. tauto.
Qed.


Lemma getitem_insert_eq {K} `{Countable K} {A} (d : gmap K A) (k : K) (a : A) :
  getitem (<[k := a]> d) k = Ok a.
Proof. unfold getitem. now rewrite lookup_insert_eq. Qed.

Lemma getitem_insert_ne {K} `{Countable K} {A} (d : gmap K A) (k k' : K) (a : A) :
  k <> k' -> getitem (<[k := a]> d) k' = getitem d k'.
Proof. intros Hne. unfold getitem. now rewrite lookup_insert_ne. Qed.


(** C2 (as amended).  With a power level [pwr >= 0], curve powers
    [P1, P2 <= p_rated] and [p_min <= p_rated], the VW target is the
    one-decimal rounding of a power between [p_min * pwr] and
    [p_rated * pwr].  With [f_nom * kof > 0], [p_rated >= 0], a power level
    of at most 1 and a dead-band set-point [p_db * p_rated] that is not
    below [p_min], the FW target lies within [[p_min, p_rated]].  Neither
    law reads the absorption flag. *)
Theorem C2_VW_FW_target_bounds (self : ActiveFunction.t) (v : Q)
    (sd : option (gmap string Q)) :
  (forall (c : gmap string Q) (v1 v2 p1 p2 : Q),
      get_params self VW = Ok c ->
      getitem c "V1"%string = Ok v1 -> getitem c "V2"%string = Ok v2 ->
      getitem c "P1"%string = Ok p1 -> getitem c "P2"%string = Ok p2 ->
      p1 <= p_rated (eut self) -> p2 <= p_rated (eut self) ->
      p_min (eut self) <= p_rated (eut self) ->
      0 <= pwr self ->
      exists t, utv self VW (Some v) sd = Ok (Some t)
                /\ py_round (p_min (eut self) * pwr self) 1 <= t
                /\ t <= py_round (p_rated (eut self) * pwr self) 1)
  /\ (forall (c : gmap string Q) (dbf kof : Q),
      get_params self FW = Ok c ->
      getitem c "dbf"%string = Ok dbf -> getitem c "kof"%string = Ok kof ->
      0 < f_nom (eut self) * kof ->
      0 <= p_rated (eut self) ->
      p_min (eut self) <= p_db self * p_rated (eut self) ->
      pwr self <= 1 ->
      exists t, utv self FW (Some v) sd = Ok (Some t)
                /\ p_min (eut self) <= t /\ t <= p_rated (eut self)).
Proof.
  split.
  - intros c v1 v2 p1 p2. apply VW_target_bounds.
  - intros c dbf kof. apply FW_target_bounds.
Qed.

(** C8.  With [v_nom = 120] and [s_rated = 10000] (and a configured
    [var_rated], which the other two curves need), [VoltVar.set_params]
    gives curve 1 the break-points 110.4, 117.6, 122.4 and 129.6 V with
    [Q1 = 4400] and [Q4 = -4400], and at power level 1.0 the VV target is
    0 at 117.6 V and 4400 at 110.4 V. *)
Theorem C8_volt_var_curve_1
    (v_high v_low f_nom f_max f_min p_rated p_rated_prime p_min var_rated : Q)
    (absorb : option string) (param0 : gmap string (gmap Z (gmap string Q)))
    (max_pwr_lim : Q) (step_dict sd : option (gmap string Q))
    (label : option string) (meas : string -> result (option Q)) :
  let e := EutParameters.mk 120 10000 v_high v_low f_nom f_max f_min p_rated
             p_rated_prime p_min (Some var_rated) absorb in
  exists param c,
    VoltVar.set_params e param0 = Ok param
    /\ (curves ← getitem param VV; getitem curves 1%Z) = Ok c
    /\ has_value (getitem c "V1"%string) 110.4
    /\ has_value (getitem c "V2"%string) 117.6
    /\ has_value (getitem c "V3"%string) 122.4
    /\ has_value (getitem c "V4"%string) 129.6
    /\ has_value (getitem c "Q1"%string) 4400
    /\ has_value (getitem c "Q4"%string) (-4400)
    /\ returns (utv (ActiveFunction.mk e 1.0 max_pwr_lim 1 param step_dict label meas)
                  VV (Some 117.6) sd) 0
    /\ returns (utv (ActiveFunction.mk e 1.0 max_pwr_lim 1 param step_dict label meas)
                  VV (Some 110.4) sd) 4400.
Proof.
  cbv zeta. unfold VoltVar.set_params.
  cbn [VoltVar.mul_opt EutParameters.var_rated mbind result_bind].
  eexists. eexists.
  split; [reflexivity|].
  split.
  { rewrite getitem_insert_eq. cbn [mbind result_bind].
    rewrite !getitem_insert_ne by discriminate.
    apply getitem_insert_eq. }
  repeat split;
    try (rewrite getitem_list_to_map; cbn [assoc String.eqb Ascii.eqb Bool.eqb];
         vm_compute; reflexivity).
  - unfold update_target_value, get_params.
    cbn [String.eqb Ascii.eqb Bool.eqb VV VW CPF CRP WV FW LAP PRI
         ActiveFunction.param ActiveFunction.curve ActiveFunction.pwr].
    rewrite getitem_insert_eq. cbn [mbind result_bind].
    rewrite !getitem_insert_ne by discriminate.
    rewrite getitem_insert_eq. cbn [mbind result_bind].
    rewrite !getitem_list_to_map.
    cbn [assoc String.eqb Ascii.eqb Bool.eqb mbind result_bind value_or_step].
    vm_compute. reflexivity.
  - unfold update_target_value, get_params.
    cbn [String.eqb Ascii.eqb Bool.eqb VV VW CPF CRP WV FW LAP PRI
         ActiveFunction.param ActiveFunction.curve ActiveFunction.pwr].
    rewrite getitem_insert_eq. cbn [mbind result_bind].
    rewrite !getitem_insert_ne by discriminate.
    rewrite getitem_insert_eq. cbn [mbind result_bind].
    rewrite !getitem_list_to_map.
    cbn [assoc String.eqb Ascii.eqb Bool.eqb mbind result_bind value_or_step].
    vm_compute. reflexivity.
Qed.

(** C9 (as amended).  For a function name that is none of the eight
    constants, [update_target_value] returns [None] without raising, and
    [calculate_target_values] fails at its [return] with the
    [UnboundLocalError] of the unassigned [target]; neither raises the
    library's own exception. *)
Theorem C9_unknown_function (self : ActiveFunction.t) (function : string)
    (value : option Q) (sd : option (gmap string Q)) :
  ~ In function [VV; VW; CPF; CRP; WV; FW; LAP; PRI] ->
  utv self function value sd = Ok None
  /\ calc self function = Raise UnboundLocalError
  /\ utv self function value sd <> Raise P1547Error
  /\ calc self function <> Raise P1547Error.
Proof.
  intros Hf.
  destruct (unknown_function self function value sd Hf) as (Hu & Hc).
  rewrite Hu, Hc. repeat split; discriminate.
Qed.

End Criteria.



(** C2, an instance: the example run at power level 1, at 125 V and at
    60.5 Hz. *)
Lemma C2_bounds_at_full_power :
  (exists t,
      CriteriaValidation.update_target_value isqrt (run_10kW 1 None 120 60 5000)
        VW (Some 125) None = Ok (Some t)
      /\ py_round (2000 * 1) 1 <= t /\ t <= py_round (10000 * 1) 1)
  /\ (exists t,
      CriteriaValidation.update_target_value isqrt (run_10kW 1 None 120 60 5000)
        FW (Some 60.5) None = Ok (Some t)
      /\ 2000 <= t /\ t <= 10000).
Proof.
  split.
  - eapply (proj1 (C2_VW_FW_target_bounds isqrt (run_10kW 1 None 120 60 5000)
                     125 None));
      first [reflexivity | now vm_compute].
  - eapply (proj2 (C2_VW_FW_target_bounds isqrt (run_10kW 1 None 120 60 5000)
                     60.5 None));
      first [reflexivity | now vm_compute].
Defined.

(** C2, the claim as stated fails: at power level 0.5 the VW target at
    132 V is 1000 W, and at power level 0.1 the FW target at 60 Hz is
    1000 W, both below [p_min = 2000] W. *)
Lemma C2_target_below_p_min_at_reduced_power :
  returns (CriteriaValidation.update_target_value isqrt
             (run_10kW 0.5 None 120 60 5000) VW (Some 132) None) 1000
  /\ returns (CriteriaValidation.update_target_value isqrt
                (run_10kW 0.1 None 120 60 5000) FW (Some 60) None) 1000
  /\ 1000 < EutParameters.p_min eut_10kW.
Proof.
  split; [vm_compute; reflexivity|].
  split; [vm_compute; reflexivity|reflexivity].
Qed.

(** C5, the defect at a concrete input.  At 120 V and 60 Hz both targets
    are 10000 W and PRI takes the FW branch: it returns the upper bound
    10000 W, the FW law without the [1.5 MRA(P) = 750] W that the FW branch
    and the VW branch add to theirs. *)
Theorem C5_pri_upper_bound_lacks_margin :
  returns_window
    (CriteriaValidation.calculate_target_values isqrt (run_10kW 1 None 120 60 5000) PRI)
    10000 9250 10000
  /\ returns_window
       (CriteriaValidation.calculate_target_values isqrt (run_10kW 1 None 120 60 5000) FW)
       10000 9250 10750
  /\ returns_window
       (CriteriaValidation.calculate_target_values isqrt (run_10kW 1 None 120 60 5000) VW)
       10000 9250 10750.
Proof.
  split; [|split]; vm_compute; repeat split; reflexivity.
Qed.

(** C9, an instance: an unknown name. *)
Lemma C9_unknown_name_XYZ :
  CriteriaValidation.update_target_value isqrt (run_10kW 1 None 120 60 5000)
    "XYZ" (Some 120) None = Ok None
  /\ CriteriaValidation.calculate_target_values isqrt (run_10kW 1 None 120 60 5000) "XYZ"
     = Raise UnboundLocalError
  /\ CriteriaValidation.update_target_value isqrt (run_10kW 1 None 120 60 5000)
       "XYZ" (Some 120) None <> Raise P1547Error
  /\ CriteriaValidation.calculate_target_values isqrt (run_10kW 1 None 120 60 5000) "XYZ"
     <> Raise P1547Error.
Proof.
  apply C9_unknown_function.
  cbn. intros H. repeat (destruct H as [H|H]; [discriminate H|]). exact H.
Defined.

(** C9, the claim as stated fails: for the name ["VAR"] the target
    calculation returns [None], and the window calculation raises an
    [UnboundLocalError], not the library's exception. *)
Lemma C9_no_configuration_error :
  CriteriaValidation.update_target_value isqrt (run_10kW 1 None 120 60 5000)
    "VAR" None None = Ok None
  /\ CriteriaValidation.calculate_target_values isqrt (run_10kW 1 None 120 60 5000) "VAR"
     = Raise UnboundLocalError.
Proof. split; reflexivity. Qed.

(** ** The open-loop model and the transient criterion (C6, C7) *)

Section OpenLoopProps.
Import OpenLoop.
#[local] Open Scope R_scope.

Lemma ln_10_pos : 0 < ln 10.
Proof. rewrite <- ln_1. apply ln_increasing; rlra. Qed.

Lemma neg_ln_tenth : - ln 0.1 = ln 10.
Proof.
  replace 0.1 with (/ 10) by rlra.
  rewrite ln_Rinv by rlra. rlra.
Qed.

Lemma exp_neg_ln_10 : exp (- ln 10) = 0.1.
Proof. rewrite exp_Ropp, exp_ln by rlra. rlra. Qed.

(** The model for a positive response time: the closed form. *)
Lemma calculate_open_loop_value_eq (y0 y_ss d tr : R) :
  tr <> 0 ->
  calculate_open_loop_value (Some y0) (Some y_ss) d tr
  = Ok ((y_ss - y0) * (1 - exp (- (d / (tr / ln 10)))) + y0).
Proof.
  intros Htr. unfold calculate_open_loop_value. rewrite neg_ln_tenth.
  pose proof ln_10_pos.
  destruct (Req_dec_T (tr / ln 10) 0) as [E|_]; [|reflexivity].
  exfalso. apply Htr.
  apply (Rmult_eq_compat_r (ln 10)) in E.
  unfold Rdiv in E. rewrite Rmult_assoc, Rinv_l, Rmult_1_r, Rmult_0_l in E by rlra.
  exact E.
Qed.

(** A response time of 0 makes the division by the time constant fail. *)
Lemma calculate_open_loop_value_zero_tr (y0 y_ss : option R) (d : R) :
  calculate_open_loop_value y0 y_ss d 0 = Raise ZeroDivisionError.
Proof.
  unfold calculate_open_loop_value.
  destruct (Req_dec_T (0 / - ln 0.1) 0) as [_|Hne]; [reflexivity|].
  exfalso. apply Hne. unfold Rdiv. apply Rmult_0_l.
Qed.

Lemma open_loop_converges (y0 y_ss tr : R) :
  0 < tr ->
  forall eps, 0 < eps ->
  exists D, forall d, D <= d ->
    Rabs ((y_ss - y0) * (1 - exp (- (d / (tr / ln 10)))) + y0 - y_ss) < eps.
Proof.
  intros Htr eps Heps.
  pose proof ln_10_pos as Hln.
  set (tau := tr / ln 10).
  assert (Htau : 0 < tau) by (apply Rdiv_lt_0_compat; assumption).
  set (K := (Rabs (y_ss - y0) + 1) / eps).
  assert (HK : 0 < K).
  { apply Rdiv_lt_0_compat; [|exact Heps]. pose proof (Rabs_pos (y_ss - y0)). rlra. }
  exists (tau * ln K). intros d Hd.
  replace ((y_ss - y0) * (1 - exp (- (d / tau))) + y0 - y_ss)
    with (- ((y_ss - y0) * exp (- (d / tau)))) by ring.
  rewrite Rabs_Ropp, Rabs_mult.
  rewrite (Rabs_pos_eq (exp _)) by (left; apply exp_pos).
  assert (Hexp : exp (- (d / tau)) <= / K).
  { rewrite <- (exp_ln K) at 1 by exact HK.
    rewrite <- exp_Ropp.
    destruct (Rle_lt_or_eq_dec _ _ Hd) as [Hlt|Heq].
    - left. apply exp_increasing. apply Ropp_lt_contravar.
      apply (Rmult_lt_reg_r tau); [exact Htau|].
      unfold Rdiv. rewrite Rmult_assoc, Rinv_l, Rmult_1_r by rlra.
      rewrite Rmult_comm. exact Hlt.
    - right. f_equal. f_equal. rewrite <- Heq. field. rlra. }
  pose proof (Rabs_pos (y_ss - y0)) as Habs.
  apply Rle_lt_trans with (Rabs (y_ss - y0) * / K).
  - apply Rmult_le_compat_l; assumption.
  - unfold K. rewrite Rinv_div.
    unfold Rdiv. rewrite <- Rmult_assoc.
    apply (Rmult_lt_reg_r (Rabs (y_ss - y0) + 1)); [rlra|].
    rewrite Rmult_assoc, Rinv_l, Rmult_1_r by rlra.
    assert (0 <= Rabs (y_ss - y0) * eps) by (apply Rmult_le_pos; rlra).
    rlra.
Qed.


(** C6.  For a positive response time the model starts at [y0], reaches
    90 % of the commanded change at [duration = tr], and converges to
    [y_ss] as the duration grows. *)
Theorem C6_open_loop_model (y0 y_ss tr : R) :
  0 < tr ->
  calculate_open_loop_value (Some y0) (Some y_ss) 0 tr = Ok y0
  /\ calculate_open_loop_value (Some y0) (Some y_ss) tr tr
     = Ok (y0 + 0.9 * (y_ss - y0))
  /\ (forall eps, 0 < eps ->
      exists D, forall d, D <= d ->
      exists y, calculate_open_loop_value (Some y0) (Some y_ss) d tr = Ok y
                /\ Rabs (y - y_ss) < eps).
Proof.
  intros Htr. pose proof ln_10_pos as Hln.
  split; [|split].
  - rewrite calculate_open_loop_value_eq by rlra. f_equal.
    unfold Rdiv at 1. rewrite Rmult_0_l, Ropp_0, exp_0. ring.
  - rewrite calculate_open_loop_value_eq by rlra. f_equal.
    replace (tr / (tr / ln 10)) with (ln 10) by (field; split; rlra).
    rewrite exp_neg_ln_10. rlra.
  - intros eps Heps.
    destruct (open_loop_converges y0 y_ss tr Htr eps Heps) as (D & HD).
    exists D. intros d Hd. eexists.
    split; [apply calculate_open_loop_value_eq; rlra|].
    now apply HD.
Qed.

(** C7.  With the start, target and measured values present and a
    non-zero [tr], the criterion returns a verdict on the window it
    computes from the model: the lower bound is the model at the elapsed
    time shifted by [1.5] times the accuracy in time, against the
    direction of the response, less [1.5 MRA(y)], the upper bound the
    model at the time shifted the other way, plus [1.5 MRA(y)].  For the
    CRP script the verdict is one-sided ([y_min <= y_meas] when
    increasing, [y_meas <= y_max] when decreasing), for every other script
    it is the two-sided test.  The response counts as increasing when the
    start value does not exceed the modelled value at the elapsed time. *)
Theorem C7_transient_verdict (i : inputs) (tr y0 y_ss y_meas : R) :
  tr <> 0 ->
  y_start_of i = Some y0 ->
  tr_targ i = Some y_ss ->
  tr_meas i = Some y_meas ->
  exists o lo hi,
    open_loop_resp_criteria i tr = Ok o
    /\ calculate_open_loop_value (Some y0) (Some y_ss) (duration i) tr = Ok (y_target o)
    /\ (increasing o = true <-> y0 <= y_target o)
    /\ calculate_open_loop_value (Some y0) (Some y_ss)
         (if increasing o then duration i - 1.5 * mra_t_of i
          else duration i + 1.5 * mra_t_of i) tr = Ok lo
    /\ calculate_open_loop_value (Some y0) (Some y_ss)
         (if increasing o then duration i + 1.5 * mra_t_of i
          else duration i - 1.5 * mra_t_of i) tr = Ok hi
    /\ y_min o = lo - 1.5 * mra_y i
    /\ y_max o = hi + 1.5 * mra_y i
    /\ (script_name i = CRP ->
        (tr_90_pf o = Pass <->
         if increasing o then y_min o <= y_meas else y_meas <= y_max o))
    /\ (script_name i <> CRP ->
        (tr_90_pf o = Pass <-> y_min o <= y_meas <= y_max o)).
Proof.
  intros Htr Hys Hss Hm. unfold y_start_of in Hys. unfold mra_t_of.
  unfold open_loop_resp_criteria. rewrite Hys, Hss, Hm.
  repeat (rewrite calculate_open_loop_value_eq by exact Htr;
          cbn [mbind result_bind]).
  eexists _, _, _. split; [reflexivity|].
  cbn [y_target increasing y_min y_max tr_90_pf].
  split; [reflexivity|].
  split.
  { destruct (Rle_dec _ _); split; intros; try assumption; try reflexivity;
      try discriminate; contradiction. }
  split; [now rewrite calculate_open_loop_value_eq by exact Htr|].
  split; [now rewrite calculate_open_loop_value_eq by exact Htr|].
  split; [reflexivity|]. split; [reflexivity|].
  split.
  - intros Hcrp. apply String.eqb_eq in Hcrp. rewrite Hcrp.
    destruct (Rle_dec y0 _);
      match goal with
      | |- context [if Rle_dec ?a ?b then Pass else Fail] => destruct (Rle_dec a b)
      end; split; intros; try assumption; try reflexivity; try discriminate;
      contradiction.
  - intros Hcrp. apply String.eqb_neq in Hcrp. rewrite Hcrp.
    repeat match goal with
           | |- context [Rle_dec ?a ?b] => destruct (Rle_dec a b)
           end; split; intros H; try reflexivity; try discriminate; try tauto.
Qed.

End OpenLoopProps.

Section OpenLoopExamples.
#[local] Open Scope R_scope.

(** C6, an instance: from 0 to 100 with [tr = 10] s the model gives 90 at
    10 s. *)
Lemma C6_ninety_percent_at_tr :
  OpenLoop.calculate_open_loop_value (Some 0) (Some 100) 0 10 = Ok 0
  /\ OpenLoop.calculate_open_loop_value (Some 0) (Some 100) 10 10
     = Ok (0 + 0.9 * (100 - 0))
  /\ (forall eps, 0 < eps ->
      exists D, forall d, D <= d ->
      exists y, OpenLoop.calculate_open_loop_value (Some 0) (Some 100) d 10 = Ok y
                /\ Rabs (y - 100) < eps).
Proof.
  apply (C6_open_loop_model 0 100 10). rlra.
Defined.

(** C7, an instance: a Volt-Var step from 0 to 4400 var, measured at
    4000 var after 5 s, with its window from the model at 4.925 s and at
    5.075 s. *)
Lemma C7_verdict_of_a_volt_var_step :
  exists o lo hi,
    OpenLoop.open_loop_resp_criteria
      (OpenLoop.mk_inputs VV 500 0.01 5 (Some 0) (Some 4400) (Some 4000)) 1 = Ok o
    /\ OpenLoop.calculate_open_loop_value (Some 0) (Some 4400)
         (OpenLoop.duration
            (OpenLoop.mk_inputs VV 500 0.01 5 (Some 0) (Some 4400) (Some 4000))) 1
       = Ok (OpenLoop.y_target o)
    /\ (OpenLoop.increasing o = true <-> 0 <= OpenLoop.y_target o)
    /\ OpenLoop.calculate_open_loop_value (Some 0) (Some 4400)
         (if OpenLoop.increasing o
          then 5 - 1.5 * mra_t_of
                 (OpenLoop.mk_inputs VV 500 0.01 5 (Some 0) (Some 4400) (Some 4000))
          else 5 + 1.5 * mra_t_of
                 (OpenLoop.mk_inputs VV 500 0.01 5 (Some 0) (Some 4400) (Some 4000)))
         1 = Ok lo
    /\ OpenLoop.calculate_open_loop_value (Some 0) (Some 4400)
         (if OpenLoop.increasing o
          then 5 + 1.5 * mra_t_of
                 (OpenLoop.mk_inputs VV 500 0.01 5 (Some 0) (Some 4400) (Some 4000))
          else 5 - 1.5 * mra_t_of
                 (OpenLoop.mk_inputs VV 500 0.01 5 (Some 0) (Some 4400) (Some 4000)))
         1 = Ok hi
    /\ OpenLoop.y_min o = lo - 1.5 * 500
    /\ OpenLoop.y_max o = hi + 1.5 * 500
    /\ (OpenLoop.script_name
          (OpenLoop.mk_inputs VV 500 0.01 5 (Some 0) (Some 4400) (Some 4000)) = CRP ->
        (OpenLoop.tr_90_pf o = OpenLoop.Pass <->
         if OpenLoop.increasing o then OpenLoop.y_min o <= 4000
         else 4000 <= OpenLoop.y_max o))
    /\ (OpenLoop.script_name
          (OpenLoop.mk_inputs VV 500 0.01 5 (Some 0) (Some 4400) (Some 4000)) <> CRP ->
        (OpenLoop.tr_90_pf o = OpenLoop.Pass <->
         OpenLoop.y_min o <= 4000 <= OpenLoop.y_max o)).
Proof.
  apply (C7_transient_verdict
           (OpenLoop.mk_inputs VV 500 0.01 5 (Some 0) (Some 4400) (Some 4000))
           1 0 4400 4000); [rlra|reflexivity|reflexivity|reflexivity].
Defined.

End OpenLoopExamples.

(** * Further properties of the library *)

(** ** The step label generator, from any start character *)

Section StepLabelsAnyStart.
Import UtilParameters.
#[local] Open Scope Z_scope.

(** [get_step_label_at] holds from every start code up to 91, not only
    from the capital letters. *)
Lemma get_step_label_from (c : Z) (k : nat) :
  0 <= c <= 91 ->
  get_step_label (state_at c k) = Ok (label_at c k, state_at c (S k)).
Proof.
  intros Hc. unfold state_at, label_at.
  replace (c + Z.of_nat (S k)) with (c + Z.of_nat k + 1) by lia.
  set (i := c + Z.of_nat k).
  assert (Hi : 0 <= i) by (unfold i; lia).
  destruct (Z.leb_spec i 91) as [H91|H91].
  - unfold get_step_label; cbn [step_label double_letter_label].
    destruct (Z.ltb_spec 90 i) as [H90|H90].
    + assert (i = 91) as -> by lia. reflexivity.
    + cbn [step_label double_letter_label].
      rewrite chr_ascii by lia. cbn.
      destruct (Z.leb_spec i 90); [|lia].
      destruct (Z.leb_spec (i + 1) 91); [reflexivity|lia].
  - destruct (Z.leb_spec i 90); [lia|].
    destruct (Z.leb_spec (i + 1) 91); [lia|].
    assert (Hm := Z.mod_pos_bound (i - 92) 26 eq_refl).
    set (m := (i - 92) mod 26) in *.
    unfold get_step_label; cbn [step_label double_letter_label].
    destruct (Z.ltb_spec 90 (66 + m)) as [H90|H90].
    + assert (m = 25) as Hm25 by lia.
      assert ((i - 91) mod 26 = 0) as ->
        by (unfold m in Hm25; Z.div_mod_to_equations; lia).
      assert ((i + 1 - 92) mod 26 = 0) as ->
        by (unfold m in Hm25; Z.div_mod_to_equations; lia).
      reflexivity.
    + cbn [step_label double_letter_label].
      rewrite chr_ascii by lia. cbn.
      assert ((i - 91) mod 26 = m + 1) as ->
        by (unfold m in *; Z.div_mod_to_equations; lia).
      assert ((i + 1 - 92) mod 26 = m + 1) as ->
        by (unfold m in *; Z.div_mod_to_equations; lia).
      replace (65 + (m + 1)) with (66 + m) by lia.
      replace (66 + (m + 1)) with (66 + m + 1) by lia.
      reflexivity.
Qed.

Lemma get_step_labels_from (c : Z) (n : nat) :
  0 <= c <= 91 ->
  forall k, get_step_labels n (state_at c k)
            = Ok (map (label_at c) (seq k n), state_at c (k + n)).
Proof.
  intros Hc. induction n as [|n IH]; intros k; cbn [get_step_labels seq map].
  - now rewrite Nat.add_0_r.
  - rewrite get_step_label_from by exact Hc. cbn.
    rewrite IH. cbn. now rewrite Nat.add_succ_r.
Qed.

(** A start code above ['Z'] is reset by the first call, whatever it is. *)
Lemma get_step_label_above_Z (c : Z) :
  90 < c ->
  get_step_label (mk (Some c) (Some false)) = get_step_label (state_at 91 0).
Proof.
  intros Hc. unfold get_step_label, state_at. cbn [step_label].
  destruct (Z.ltb_spec 90 c); [reflexivity|lia].
Qed.

Lemma N_of_ascii_bound (a : ascii) : 0 <= Z.of_N (N_of_ascii a) < 256.
Proof.
  pose proof (N_ascii_bounded a). lia.
Qed.

End StepLabelsAnyStart.

(** Started at any character [a], the generator never fails: call number
    [k] (from 0) returns [label_at c k] where [c] is the character's code
    capped at 91.  So a start up to ['Z'] gives the single characters up to
    ['Z'] and then the doubled capitals, and every start after ['Z'] gives
    the doubled capitals from the first call. *)
Theorem step_labels_from_any_character (a : ascii) (n : nat) :
  let c := Z.of_N (N_of_ascii a) in
  exists s0,
    UtilParameters.set_step_label (Some (String a EmptyString)) UtilParameters.init
      = Ok s0
    /\ UtilParameters.get_step_labels (S n) s0
       = Ok (map (UtilParameters.label_at (Z.min c 91)) (seq 0 (S n)),
             UtilParameters.state_at (Z.min c 91) (S n)).
Proof.
  intros c. pose proof (N_of_ascii_bound a) as Hc. fold c in Hc.
  exists (UtilParameters.mk (Some c) (Some false)). split; [reflexivity|].
  destruct (Z.le_gt_cases c 91) as [Hle|Hgt].
  - rewrite Z.min_l by exact Hle.
    assert (E : UtilParameters.mk (Some c) (Some false) = UtilParameters.state_at c 0).
    { unfold UtilParameters.state_at.
      replace (c + Z.of_nat 0)%Z with c by lia.
      destruct (Z.leb_spec c 91); [reflexivity|lia]. }
    rewrite E, get_step_labels_from by lia. reflexivity.
  - rewrite Z.min_r by lia.
    cbn [UtilParameters.get_step_labels].
    rewrite get_step_label_above_Z by lia.
    change (UtilParameters.get_step_labels (S n) (UtilParameters.state_at 91 0)
            = Ok (map (UtilParameters.label_at 91) (seq 0 (S n)),
                  UtilParameters.state_at 91 (0 + S n))).
    apply get_step_labels_from. lia.
Qed.

(** With the default start (no argument, i.e. ['a']) no single-letter label
    is ever handed out: call number [k] returns the doubled capital
    number [k mod 26], so the first label is ["Step AA"].  Asking for a
    label before [set_step_label], or starting from a string that is not
    one character, raises [TypeError]. *)
Theorem step_labels_default_start (n : nat) :
  (exists s0 l s',
     UtilParameters.set_step_label None UtilParameters.init = Ok s0
     /\ UtilParameters.get_step_labels n s0 = Ok (l, s')
     /\ length l = n
     /\ forall k, (k < n)%nat ->
          l !! k = Some ("Step " ++ UtilParameters.chr1 (65 + Z.of_nat k mod 26)
                                 ++ UtilParameters.chr1 (65 + Z.of_nat k mod 26))%string)
  /\ UtilParameters.get_step_label UtilParameters.init = Raise TypeError
  /\ UtilParameters.set_step_label (Some "") UtilParameters.init = Raise TypeError
  /\ (forall a b s, UtilParameters.set_step_label (Some (String a (String b s)))
                      UtilParameters.init = Raise TypeError).
Proof.
  split; [|repeat split].
  destruct n as [|n].
  { eexists _, [], _. repeat split; intros; lia. }
  destruct (step_labels_from_any_character "a"%char n) as (s0 & Hs & Hl).
  exists s0. eexists _, _. split; [exact Hs|]. split; [exact Hl|].
  split; [now rewrite length_map, length_seq|].
  intros k Hk. rewrite list_lookup_fmap, lookup_seq_lt by exact Hk.
  cbn [fmap option_fmap option_map N_of_ascii].
  change (Z.min _ 91) with 91%Z.
  unfold UtilParameters.label_at. change (0 + k)%nat with k.
  destruct (Z.leb_spec (91 + Z.of_nat k) 90); [lia|].
  replace (91 + Z.of_nat k - 91)%Z with (Z.of_nat k) by lia.
  reflexivity.
Qed.

(** ** Interpolation: saturation and bounds *)

Section InterpBounds.

Lemma segment_ge (x x0 x1 y0 y1 lo : Q) :
  x0 <= x -> x < x1 -> lo <= y0 -> lo <= y1 ->
  lo <= (y1 - y0) / (x1 - x0) * (x - x0) + y0.
Proof.
  intros H0 H1 Hy0 Hy1.
  assert (H := segment_le x x0 x1 (- y0) (- y1) (- lo) H0 H1
                 ltac:(qlra) ltac:(qlra)).
  assert (E : (- y1 - - y0) / (x1 - x0) * (x - x0) + - y0
              == - ((y1 - y0) / (x1 - x0) * (x - x0) + y0)).
  { field. qlra. }
  rewrite E in H. qlra.
Qed.

(** From the first sample point on, the interpolated value stays between
    any bounds of the dependent values. *)
Lemma interp_from_bounds (lo hi x : Q) (rest : list (Q * Q)) :
  forall x0 y0, x0 <= x -> lo <= y0 <= hi ->
    Forall (fun p => lo <= p.2 <= hi) rest ->
    lo <= interp_from x x0 y0 rest <= hi.
Proof.
  induction rest as [|[x1 y1] tl IH]; intros x0 y0 Hx Hy Hall; cbn [interp_from].
  - exact Hy.
  - inversion Hall as [|? ? Hy1 Htl]; subst. cbn [snd] in Hy1.
    destruct (Qlt_le_dec x x1) as [Hlt|Hge].
    + destruct (Qeq_dec x x0); [exact Hy|].
      split; [apply segment_ge|apply segment_le]; tauto.
    + apply IH; assumption.
Qed.

(** At or beyond every remaining sample point the value is the last
    dependent value. *)
Lemma interp_from_right (x : Q) (rest : list (Q * Q)) :
  forall x0 y0, Forall (fun p => p.1 <= x) rest ->
    interp_from x x0 y0 rest = List.last (y0 :: map snd rest) 0.
Proof.
  induction rest as [|[x1 y1] tl IH]; intros x0 y0 Hall; cbn [interp_from].
  - reflexivity.
  - inversion Hall as [|? ? Hx1 Htl]; subst. cbn [fst] in Hx1.
    destruct (Qlt_le_dec x x1) as [Hlt|Hge]; [qlra|].
    rewrite (IH x1 y1 Htl). reflexivity.
Qed.

Lemma interp_from_upper (hi x : Q) (rest : list (Q * Q)) :
  forall x0 y0, x0 <= x -> y0 <= hi ->
    Forall (fun p => p.2 <= hi) rest ->
    interp_from x x0 y0 rest <= hi.
Proof.
  induction rest as [|[x1 y1] tl IH]; intros x0 y0 Hx Hy Hall; cbn [interp_from].
  - exact Hy.
  - inversion Hall as [|? ? Hy1 Htl]; subst. cbn [snd] in Hy1.
    destruct (Qlt_le_dec x x1) as [Hlt|Hge].
    + destruct (Qeq_dec x x0); [exact Hy|]. now apply segment_le.
    + apply IH; assumption.
Qed.

Lemma descending_from_upper (rest : list (Q * Q)) :
  forall x0 y0, descending_from x0 y0 rest -> Forall (fun p => p.2 <= y0) rest.
Proof.
  induction rest as [|[x1 y1] tl IH]; intros x0 y0 H; [constructor|].
  destruct H as (_ & Hy & Htl). constructor; [exact Hy|].
  eapply Forall_impl; [apply (IH x1 y1 Htl)|].
  intros p Hp. cbn beta in Hp |- *. qlra.
Qed.

(** Over a descending curve the interpolated value never rises. *)
Lemma interp_from_antitone (rest : list (Q * Q)) :
  forall x0 y0 a b, descending_from x0 y0 rest ->
    x0 <= a -> a <= b ->
    interp_from b x0 y0 rest <= interp_from a x0 y0 rest.
Proof.
  induction rest as [|[x1 y1] tl IH]; intros x0 y0 a b Hd Ha Hab;
    cbn [interp_from].
  - apply Qle_refl.
  - destruct Hd as (Hx & Hy & Htl).
    destruct (Qlt_le_dec a x1) as [Ha1|Ha1].
    + destruct (Qlt_le_dec b x1) as [Hb1|Hb1].
      * destruct (Qeq_dec a x0) as [Ea|Na].
        { destruct (Qeq_dec b x0); [apply Qle_refl|].
          apply segment_le; qlra. }
        destruct (Qeq_dec b x0) as [Eb|Nb]; [exfalso; apply Na; qlra|].
        assert (Hden : 0 < x1 - x0) by qlra.
        assert (Hs : 0 <= (y0 - y1) / (x1 - x0)).
        { apply Qle_shift_div_l; [exact Hden|]. qlra. }
        assert (Hm : 0 <= (y0 - y1) / (x1 - x0) * (b - a))
          by (apply Qmult_le_0_compat; qlra).
        assert (E : (y1 - y0) / (x1 - x0) * (a - x0) + y0
                    - ((y1 - y0) / (x1 - x0) * (b - x0) + y0)
                    == (y0 - y1) / (x1 - x0) * (b - a)) by (field; qlra).
        qlra.
      * apply Qle_trans with y1.
        { apply interp_from_upper; [exact Hb1|apply Qle_refl|].
          now apply (descending_from_upper tl x1 y1). }
        destruct (Qeq_dec a x0); [exact Hy|].
        apply segment_ge; qlra.
    + destruct (Qlt_le_dec b x1) as [Hb1|Hb1]; [exfalso; qlra|].
      now apply IH.
Qed.

Lemma np_interp_antitone (x0 y0 : Q) (rest : list (Q * Q)) (a b : Q) :
  descending_from x0 y0 rest -> a <= b ->
  (if Qlt_le_dec b x0 then y0 else interp_from b x0 y0 rest)
  <= (if Qlt_le_dec a x0 then y0 else interp_from a x0 y0 rest).
Proof.
  intros Hd Hab.
  destruct (Qlt_le_dec a x0) as [Ha|Ha]; destruct (Qlt_le_dec b x0) as [Hb|Hb].
  - apply Qle_refl.
  - apply interp_from_upper; [exact Hb|apply Qle_refl|].
    now apply (descending_from_upper rest x0 y0).
  - exfalso. qlra.
  - now apply interp_from_antitone.
Qed.

End InterpBounds.

(** ** The target laws: saturation, bounds and failures *)

Section Laws.
Import EutParameters ActiveFunction CriteriaValidation.
Variable math_sqrt : Q -> Q.

#[local] Abbreviation target := (update_target_value math_sqrt).

(** The Volt-Var target is constant outside the curve: left of [V1] it is
    the rounded [Q1 * pwr], from [V4] on the rounded [Q4 * pwr].  For a
    descending curve ([Q1 >= Q2 >= Q3 >= Q4]) and a power level [pwr >= 0]
    it lies between these two values at every voltage. *)
Theorem VV_target_saturates (self : ActiveFunction.t)
    (sd : option (gmap string Q)) (c : gmap string Q)
    (v1 v2 v3 v4 q1 q2 q3 q4 : Q) :
  get_params self VV = Ok c ->
  getitem c "V1"%string = Ok v1 -> getitem c "V2"%string = Ok v2 ->
  getitem c "V3"%string = Ok v3 -> getitem c "V4"%string = Ok v4 ->
  getitem c "Q1"%string = Ok q1 -> getitem c "Q2"%string = Ok q2 ->
  getitem c "Q3"%string = Ok q3 -> getitem c "Q4"%string = Ok q4 ->
  v1 < v2 -> v2 <= v3 -> v3 <= v4 ->
  (forall v, v <= v1 ->
     target self VV (Some v) sd = Ok (Some (py_round (q1 * pwr self) 1)))
  /\ (forall v, v4 <= v ->
     target self VV (Some v) sd = Ok (Some (py_round (q4 * pwr self) 1)))
  /\ (q4 <= q3 -> q3 <= q2 -> q2 <= q1 -> 0 <= pwr self ->
      forall v, exists t,
        target self VV (Some v) sd = Ok (Some t)
        /\ py_round (q4 * pwr self) 1 <= t <= py_round (q1 * pwr self) 1).
Proof.
  intros Hc Hv1 Hv2 Hv3 Hv4 Hq1 Hq2 Hq3 Hq4 H12 H23 H34.
  assert (E : forall v, target self VV (Some v) sd
    = Ok (Some (py_round
        ((if Qlt_le_dec v v1 then q1
          else interp_from v v1 q1 [(v2, q2); (v3, q3); (v4, q4)]) * pwr self) 1))).
  { intros v. unfold update_target_value.
    cbn [String.eqb Ascii.eqb Bool.eqb VV VW CPF CRP WV FW LAP PRI].
    rewrite Hc. cbn [mbind result_bind].
    rewrite Hv1, Hv2, Hv3, Hv4, Hq1, Hq2, Hq3, Hq4.
    reflexivity. }
  split; [|split].
  - intros v Hv. rewrite E. do 3 f_equal.
    destruct (Qlt_le_dec v v1) as [_|Hge]; [reflexivity|].
    cbn [interp_from].
    destruct (Qlt_le_dec v v2) as [_|Hge2]; [|qlra].
    destruct (Qeq_dec v v1) as [_|Hne]; [reflexivity|].
    exfalso. apply Hne. qlra.
  - intros v Hv. rewrite E. do 3 f_equal.
    destruct (Qlt_le_dec v v1) as [Hlt|Hge]; [qlra|].
    rewrite interp_from_right; [reflexivity|].
    repeat constructor; cbn [fst]; qlra.
  - intros Hq43 Hq32 Hq21 Hpwr v. rewrite E. eexists. split; [reflexivity|].
    assert (B : q4 <= (if Qlt_le_dec v v1 then q1
                       else interp_from v v1 q1 [(v2, q2); (v3, q3); (v4, q4)]) <= q1).
    { destruct (Qlt_le_dec v v1) as [Hlt|Hge]; [qlra|].
      apply interp_from_bounds; [exact Hge|qlra|].
      repeat constructor; cbn [snd]; qlra. }
    split; apply py_round_mono; apply Qmult_le_compat_r; tauto.
Qed.

(** The Watt-Var law clamps the power it is evaluated at to
    [[p_min, p_rated]]: below [p_min] the target is the one at [p_min],
    above [p_rated] the one at [p_rated].  Unlike the other laws it has no
    fallback to [step_dict]: without a value it raises
    [UnboundLocalError]. *)
Theorem WV_target_clamps (self : ActiveFunction.t)
    (sd : option (gmap string Q)) (curves : gmap Z (gmap string Q))
    (c : gmap string Q) (p1 p2 p3 q1 q2 q3 : Q) :
  getitem (param self) WV = Ok curves ->
  getitem curves (curve self) = Ok c ->
  getitem c "P1"%string = Ok p1 -> getitem c "P2"%string = Ok p2 ->
  getitem c "P3"%string = Ok p3 ->
  getitem c "Q1"%string = Ok q1 -> getitem c "Q2"%string = Ok q2 ->
  getitem c "Q3"%string = Ok q3 ->
  p_min (eut self) <= p_rated (eut self) ->
  (forall p, p < p_min (eut self) ->
     target self WV (Some p) sd = target self WV (Some (p_min (eut self))) sd)
  /\ (forall p, p_rated (eut self) < p ->
     target self WV (Some p) sd = target self WV (Some (p_rated (eut self))) sd)
  /\ (forall p, exists q, target self WV (Some p) sd = Ok (Some q))
  /\ target self WV None sd = Raise UnboundLocalError.
Proof.
  intros Hcs Hc Hp1 Hp2 Hp3 Hq1 Hq2 Hq3 Hmin.
  assert (E : forall value, target self WV value sd
    = (p_value ← match value with Some v => Ok v | None => Raise UnboundLocalError end;
       let p_value :=
         if Qlt_le_dec p_value (p_min (eut self)) then p_min (eut self)
         else if Qlt_le_dec (p_rated (eut self)) p_value then p_rated (eut self)
         else p_value in
       q_value ← np_interp p_value [p1; p2; p3] [q1; q2; q3];
       Ok (Some (q_value * pwr self)))).
  { intros value. unfold update_target_value.
    cbn [String.eqb Ascii.eqb Bool.eqb VV VW CPF CRP WV FW LAP PRI].
    rewrite Hcs. cbn [mbind result_bind]. rewrite Hc. cbn [mbind result_bind].
    rewrite Hp1, Hp2, Hp3, Hq1, Hq2, Hq3. reflexivity. }
  split; [|split; [|split]].
  - intros p Hp. rewrite !E. cbn [mbind result_bind].
    destruct (Qlt_le_dec p (p_min (eut self))) as [_|]; [|qlra].
    destruct (Qlt_le_dec (p_min (eut self)) (p_min (eut self))) as [|_]; [qlra|].
    destruct (Qlt_le_dec (p_rated (eut self)) (p_min (eut self))) as [|_]; [qlra|].
    reflexivity.
  - intros p Hp. rewrite !E. cbn [mbind result_bind].
    destruct (Qlt_le_dec p (p_min (eut self))) as [|_]; [qlra|].
    destruct (Qlt_le_dec (p_rated (eut self)) p) as [_|]; [|qlra].
    destruct (Qlt_le_dec (p_rated (eut self)) (p_min (eut self))) as [|_]; [qlra|].
    destruct (Qlt_le_dec (p_rated (eut self)) (p_rated (eut self))) as [|_]; [qlra|].
    reflexivity.
  - intros p. rewrite E. cbn [mbind result_bind]. unfold np_interp. cbn.
    eexists. reflexivity.
  - rewrite E. reflexivity.
Qed.

(** The constant-power-factor target: division by zero at [PF = 0], a
    [ValueError] from the square root when [|PF| > 1] at a non-zero power,
    a [TypeError] without a [step_dict]; otherwise a number whose sign is
    opposite to the sign of [PF] (for a square root that is never
    negative). *)
Theorem CPF_target_sign_and_failures (self : ActiveFunction.t)
    (d : gmap string Q) (pf p : Q) :
  getitem d "PF"%string = Ok pf ->
  (forall x, 0 <= math_sqrt x) ->
  (pf == 0 -> target self CPF (Some p) (Some d) = Raise ZeroDivisionError)
  /\ (1 < pf * pf -> ~ p == 0 ->
      target self CPF (Some p) (Some d) = Raise ValueError)
  /\ (~ pf == 0 -> pf * pf <= 1 ->
      exists q, target self CPF (Some p) (Some d) = Ok (Some q)
                /\ (0 < pf -> q <= 0) /\ (pf < 0 -> 0 <= q))
  /\ target self CPF (Some p) None = Raise TypeError.
Proof.
  intros Hpf Hsqrt.
  assert (E : target self CPF (Some p) (Some d)
    = (inv ← py_div 1 (pf * pf);
       q_value ← py_sqrt math_sqrt (p * p * (inv - 1));
       Ok (Some (q_value * (if Qlt_le_dec 0 pf then -1.0 else 1.0))))).
  { unfold update_target_value.
    cbn [String.eqb Ascii.eqb Bool.eqb VV VW CPF CRP WV FW LAP PRI step_item].
    rewrite Hpf. reflexivity. }
  assert (Hsq : forall x : Q, ~ x == 0 -> 0 < x * x).
  { intros x Hx. destruct (Qlt_le_dec x 0) as [Hn|Hp].
    - assert (Ex : x * x == (- x) * (- x)) by ring.
      rewrite Ex. apply Qmult_lt_0_compat; qlra.
    - apply Qmult_lt_0_compat; destruct (Qle_lt_or_eq _ _ Hp); try assumption;
        exfalso; apply Hx; qlra. }
  split; [|split; [|split]].
  - intros H0. rewrite E. unfold py_div.
    destruct (Qeq_dec (pf * pf) 0) as [_|Hne]; [reflexivity|].
    exfalso. apply Hne. rewrite H0. ring.
  - intros Hbig Hp. rewrite E. unfold py_div.
    destruct (Qeq_dec (pf * pf) 0) as [E0|_]; [qlra|].
    cbn [mbind result_bind]. unfold py_sqrt.
    destruct (Qlt_le_dec _ 0) as [_|Hge]; [reflexivity|].
    exfalso.
    assert (Hinv : 1 / (pf * pf) < 1).
    { apply Qlt_shift_div_r; qlra. }
    assert (Hpp := Hsq p Hp).
    assert (0 < p * p * (1 - 1 / (pf * pf))) by (apply Qmult_lt_0_compat; qlra).
    qlra.
  - intros Hne Hle. rewrite E. unfold py_div.
    assert (Hpos := Hsq pf Hne).
    destruct (Qeq_dec (pf * pf) 0) as [E0|_]; [qlra|].
    cbn [mbind result_bind]. unfold py_sqrt.
    assert (Hinv : 1 <= 1 / (pf * pf)).
    { apply Qle_shift_div_l; qlra. }
    assert (Hpp : 0 <= p * p).
    { destruct (Qeq_dec p 0) as [E0|Hp]; [rewrite E0; qlra|].
      apply Qlt_le_weak, Hsq, Hp. }
    assert (0 <= p * p * (1 / (pf * pf) - 1)) by (apply Qmult_le_0_compat; qlra).
    destruct (Qlt_le_dec _ 0) as [Hlt|_]; [qlra|].
    cbn [mbind result_bind]. eexists. split; [reflexivity|].
    pose proof (Hsqrt (p * p * (1 / (pf * pf) - 1))) as Hs.
    destruct (Qlt_le_dec 0 pf) as [Hp|Hp]; split; intros; qlra.
  - reflexivity.
Qed.

Lemma div_scale_mono (K pr n1 n2 : Q) :
  0 < K -> 0 <= pr -> n1 <= n2 -> n1 / K * pr <= n2 / K * pr.
Proof.
  intros HK Hpr Hn. apply Qmult_le_compat_r; [|exact Hpr].
  unfold Qdiv. apply Qmult_le_compat_r; [exact Hn|].
  apply Qinv_le_0_compat. qlra.
Qed.

(** The Frequency-Watt target in each of its three regions. *)
Lemma FW_target_cases (self : ActiveFunction.t) (sd : option (gmap string Q))
    (c : gmap string Q) (dbf kof : Q) (f : Q) :
  get_params self FW = Ok c ->
  getitem c "dbf"%string = Ok dbf -> getitem c "kof"%string = Ok kof ->
  0 < f_nom (eut self) * kof ->
  let K := f_nom (eut self) * kof in
  let B := p_db self * p_rated (eut self) in
  let dob := f_nom (eut self) + dbf in
  let dub := f_nom (eut self) - dbf in
  exists t, target self FW (Some f) sd = Ok (Some t)
    /\ ((dub <= f <= dob /\ t = B)
        \/ (dob < f
            /\ (t == p_min (eut self) \/ t == B - (f - dob) / K * p_rated (eut self))
            /\ p_min (eut self) <= t
            /\ B - (f - dob) / K * p_rated (eut self) <= t)
        \/ (f < dub
            /\ (t == pwr self * p_rated (eut self)
                \/ t == B + (dub - f) / K * p_rated (eut self))
            /\ t <= pwr self * p_rated (eut self)
            /\ t <= B + (dub - f) / K * p_rated (eut self))).
Proof.
  intros Hc Hdbf Hkof Hk K B dob dub.
  destruct (get_params_inv _ _ _ Hc) as (curves & Hcs & Hcc).
  unfold update_target_value.
  cbn [String.eqb Ascii.eqb Bool.eqb VV VW CPF CRP WV FW LAP PRI].
  rewrite Hc. cbn [mbind result_bind]. rewrite Hdbf. cbn [mbind result_bind].
  fold (p_db self). fold B dob dub.
  destruct (Qle_bool dub f && Qle_bool f dob) eqn:Hband.
  { eexists. split; [reflexivity|]. left.
    apply andb_true_iff in Hband. rewrite !Qle_bool_iff in Hband.
    split; [exact Hband|reflexivity]. }
  assert (Hdiv : forall n, py_div n K = Ok (n / K)).
  { intros n. unfold py_div.
    destruct (Qeq_dec K 0) as [E|_]; [|reflexivity].
    exfalso. unfold K in E. qlra. }
  destruct (Qlt_le_dec dob f) as [Hov|Hov].
  - rewrite Hcs. cbn [mbind result_bind]. rewrite Hcc. cbn [mbind result_bind].
    rewrite Hkof. cbn [mbind result_bind]. fold K. rewrite Hdiv.
    cbn [mbind result_bind]. eexists. split; [reflexivity|]. right. left.
    split; [exact Hov|].
    assert (E : (p_db self - (f - dob) / K) * p_rated (eut self)
                == B - (f - dob) / K * p_rated (eut self)) by (unfold B; ring).
    destruct (Qlt_le_dec _ (p_min (eut self))) as [Hcl|Hcl].
    + split; [left; reflexivity|]. split; [apply Qle_refl|]. rewrite <- E. qlra.
    + split; [right; exact E|]. split; [exact Hcl|]. rewrite <- E. apply Qle_refl.
  - destruct (Qlt_le_dec f dub) as [Hun|Hun].
    + rewrite Hcs. cbn [mbind result_bind]. rewrite Hcc. cbn [mbind result_bind].
      rewrite Hkof. cbn [mbind result_bind]. fold K. rewrite Hdiv.
      cbn [mbind result_bind]. eexists. split; [reflexivity|]. right. right.
      split; [exact Hun|].
      assert (E : (p_db self + (dub - f) / K) * p_rated (eut self)
                  == B + (dub - f) / K * p_rated (eut self)) by (unfold B; ring).
      destruct (Qlt_le_dec _ _) as [Hcl|Hcl].
      * split; [left; reflexivity|]. split; [apply Qle_refl|]. rewrite <- E. qlra.
      * split; [right; exact E|]. split; [exact Hcl|]. rewrite <- E. apply Qle_refl.
    + exfalso. apply andb_false_iff in Hband.
      rewrite <- !not_true_iff_false, !Qle_bool_iff in Hband. tauto.
Qed.

(** The Frequency-Watt target is a droop: it never rises with the
    frequency.  Inside the dead band it is the set-point
    [p_db * p_rated]; below the band it is at least that, above the band at
    most that.  (The dead band is not negative, [f_nom * kof > 0],
    [p_rated >= 0], and [p_min] does not exceed the set-point.) *)
Theorem FW_target_never_rises_with_frequency (self : ActiveFunction.t)
    (sd : option (gmap string Q)) (c : gmap string Q) (dbf kof : Q) :
  get_params self FW = Ok c ->
  getitem c "dbf"%string = Ok dbf -> getitem c "kof"%string = Ok kof ->
  0 < f_nom (eut self) * kof ->
  0 <= p_rated (eut self) ->
  0 <= dbf ->
  p_min (eut self) <= p_db self * p_rated (eut self) ->
  (forall f, f_nom (eut self) - dbf <= f <= f_nom (eut self) + dbf ->
     target self FW (Some f) sd = Ok (Some (p_db self * p_rated (eut self))))
  /\ (forall f1 f2, f1 <= f2 ->
      exists t1 t2,
        target self FW (Some f1) sd = Ok (Some t1)
        /\ target self FW (Some f2) sd = Ok (Some t2)
        /\ t2 <= t1).
Proof.
  intros Hc Hdbf Hkof Hk Hpr Hdb Hmin.
  pose proof (p_db_le_pwr self) as Hle.
  assert (Havl : p_db self * p_rated (eut self) <= pwr self * p_rated (eut self))
    by (now apply Qmult_le_compat_r).
  split.
  - intros f Hf.
    destruct (FW_target_cases self sd c dbf kof f Hc Hdbf Hkof Hk)
      as (t & Ht & [[_ ->]|[H|H]]); [exact Ht|exfalso; qlra|exfalso; qlra].
  - intros f1 f2 H12.
    destruct (FW_target_cases self sd c dbf kof f1 Hc Hdbf Hkof Hk) as (t1 & Ht1 & C1).
    destruct (FW_target_cases self sd c dbf kof f2 Hc Hdbf Hkof Hk) as (t2 & Ht2 & C2).
    exists t1, t2. split; [exact Ht1|]. split; [exact Ht2|].
    set (K := f_nom (eut self) * kof) in *.
    set (B := p_db self * p_rated (eut self)) in *.
    set (dob := f_nom (eut self) + dbf) in *.
    set (dub := f_nom (eut self) - dbf) in *.
    assert (Hdd : dub <= dob) by (unfold dub, dob; qlra).
    pose proof (div_scale_mono K (p_rated (eut self)) 0 (f2 - dob) Hk Hpr) as P2o.
    pose proof (div_scale_mono K (p_rated (eut self)) 0 (dub - f1) Hk Hpr) as P1u.
    pose proof (div_scale_mono K (p_rated (eut self)) (f1 - dob) (f2 - dob) Hk Hpr) as Poo.
    pose proof (div_scale_mono K (p_rated (eut self)) (dub - f2) (dub - f1) Hk Hpr) as Puu.
    assert (Z0 : 0 / K * p_rated (eut self) == 0) by (unfold Qdiv; ring).
    rewrite Z0 in P2o, P1u.
    destruct C1 as [[B1 ->]|[(O1 & E1 & L1 & G1)|(U1 & E1 & L1 & G1)]];
      destruct C2 as [[B2 ->]|[(O2 & E2 & L2 & G2)|(U2 & E2 & L2 & G2)]];
      try (exfalso; qlra).
    + apply Qle_refl.
    + destruct E2 as [E2|E2]; rewrite E2; [exact Hmin|].
      specialize (P2o ltac:(qlra)). qlra.
    + destruct E2 as [E2|E2]; rewrite E2; [exact L1|].
      specialize (Poo ltac:(qlra)). qlra.
    + destruct E1 as [E1|E1]; rewrite E1; [exact Havl|].
      specialize (P1u ltac:(qlra)). qlra.
    + specialize (P1u ltac:(qlra)). specialize (P2o ltac:(qlra)).
      destruct E1 as [E1|E1]; destruct E2 as [E2|E2]; rewrite E1, E2; qlra.
    + destruct E1 as [E1|E1]; rewrite E1; [exact L2|].
      specialize (Puu ltac:(qlra)). qlra.
Qed.

(** Over a descending curve and at a power level [pwr >= 0] the
    interpolated targets never rise with the quantity they follow: the
    Volt-Var and the Volt-Watt target with the voltage, the Watt-Var target
    (for [p_min <= p_rated]) with the active power. *)
Theorem interpolated_targets_never_rise (self : ActiveFunction.t)
    (sd : option (gmap string Q)) :
  0 <= pwr self ->
  (forall (c : gmap string Q) (v1 v2 v3 v4 q1 q2 q3 q4 : Q),
      get_params self VV = Ok c ->
      getitem c "V1"%string = Ok v1 -> getitem c "V2"%string = Ok v2 ->
      getitem c "V3"%string = Ok v3 -> getitem c "V4"%string = Ok v4 ->
      getitem c "Q1"%string = Ok q1 -> getitem c "Q2"%string = Ok q2 ->
      getitem c "Q3"%string = Ok q3 -> getitem c "Q4"%string = Ok q4 ->
      descending_from v1 q1 [(v2, q2); (v3, q3); (v4, q4)] ->
      forall a b, a <= b ->
      exists ta tb,
        target self VV (Some a) sd = Ok (Some ta)
        /\ target self VV (Some b) sd = Ok (Some tb)
        /\ tb <= ta)
  /\ (forall (c : gmap string Q) (v1 v2 p1 p2 : Q),
      get_params self VW = Ok c ->
      getitem c "V1"%string = Ok v1 -> getitem c "V2"%string = Ok v2 ->
      getitem c "P1"%string = Ok p1 -> getitem c "P2"%string = Ok p2 ->
      descending_from v1 p1 [(v2, p2)] ->
      forall a b, a <= b ->
      exists ta tb,
        target self VW (Some a) sd = Ok (Some ta)
        /\ target self VW (Some b) sd = Ok (Some tb)
        /\ tb <= ta)
  /\ (forall (curves : gmap Z (gmap string Q)) (c : gmap string Q)
             (p1 p2 p3 q1 q2 q3 : Q),
      getitem (param self) WV = Ok curves ->
      getitem curves (curve self) = Ok c ->
      getitem c "P1"%string = Ok p1 -> getitem c "P2"%string = Ok p2 ->
      getitem c "P3"%string = Ok p3 ->
      getitem c "Q1"%string = Ok q1 -> getitem c "Q2"%string = Ok q2 ->
      getitem c "Q3"%string = Ok q3 ->
      descending_from p1 q1 [(p2, q2); (p3, q3)] ->
      p_min (eut self) <= p_rated (eut self) ->
      forall a b, a <= b ->
      exists ta tb,
        target self WV (Some a) sd = Ok (Some ta)
        /\ target self WV (Some b) sd = Ok (Some tb)
        /\ tb <= ta).
Proof.
  intros Hpwr. split; [|split].
  - intros c v1 v2 v3 v4 q1 q2 q3 q4 Hc Hv1 Hv2 Hv3 Hv4 Hq1 Hq2 Hq3 Hq4 Hd a b Hab.
    assert (E : forall v, target self VV (Some v) sd
      = Ok (Some (py_round
          ((if Qlt_le_dec v v1 then q1
            else interp_from v v1 q1 [(v2, q2); (v3, q3); (v4, q4)]) * pwr self) 1))).
    { intros v. unfold update_target_value.
      cbn [String.eqb Ascii.eqb Bool.eqb VV VW CPF CRP WV FW LAP PRI].
      rewrite Hc. cbn [mbind result_bind].
      rewrite Hv1, Hv2, Hv3, Hv4, Hq1, Hq2, Hq3, Hq4.
      reflexivity. }
    rewrite !E. eexists _, _. split; [reflexivity|]. split; [reflexivity|].
    apply py_round_mono. apply Qmult_le_compat_r; [|exact Hpwr].
    now apply np_interp_antitone.
  - intros c v1 v2 p1 p2 Hc Hv1 Hv2 Hp1 Hp2 Hd a b Hab.
    assert (E : forall v, target self VW (Some v) sd
      = Ok (Some (py_round
          ((let p := if Qlt_le_dec v v1 then p1
                     else interp_from v v1 p1 [(v2, p2)] in
            if Qlt_le_dec p (p_min (eut self)) then p_min (eut self) else p)
           * pwr self) 1))).
    { intros v. unfold update_target_value.
      cbn [String.eqb Ascii.eqb Bool.eqb VV VW CPF CRP WV FW LAP PRI].
      rewrite Hc. cbn [mbind result_bind].
      rewrite Hv1, Hv2, Hp1, Hp2.
      reflexivity. }
    rewrite !E. eexists _, _. split; [reflexivity|]. split; [reflexivity|].
    apply py_round_mono. apply Qmult_le_compat_r; [|exact Hpwr].
    pose proof (np_interp_antitone v1 p1 [(v2, p2)] a b Hd Hab) as Hm.
    cbv zeta.
    destruct (Qlt_le_dec (if Qlt_le_dec b v1 then p1 else _) (p_min (eut self)));
      destruct (Qlt_le_dec (if Qlt_le_dec a v1 then p1 else _) (p_min (eut self)));
      qlra.
  - intros curves c p1 p2 p3 q1 q2 q3 Hcs Hc Hp1 Hp2 Hp3 Hq1 Hq2 Hq3 Hd Hmin a b Hab.
    set (clamp := fun p : Q =>
      if Qlt_le_dec p (p_min (eut self)) then p_min (eut self)
      else if Qlt_le_dec (p_rated (eut self)) p then p_rated (eut self)
      else p).
    assert (E : forall v, target self WV (Some v) sd
      = Ok (Some ((if Qlt_le_dec (clamp v) p1 then q1
                   else interp_from (clamp v) p1 q1 [(p2, q2); (p3, q3)])
                  * pwr self))).
    { intros v. unfold update_target_value.
      cbn [String.eqb Ascii.eqb Bool.eqb VV VW CPF CRP WV FW LAP PRI].
      rewrite Hcs. cbn [mbind result_bind]. rewrite Hc. cbn [mbind result_bind].
      rewrite Hp1, Hp2, Hp3, Hq1, Hq2, Hq3. reflexivity. }
    rewrite !E. eexists _, _. split; [reflexivity|]. split; [reflexivity|].
    apply Qmult_le_compat_r; [|exact Hpwr].
    apply np_interp_antitone; [exact Hd|].
    unfold clamp.
    destruct (Qlt_le_dec a (p_min (eut self)));
      destruct (Qlt_le_dec b (p_min (eut self)));
      destruct (Qlt_le_dec (p_rated (eut self)) a);
      destruct (Qlt_le_dec (p_rated (eut self)) b); qlra.
Qed.

End Laws.

(** The Volt-Var target of the example run saturates at [V1 = 110.4] V and
    [V4 = 129.6] V and stays within [[-4400, 4400]] var. *)
Lemma VV_target_saturates_10kW :
  (forall v, v <= 110.40 ->
     CriteriaValidation.update_target_value isqrt (run_10kW 1 None 120 60 5000)
       VV (Some v) None = Ok (Some (py_round (4400.00 * 1) 1)))
  /\ (forall v, 129.60 <= v ->
     CriteriaValidation.update_target_value isqrt (run_10kW 1 None 120 60 5000)
       VV (Some v) None = Ok (Some (py_round (-4400.00 * 1) 1)))
  /\ (-4400.00 <= 0.00 -> 0.00 <= 0.00 -> 0.00 <= 4400.00 -> 0 <= 1 ->
      forall v, exists t,
        CriteriaValidation.update_target_value isqrt (run_10kW 1 None 120 60 5000)
          VV (Some v) None = Ok (Some t)
        /\ py_round (-4400.00 * 1) 1 <= t <= py_round (4400.00 * 1) 1).
Proof.
  eapply (VV_target_saturates isqrt (run_10kW 1 None 120 60 5000) None _
            110.40 117.60 122.40 129.60 4400.00 0.00 0.00 (-4400.00));
    first [reflexivity | now vm_compute].
Defined.

(** The Watt-Var law of the example run clamps at [p_min = 2000] W and
    [p_rated = 10000] W. *)
Lemma WV_target_clamps_10kW :
  (forall p, p < 2000 ->
     CriteriaValidation.update_target_value isqrt (run_10kW_wv 1 120 60 5000)
       WV (Some p) None
     = CriteriaValidation.update_target_value isqrt (run_10kW_wv 1 120 60 5000)
         WV (Some 2000) None)
  /\ (forall p, 10000 < p ->
     CriteriaValidation.update_target_value isqrt (run_10kW_wv 1 120 60 5000)
       WV (Some p) None
     = CriteriaValidation.update_target_value isqrt (run_10kW_wv 1 120 60 5000)
         WV (Some 10000) None)
  /\ (forall p, exists q,
     CriteriaValidation.update_target_value isqrt (run_10kW_wv 1 120 60 5000)
       WV (Some p) None = Ok (Some q))
  /\ CriteriaValidation.update_target_value isqrt (run_10kW_wv 1 120 60 5000)
       WV None None = Raise UnboundLocalError.
Proof.
  eapply (WV_target_clamps isqrt (run_10kW_wv 1 120 60 5000) None);
    first [reflexivity | now vm_compute].
Defined.

(** The constant-power-factor target at [PF = 0.9] and 5000 W. *)
Lemma CPF_target_at_09 :
  (0.9 == 0 ->
     CriteriaValidation.update_target_value isqrt (run_10kW 1 None 120 60 5000)
       CPF (Some 5000) (Some {[ "PF"%string := 0.9 ]}) = Raise ZeroDivisionError)
  /\ (1 < 0.9 * 0.9 -> ~ 5000 == 0 ->
     CriteriaValidation.update_target_value isqrt (run_10kW 1 None 120 60 5000)
       CPF (Some 5000) (Some {[ "PF"%string := 0.9 ]}) = Raise ValueError)
  /\ (~ 0.9 == 0 -> 0.9 * 0.9 <= 1 ->
      exists q,
        CriteriaValidation.update_target_value isqrt (run_10kW 1 None 120 60 5000)
          CPF (Some 5000) (Some {[ "PF"%string := 0.9 ]}) = Ok (Some q)
        /\ (0 < 0.9 -> q <= 0) /\ (0.9 < 0 -> 0 <= q))
  /\ CriteriaValidation.update_target_value isqrt (run_10kW 1 None 120 60 5000)
       CPF (Some 5000) None = Raise TypeError.
Proof.
  apply (CPF_target_sign_and_failures isqrt (run_10kW 1 None 120 60 5000)
           {[ "PF"%string := 0.9 ]} 0.9 5000).
  - reflexivity.
  - intros x. unfold isqrt, Qle. cbn. pose proof (Z.sqrt_nonneg (Qfloor x)). lia.
Defined.

(** The Frequency-Watt droop of the example run (curve 1: a dead band of
    0.036 Hz and a droop of 0.05). *)
Lemma FW_target_droop_10kW :
  (forall f, 60 - 0.036 <= f <= 60 + 0.036 ->
     CriteriaValidation.update_target_value isqrt (run_10kW 1 None 120 60 5000)
       FW (Some f) None = Ok (Some (p_db (run_10kW 1 None 120 60 5000) * 10000)))
  /\ (forall f1 f2, f1 <= f2 ->
      exists t1 t2,
        CriteriaValidation.update_target_value isqrt (run_10kW 1 None 120 60 5000)
          FW (Some f1) None = Ok (Some t1)
        /\ CriteriaValidation.update_target_value isqrt (run_10kW 1 None 120 60 5000)
             FW (Some f2) None = Ok (Some t2)
        /\ t2 <= t1).
Proof.
  eapply (FW_target_never_rises_with_frequency isqrt (run_10kW 1 None 120 60 5000)
            None _ 0.036 0.05);
    first [reflexivity | now vm_compute].
Defined.

(** ** The curve tables *)

Section CurveTables.
Import EutParameters.

Lemma lookup_three_curves {A} (a b c x : A) (n : Z) :
  (<[3%Z := c]> (<[2%Z := b]> (<[1%Z := a]> ∅)) : gmap Z A) !! n = Some x ->
  x = a \/ x = b \/ x = c.
Proof.
  intros H.
  apply lookup_insert_Some in H as [ [_ H] | [_ H] ]; [now right; right|].
  apply lookup_insert_Some in H as [ [_ H] | [_ H] ]; [now right; left|].
  apply lookup_insert_Some in H as [ [_ H] | [_ H] ]; [now left|].
  rewrite lookup_empty in H. discriminate H.
Qed.

(** [VoltVar.set_params] needs [var_rated]: without it (no [eut.p_rated]
    configured) it raises [TypeError], although curve 1 does not use it.
    With it, and non-negative ratings, it stores exactly the curves 1, 2
    and 3, each with ascending voltages and descending reactive powers, as
    the interpolation of the Volt-Var law requires. *)
Theorem VoltVar_set_params_curves (e : EutParameters.t)
    (param : gmap string (gmap Z (gmap string Q))) :
  (var_rated e = None -> VoltVar.set_params e param = Raise TypeError)
  /\ (forall vr, var_rated e = Some vr ->
      0 <= v_nom e -> 0 <= s_rated e -> 0 <= vr ->
      exists param' curves,
        VoltVar.set_params e param = Ok param'
        /\ param' !! VV = Some curves
        /\ (forall f, f <> VV -> param' !! f = param !! f)
        /\ (forall n, is_Some (curves !! n) <-> n = 1%Z \/ n = 2%Z \/ n = 3%Z)
        /\ (forall n c, curves !! n = Some c -> descending_curve c)).
Proof.
  split.
  - intros Hn. unfold VoltVar.set_params. rewrite Hn. reflexivity.
  - intros vr Hvr Hv Hs Hr. unfold VoltVar.set_params. rewrite Hvr.
    cbn [VoltVar.mul_opt mbind result_bind].
    eexists _, _. split; [reflexivity|].
    split; [apply lookup_insert_eq|].
    split; [intros f Hf; now apply lookup_insert_ne|].
    split.
    + intros n. rewrite !lookup_insert_is_Some', lookup_empty.
      split.
      * intros [H|[H|[H|H]]]; [lia|lia|lia|destruct H as [x H]; discriminate H].
      * intros [-> | [-> | ->] ]; auto.
    + intros n c Hc.
      apply lookup_three_curves in Hc as Hcases.
      destruct Hcases as [-> | [-> | ->] ];
        unfold descending_curve; rewrite !getitem_list_to_map;
        cbn [assoc String.eqb Ascii.eqb Bool.eqb];
        eexists _, _, _, _, _, _, _, _;
        repeat (split; [reflexivity|]);
        repeat split; apply py_round_mono; qlra.
Qed.

Lemma py_int_le (x y : Q) : x <= y -> 0 <= y -> py_int x <= y.
Proof.
  intros Hxy Hy. unfold py_int.
  destruct (Z_lt_le_dec (Qnum x) 0) as [Hneg|Hpos].
  - apply Qle_trans with 0; [|exact Hy].
    unfold Qle. cbn. rewrite Z.mul_1_r.
    pose proof (Z.quot_pos (- Qnum x) (Zpos (Qden x)) ltac:(lia) ltac:(lia)) as H.
    rewrite Z.quot_opp_l in H by lia. lia.
  - apply Qle_trans with x; [|exact Hxy].
    unfold Qle. cbn. rewrite Z.mul_1_r.
    rewrite Z.mul_comm. apply Z.mul_quot_le; lia.
Qed.

Lemma py_round_integer (k : Z) : py_round (inject_Z k) 2 == inject_Z k.
Proof.
  unfold py_round, round_half_even.
  change (Z.of_N 2) with 2%Z. change (10 ^ 2)%Z with 100%Z.
  assert (Ef : Qfloor (inject_Z k * inject_Z 100) = (k * 100)%Z).
  { unfold Qfloor, Qmult, inject_Z. cbn. now rewrite Z.div_1_r. }
  rewrite Ef.
  assert (Ec : Qcompare (inject_Z k * inject_Z 100 - inject_Z (k * 100)) (1 # 2) = Lt).
  { apply -> Qlt_alt. rewrite inject_Z_mult. qlra. }
  rewrite Ec. unfold Qeq. cbn. lia.
Qed.

End CurveTables.

(** The Volt-Var curves of the example unit. *)
Lemma VoltVar_set_params_10kW :
  exists param' curves,
    VoltVar.set_params eut_10kW ∅ = Ok param'
    /\ param' !! VV = Some curves
    /\ (forall f, f <> VV -> param' !! f = (∅ : gmap string (gmap Z (gmap string Q))) !! f)
    /\ (forall n, is_Some (curves !! n) <-> n = 1%Z \/ n = 2%Z \/ n = 3%Z)
    /\ (forall n c, curves !! n = Some c -> descending_curve c).
Proof.
  apply (proj2 (VoltVar_set_params_curves eut_10kW ∅) 4400);
    first [reflexivity | now vm_compute].
Defined.

(** ** Ride-through: modes, stop times, bands and failures *)

Section RideThroughMore.
Import RideThrough.

(** The last end timing is the start-up time plus every duration in turn. *)
Lemma timing_loop_last (conds : list condition) :
  forall t c,
    last (map end_timing (timing_loop t (c :: conds)))
    = Some (foldl Qplus t (map min_duration (c :: conds))).
Proof.
  induction conds as [|c' tl IH]; intros t c.
  - reflexivity.
  - specialize (IH (t + min_duration c) c').
    cbn [timing_loop map foldl] in IH |- *.
    cbn [last end_timing]. exact IH.
Qed.

Lemma uniform_between (a b u lo hi : Q) :
  lo <= a -> a <= b -> b <= hi -> 0 <= u <= 1 ->
  lo <= uniform a b u <= hi.
Proof.
  intros Ha Hab Hb [Hu0 Hu1]. unfold uniform.
  assert (0 <= (b - a) * u) by (apply Qmult_le_0_compat; qlra).
  assert (0 <= (b - a) * (1 - u)) by (apply Qmult_le_0_compat; qlra).
  split; qlra.
Qed.

(** The conditions of a voltage sequence, in order, for the two policies. *)
Lemma vrt_stop_time (p : VoltageRideThrough.params) (mra_v_pu : Q)
    (rnd : nat -> Q) (m : VoltageRideThrough.mode) :
  VoltageRideThrough.range_steps p = "Figure"%string
  \/ VoltageRideThrough.range_steps p = "Random"%string ->
  exists rows t,
    VoltageRideThrough.set_test_conditions p mra_v_pu rnd m = Ok rows
    /\ get_vrt_stop_time rows = Some t
    /\ t == VoltageRideThrough.eut_startup_time p
            + vrt_duration m (String.eqb (VoltageRideThrough.consecutive_ena p) "Enabled").
Proof.
  intros Hrs.
  unfold VoltageRideThrough.set_test_conditions, VoltageRideThrough.get_test_sequence,
    VoltageRideThrough.test_conditions, get_vrt_stop_time.
  destruct Hrs as [-> | ->];
    destruct (String.eqb (VoltageRideThrough.consecutive_ena p) "Enabled"); destruct m;
    cbn [String.eqb Ascii.eqb Bool.eqb VoltageRideThrough.sequence_keys concat app];
    dict_lookup;
    (eexists _, _; split; [reflexivity|]);
    rewrite set_timing_loop, timing_loop_last;
    (split; [reflexivity|]);
    cbn [map foldl min_duration vrt_duration snd]; ring.
Qed.

Lemma frt_stop_time (p : FrequencyRideThrough.params) (f_nom : Q)
    (current_mode : string) :
  FrequencyRideThrough.contains FrequencyRideThrough.LFRT current_mode = true
  \/ FrequencyRideThrough.contains FrequencyRideThrough.HFRT current_mode = true ->
  exists rows t,
    FrequencyRideThrough.set_test_conditions p f_nom current_mode = Ok rows
    /\ get_frt_stop_time rows = Some t
    /\ t == FrequencyRideThrough.eut_startup_time p
            + (1 + step_g_period p current_mode + 11).
Proof.
  intros Hmode.
  destruct (frt_conditions p f_nom current_mode Hmode) as (e & g & h & Hc & Hd).
  unfold FrequencyRideThrough.set_test_conditions,
    FrequencyRideThrough.get_test_sequence, get_frt_stop_time.
  rewrite Hc. cbn [mbind result_bind].
  eexists _, _. split; [reflexivity|].
  rewrite set_timing_loop, timing_loop_last, Hd.
  split; [reflexivity|]. cbn [foldl]. ring.
Qed.

Lemma pcrt_stop_time (T0 test_num : Q) :
  exists rows t,
    PhaseChangeRideThrough.set_test_conditions T0 test_num = Ok rows
    /\ get_pcrt_stop_time rows = Some t
    /\ t == T0 + (if Qeq_dec 1.0 test_num then 60.5
                  else if Qeq_dec 2.0 test_num then 60.5
                  else if Qeq_dec 3.0 test_num then 60.5
                  else 120).
Proof.
  unfold PhaseChangeRideThrough.set_test_conditions,
    PhaseChangeRideThrough.get_test_sequence,
    PhaseChangeRideThrough.test_conditions, get_pcrt_stop_time.
  destruct (Qeq_dec 1.0 test_num); [|destruct (Qeq_dec 2.0 test_num);
    [|destruct (Qeq_dec 3.0 test_num); [|destruct (Qeq_dec 4.0 test_num)]]];
    dict_lookup;
    (eexists _, _; split; [reflexivity|]);
    rewrite set_timing_loop, timing_loop_last;
    (split; [reflexivity|]);
    cbn [map foldl min_duration snd]; ring.
Qed.

(** The residual voltages of a voltage sequence. *)
Lemma vrt_values_in_band (p : VoltageRideThrough.params) (mra_v_pu : Q)
    (rnd : nat -> Q) (m : VoltageRideThrough.mode) :
  0 <= mra_v_pu <= 0.01 ->
  (forall k, 0 <= rnd k <= 1) ->
  VoltageRideThrough.range_steps p = "Figure"%string
  \/ VoltageRideThrough.range_steps p = "Random"%string ->
  exists rows,
    VoltageRideThrough.set_test_conditions p mra_v_pu rnd m = Ok rows
    /\ Forall (fun r => (vrt_band m).1 <= row_values r <= (vrt_band m).2) rows.
Proof.
  intros Hmra Hrnd Hrs.
  unfold VoltageRideThrough.set_test_conditions, VoltageRideThrough.get_test_sequence,
    VoltageRideThrough.test_conditions.
  destruct Hrs as [-> | ->];
    destruct (String.eqb (VoltageRideThrough.consecutive_ena p) "Enabled"); destruct m;
    cbn [String.eqb Ascii.eqb Bool.eqb VoltageRideThrough.sequence_keys concat app];
    dict_lookup;
    (eexists; split; [reflexivity|]);
    cbn [set_timing timing_loop snd cond_value vrt_band fst];
    repeat (apply Forall_cons; split;
            [cbn [row_values];
             first [ apply uniform_between; [qlra|qlra|qlra|apply Hrnd]
                   | qlra ]|]);
    constructor.
Qed.

End RideThroughMore.

(** The stop time of a ride-through test is the start-up time plus the
    minimum durations of its conditions: for a voltage sequence 135, 145,
    131 or 137 s (category II and III, low and high voltage), and 288,
    340, 142 or 308 s with the consecutive sequences enabled; for a
    frequency sequence 12 s plus the configured period; for a phase-change
    sequence 60.5 s (tests 1 to 3) or 120 s. *)
Theorem ride_through_stop_times :
  (forall (p : VoltageRideThrough.params) (mra_v_pu : Q) (rnd : nat -> Q)
          (m : VoltageRideThrough.mode),
      VoltageRideThrough.range_steps p = "Figure"%string
      \/ VoltageRideThrough.range_steps p = "Random"%string ->
      exists rows t,
        VoltageRideThrough.set_test_conditions p mra_v_pu rnd m = Ok rows
        /\ get_vrt_stop_time rows = Some t
        /\ t == VoltageRideThrough.eut_startup_time p
                + vrt_duration m
                    (String.eqb (VoltageRideThrough.consecutive_ena p) "Enabled"))
  /\ (forall (p : FrequencyRideThrough.params) (f_nom : Q) (current_mode : string),
      FrequencyRideThrough.contains FrequencyRideThrough.LFRT current_mode = true
      \/ FrequencyRideThrough.contains FrequencyRideThrough.HFRT current_mode = true ->
      exists rows t,
        FrequencyRideThrough.set_test_conditions p f_nom current_mode = Ok rows
        /\ get_frt_stop_time rows = Some t
        /\ t == FrequencyRideThrough.eut_startup_time p
                + (1 + step_g_period p current_mode + 11))
  /\ (forall T0 test_num : Q,
      exists rows t,
        PhaseChangeRideThrough.set_test_conditions T0 test_num = Ok rows
        /\ get_pcrt_stop_time rows = Some t
        /\ t == T0 + (if Qeq_dec 1.0 test_num then 60.5
                      else if Qeq_dec 2.0 test_num then 60.5
                      else if Qeq_dec 3.0 test_num then 60.5
                      else 120)).
Proof.
  split; [|split].
  - apply vrt_stop_time.
  - apply frt_stop_time.
  - apply pcrt_stop_time.
Qed.

(** The stop times of the two sequences the source documents: category II
    low voltage ends at 135 s, category III high voltage with the
    consecutive sequences at 308 s. *)
Lemma ride_through_stop_times_documented :
  (exists rows t,
      VoltageRideThrough.set_test_conditions
        (VoltageRideThrough.mk_params "Figure" 0 "Disabled") 0.01 (fun _ => 0.5)
        VoltageRideThrough.LV_CAT_2 = Ok rows
      /\ get_vrt_stop_time rows = Some t /\ t == 0 + 135)
  /\ (exists rows t,
      VoltageRideThrough.set_test_conditions
        (VoltageRideThrough.mk_params "Figure" 0 "Enabled") 0.01 (fun _ => 0.5)
        VoltageRideThrough.HV_CAT_3 = Ok rows
      /\ get_vrt_stop_time rows = Some t /\ t == 0 + 308).
Proof.
  split.
  - exact (proj1 ride_through_stop_times
             (VoltageRideThrough.mk_params "Figure" 0 "Disabled") 0.01 (fun _ => 0.5)
             VoltageRideThrough.LV_CAT_2 (or_introl eq_refl)).
  - exact (proj1 ride_through_stop_times
             (VoltageRideThrough.mk_params "Figure" 0 "Enabled") 0.01 (fun _ => 0.5)
             VoltageRideThrough.HV_CAT_3 (or_introl eq_refl)).
Defined.

(** A voltage ride-through sequence never leaves its side of the nominal
    voltage: with an accuracy of at most 0.01 p.u. and draws in [[0, 1]],
    every residual voltage of a low-voltage sequence lies in [[0, 1]] p.u.
    and every one of a high-voltage sequence in [[1, 1.2]] p.u., for both
    range-step policies. *)
Theorem voltage_ride_through_values_in_band (p : VoltageRideThrough.params)
    (mra_v_pu : Q) (rnd : nat -> Q) (m : VoltageRideThrough.mode) :
  0 <= mra_v_pu <= 0.01 ->
  (forall k, 0 <= rnd k <= 1) ->
  VoltageRideThrough.range_steps p = "Figure"%string
  \/ VoltageRideThrough.range_steps p = "Random"%string ->
  exists rows,
    VoltageRideThrough.set_test_conditions p mra_v_pu rnd m = Ok rows
    /\ Forall (fun r => (vrt_band m).1 <= RideThrough.row_values r <= (vrt_band m).2)
         rows.
Proof. apply vrt_values_in_band. Qed.

(** The band of a category III low-voltage sequence with random values. *)
Lemma voltage_ride_through_band_LV_CAT_3 :
  exists rows,
    VoltageRideThrough.set_test_conditions
      (VoltageRideThrough.mk_params "Random" 0 "Enabled") 0.01 (fun _ => 0.5)
      VoltageRideThrough.LV_CAT_3 = Ok rows
    /\ Forall (fun r => 0 <= RideThrough.row_values r <= 1) rows.
Proof.
  apply (voltage_ride_through_values_in_band
           (VoltageRideThrough.mk_params "Random" 0 "Enabled") 0.01 (fun _ => 0.5)
           VoltageRideThrough.LV_CAT_3).
  - split; discriminate.
  - intros k. split; discriminate.
  - right. reflexivity.
Defined.

(** What the generators do with a configuration they do not know: a
    range-step policy other than ["Figure"] and ["Random"] leaves the
    condition table empty, so every voltage mode raises [KeyError]; so does
    a frequency mode that names neither LFRT nor HFRT; a phase-change test
    number other than 1 to 4 is run as test 5. *)
Theorem ride_through_unknown_configuration :
  (forall (p : VoltageRideThrough.params) (mra_v_pu : Q) (rnd : nat -> Q)
          (m : VoltageRideThrough.mode),
      VoltageRideThrough.range_steps p <> "Figure"%string ->
      VoltageRideThrough.range_steps p <> "Random"%string ->
      VoltageRideThrough.set_test_conditions p mra_v_pu rnd m = Raise KeyError)
  /\ (forall (p : FrequencyRideThrough.params) (f_nom : Q) (current_mode : string),
      FrequencyRideThrough.contains FrequencyRideThrough.LFRT current_mode = false ->
      FrequencyRideThrough.contains FrequencyRideThrough.HFRT current_mode = false ->
      FrequencyRideThrough.set_test_conditions p f_nom current_mode = Raise KeyError)
  /\ (forall T0 test_num : Q,
      ~ 1 == test_num -> ~ 2 == test_num -> ~ 3 == test_num -> ~ 4 == test_num ->
      PhaseChangeRideThrough.set_test_conditions T0 test_num
      = PhaseChangeRideThrough.set_test_conditions T0 5).
Proof.
  split; [|split].
  - intros p mra_v_pu rnd m Hf Hr.
    unfold VoltageRideThrough.set_test_conditions,
      VoltageRideThrough.get_test_sequence, VoltageRideThrough.test_conditions.
    rewrite (eqb_false_of_ne _ _ Hf), (eqb_false_of_ne _ _ Hr).
    destruct m, (String.eqb (VoltageRideThrough.consecutive_ena p) "Enabled");
      reflexivity.
  - intros p f_nom current_mode Hl Hh.
    unfold FrequencyRideThrough.set_test_conditions,
      FrequencyRideThrough.get_test_sequence, FrequencyRideThrough.test_conditions.
    rewrite Hl, Hh. reflexivity.
  - intros T0 test_num H1 H2 H3 H4.
    unfold PhaseChangeRideThrough.set_test_conditions,
      PhaseChangeRideThrough.get_test_sequence.
    destruct (Qeq_dec 1.0 test_num) as [E|_]; [exfalso; apply H1; rewrite <- E; reflexivity|].
    destruct (Qeq_dec 2.0 test_num) as [E|_]; [exfalso; apply H2; rewrite <- E; reflexivity|].
    destruct (Qeq_dec 3.0 test_num) as [E|_]; [exfalso; apply H3; rewrite <- E; reflexivity|].
    destruct (Qeq_dec 4.0 test_num) as [E|_]; [exfalso; apply H4; rewrite <- E; reflexivity|].
    reflexivity.
Qed.

(** Instances: the policy ["Sweep"], the mode ["FRT"] and test number 7. *)
Lemma ride_through_unknown_configuration_examples :
  VoltageRideThrough.set_test_conditions
    (VoltageRideThrough.mk_params "Sweep" 0 "Disabled") 0.01 (fun _ => 0.5)
    VoltageRideThrough.HV_CAT_2 = Raise KeyError
  /\ FrequencyRideThrough.set_test_conditions
       (FrequencyRideThrough.mk_params 57 299 61.8 299 0) 60 "FRT" = Raise KeyError
  /\ PhaseChangeRideThrough.set_test_conditions 0 7
     = PhaseChangeRideThrough.set_test_conditions 0 5.
Proof.
  split; [|split].
  - apply (proj1 ride_through_unknown_configuration); discriminate.
  - apply (proj1 (proj2 ride_through_unknown_configuration)); reflexivity.
  - apply (proj2 (proj2 ride_through_unknown_configuration)); discriminate.
Defined.

(** Every mode that [set_vrt_modes] produces is one of the four names, in
    the fixed order low before high and category II before III, without
    repetition, and selects the branch of its own name in the dispatch of
    the sequence generator; every mode that [set_modes] produces is
    recognised by the frequency generator.  So no produced mode is left
    without a sequence. *)
Theorem ride_through_modes_are_dispatched :
  (forall lv_mode hv_mode categories : string,
      sublist (set_vrt_modes lv_mode hv_mode categories)
        ["LV_CAT_2"; "LV_CAT_3"; "HV_CAT_2"; "HV_CAT_3"]%string
      /\ Forall (fun current_mode =>
                   exists m, vrt_branch current_mode = Some m
                             /\ VoltageRideThrough.mode_name m = current_mode)
           (set_vrt_modes lv_mode hv_mode categories)
      /\ (lv_mode = "Enabled"%string -> hv_mode = "Enabled"%string ->
          categories = "Both"%string ->
          set_vrt_modes lv_mode hv_mode categories
          = ["LV_CAT_2"; "LV_CAT_3"; "HV_CAT_2"; "HV_CAT_3"]%string)
      /\ (categories <> "CAT_2"%string -> categories <> "CAT_3"%string ->
          categories <> "Both"%string ->
          set_vrt_modes lv_mode hv_mode categories = []))
  /\ (forall lf_mode hf_mode : string,
      sublist (set_modes lf_mode hf_mode) ["LFRT"; "HFRT"]%string
      /\ Forall (fun current_mode =>
                   FrequencyRideThrough.contains FrequencyRideThrough.LFRT current_mode
                   || FrequencyRideThrough.contains FrequencyRideThrough.HFRT current_mode
                   = true)
           (set_modes lf_mode hf_mode)).
Proof.
  split.
  - intros lv hv cat. unfold set_vrt_modes.
    split; [|split; [|split]].
    + destruct (String.eqb lv "Enabled"), (String.eqb hv "Enabled"),
        (String.eqb cat CAT_2), (String.eqb cat CAT_3), (String.eqb cat "Both");
        cbn [andb orb app]; vm_compute;
        repeat first [apply sublist_nil | apply sublist_skip | apply sublist_cons].
    + destruct (String.eqb lv "Enabled"), (String.eqb hv "Enabled"),
        (String.eqb cat CAT_2), (String.eqb cat CAT_3), (String.eqb cat "Both");
        cbn [andb orb app];
        repeat (apply Forall_cons; split;
                [eexists; split; [vm_compute; reflexivity|reflexivity]|]);
        constructor.
    + intros -> -> ->. reflexivity.
    + intros H2 H3 Hb. unfold CAT_2, CAT_3.
      rewrite (eqb_false_of_ne _ _ H2), (eqb_false_of_ne _ _ H3),
        (eqb_false_of_ne _ _ Hb).
      destruct (String.eqb lv "Enabled"), (String.eqb hv "Enabled"); reflexivity.
  - intros lf hf. unfold set_modes.
    destruct (String.eqb lf "Enabled"), (String.eqb hf "Enabled"); cbn [app];
      (split; [repeat first [apply sublist_nil | apply sublist_skip | apply sublist_cons]|]);
      repeat (apply Forall_cons; split; [reflexivity|]); constructor.
Qed.

(** ** The open-loop model: no overshoot, and a window around the model *)

Section OpenLoopMore.
Import OpenLoop.
#[local] Open Scope R_scope.

(** The remaining fraction [exp (- d / tau)] of the step. *)
Lemma remaining_fraction_mono (tr d1 d2 : R) :
  0 < tr -> d1 <= d2 ->
  exp (- (d2 / (tr / ln 10))) <= exp (- (d1 / (tr / ln 10))).
Proof.
  intros Htr Hd. pose proof ln_10_pos as Hln.
  assert (Htau : 0 < tr / ln 10) by (apply Rdiv_lt_0_compat; assumption).
  destruct (Rle_lt_or_eq_dec _ _ Hd) as [Hlt | ->]; [|apply Rle_refl].
  left. apply exp_increasing. apply Ropp_lt_contravar.
  unfold Rdiv. apply Rmult_lt_compat_r; [|exact Hlt].
  apply Rinv_0_lt_compat. exact Htau.
Qed.

Lemma remaining_fraction_range (tr d : R) :
  0 < tr -> 0 <= d -> 0 < exp (- (d / (tr / ln 10))) <= 1.
Proof.
  intros Htr Hd. split; [apply exp_pos|].
  pose proof (remaining_fraction_mono tr 0 d Htr Hd) as H.
  replace (0 / (tr / ln 10)) with 0 in H by (unfold Rdiv; ring).
  rewrite Ropp_0, exp_0 in H. exact H.
Qed.

(** The open-loop model never overshoots: for a positive response time
    and a non-negative duration its value lies between the start value and
    the target, and it only gets closer to the target as time passes. *)
Theorem open_loop_value_never_overshoots (y0 y_ss d tr : R) :
  0 < tr -> 0 <= d ->
  exists y,
    calculate_open_loop_value (Some y0) (Some y_ss) d tr = Ok y
    /\ Rmin y0 y_ss <= y <= Rmax y0 y_ss
    /\ (forall d', d <= d' ->
        exists y', calculate_open_loop_value (Some y0) (Some y_ss) d' tr = Ok y'
                   /\ Rabs (y' - y_ss) <= Rabs (y - y_ss)).
Proof.
  intros Htr Hd.
  rewrite calculate_open_loop_value_eq by rlra.
  eexists. split; [reflexivity|].
  destruct (remaining_fraction_range tr d Htr Hd) as [HE0 HE1].
  set (E := exp (- (d / (tr / ln 10)))) in *.
  split.
  - unfold Rmin, Rmax. destruct (Rle_dec y0 y_ss) as [Hle|Hgt].
    + assert (0 <= (y_ss - y0) * (1 - E)) by (apply Rmult_le_pos; rlra).
      assert (0 <= (y_ss - y0) * E) by (apply Rmult_le_pos; rlra).
      split; rlra.
    + assert (0 <= (y0 - y_ss) * (1 - E)) by (apply Rmult_le_pos; rlra).
      assert (0 <= (y0 - y_ss) * E) by (apply Rmult_le_pos; rlra).
      split; rlra.
  - intros d' Hd'.
    rewrite calculate_open_loop_value_eq by rlra.
    eexists. split; [reflexivity|].
    pose proof (remaining_fraction_mono tr d d' Htr Hd') as Hmono.
    destruct (remaining_fraction_range tr d' Htr ltac:(rlra)) as [HE0' _].
    fold E in Hmono. set (E' := exp (- (d' / (tr / ln 10)))) in *.
    replace ((y_ss - y0) * (1 - E') + y0 - y_ss) with (- ((y_ss - y0) * E')) by ring.
    replace ((y_ss - y0) * (1 - E) + y0 - y_ss) with (- ((y_ss - y0) * E)) by ring.
    rewrite !Rabs_Ropp, !Rabs_mult.
    rewrite (Rabs_pos_eq E), (Rabs_pos_eq E') by rlra.
    apply Rmult_le_compat_l; [apply Rabs_pos|exact Hmono].
Qed.

(** Around the elapsed time the model moves in the direction of the
    step: for a margin [delta >= 0] (zero when no time has elapsed) the
    value at [dur - delta] and the value at [dur + delta] enclose the value
    at [dur]. *)
Lemma model_window (y0 y_ss dur delta tr : R) :
  0 < tr -> 0 <= dur -> 0 <= delta -> (dur = 0 -> delta = 0) ->
  let f := fun d => (y_ss - y0) * (1 - exp (- (d / (tr / ln 10)))) + y0 in
  (y0 <= f dur -> f (dur - delta) <= f dur <= f (dur + delta))
  /\ (~ y0 <= f dur -> f (dur + delta) <= f dur <= f (dur - delta)).
Proof.
  intros Htr Hdur Hdelta Hzero f. unfold f.
  pose proof (remaining_fraction_mono tr (dur - delta) dur Htr ltac:(rlra)) as Hlo.
  pose proof (remaining_fraction_mono tr dur (dur + delta) Htr ltac:(rlra)) as Hhi.
  destruct (remaining_fraction_range tr dur Htr Hdur) as [HE0 HE1].
  destruct (Req_dec dur 0) as [H0|Hpos].
  { rewrite (Hzero H0).
    replace (dur - 0) with dur by ring. replace (dur + 0) with dur by ring.
    split; intros _; split; apply Rle_refl. }
  set (E := exp (- (dur / (tr / ln 10)))) in *.
  set (Em := exp (- ((dur - delta) / (tr / ln 10)))) in *.
  set (Ep := exp (- ((dur + delta) / (tr / ln 10)))) in *.
  assert (HE : E < 1).
  { unfold E. rewrite <- exp_0. apply exp_increasing.
    pose proof ln_10_pos.
    assert (0 < dur / (tr / ln 10)).
    { apply Rdiv_lt_0_compat; [rlra|]. apply Rdiv_lt_0_compat; assumption. }
    rlra. }
  split.
  - intros Hinc.
    assert (Hge : 0 <= y_ss - y0).
    { destruct (Rle_dec 0 (y_ss - y0)) as [?|Hn]; [assumption|].
      exfalso.
      assert (0 < (y0 - y_ss) * (1 - E)) by (apply Rmult_lt_0_compat; rlra).
      rlra. }
    assert (0 <= (y_ss - y0) * (Em - E)) by (apply Rmult_le_pos; rlra).
    assert (0 <= (y_ss - y0) * (E - Ep)) by (apply Rmult_le_pos; rlra).
    split; rlra.
  - intros Hdec.
    assert (Hlt : y_ss - y0 < 0).
    { destruct (Rlt_dec (y_ss - y0) 0) as [?|Hn]; [assumption|].
      exfalso. apply Hdec.
      assert (0 <= (y_ss - y0) * (1 - E)) by (apply Rmult_le_pos; rlra).
      rlra. }
    assert (0 <= (y0 - y_ss) * (Em - E)) by (apply Rmult_le_pos; rlra).
    assert (0 <= (y0 - y_ss) * (E - Ep)) by (apply Rmult_le_pos; rlra).
    split; rlra.
Qed.

(** The transient window is built around the model: for a positive
    response time, a non-negative elapsed time and non-negative
    accuracies, the modelled value lies inside [[y_min, y_max]], so a
    response that follows the model passes, as does every measurement
    inside the window, for the CRP script and for the others. *)
Theorem transient_window_contains_model (i : inputs) (tr y0 y_ss y_meas : R) :
  0 < tr -> 0 <= duration i -> 0 <= mra_y i -> 0 <= mra_T i ->
  y_start_of i = Some y0 ->
  tr_targ i = Some y_ss ->
  tr_meas i = Some y_meas ->
  exists o,
    open_loop_resp_criteria i tr = Ok o
    /\ y_min o <= y_target o <= y_max o
    /\ (y_min o <= y_meas <= y_max o -> tr_90_pf o = Pass)
    /\ (y_meas = y_target o -> tr_90_pf o = Pass).
Proof.
  intros Htr Hdur Hmy HmT Hys Hss Hm. unfold y_start_of in Hys.
  assert (Hne : tr <> 0) by rlra.
  unfold open_loop_resp_criteria. rewrite Hys, Hss, Hm.
  rewrite calculate_open_loop_value_eq by exact Hne. cbn [mbind result_bind].
  assert (Hd0 : 0 <= 1.5 * 0) by rlra.
  assert (Hz0 : duration i = 0 -> 1.5 * 0 = 0) by (intros _; ring).
  assert (Hd1 : 0 <= 1.5 * (mra_T i * duration i)).
  { assert (0 <= mra_T i * duration i) by (apply Rmult_le_pos; assumption). rlra. }
  assert (Hz1 : duration i = 0 -> 1.5 * (mra_T i * duration i) = 0)
    by (intros ->; ring).
  destruct (model_window y0 y_ss (duration i) (1.5 * 0) tr Htr Hdur Hd0 Hz0)
    as [Wi0 Wd0].
  destruct (model_window y0 y_ss (duration i) (1.5 * (mra_T i * duration i)) tr
              Htr Hdur Hd1 Hz1) as [Wi1 Wd1].
  cbv beta in Wi0, Wd0, Wi1, Wd1.
  destruct (String.eqb (script_name i) CRP) eqn:Hcrp;
    destruct (Rle_dec y0 _) as [Hinc|Hdec];
    repeat (rewrite calculate_open_loop_value_eq by exact Hne;
            cbn [mbind result_bind]);
    (eexists; split; [reflexivity|]);
    cbn [y_target increasing y_min y_max tr_90_pf];
    try specialize (Wi0 Hinc); try specialize (Wi1 Hinc);
    try specialize (Wd0 Hdec); try specialize (Wd1 Hdec);
    (split; [split; rlra|]);
    (split; [intros [Hb1 Hb2]|intros ->]);
    repeat match goal with
           | |- context [Rle_dec ?a ?b] => destruct (Rle_dec a b)
           end; try reflexivity; exfalso; rlra.
Qed.

End OpenLoopMore.

Section OpenLoopMoreExamples.
#[local] Open Scope R_scope.

(** From 0 to 100 with [tr = 10] s, after 5 s. *)
Lemma open_loop_value_never_overshoots_example :
  exists y,
    OpenLoop.calculate_open_loop_value (Some 0) (Some 100) 5 10 = Ok y
    /\ Rmin 0 100 <= y <= Rmax 0 100
    /\ (forall d', 5 <= d' ->
        exists y', OpenLoop.calculate_open_loop_value (Some 0) (Some 100) d' 10 = Ok y'
                   /\ Rabs (y' - 100) <= Rabs (y - 100)).
Proof.
  apply (open_loop_value_never_overshoots 0 100 5 10); rlra.
Defined.

(** A Volt-Var step from 0 to 4400 var, evaluated after 5 s. *)
Lemma transient_window_of_a_volt_var_step :
  exists o,
    OpenLoop.open_loop_resp_criteria
      (OpenLoop.mk_inputs VV 500 0.01 5 (Some 0) (Some 4400) (Some 4000)) 1 = Ok o
    /\ OpenLoop.y_min o <= OpenLoop.y_target o <= OpenLoop.y_max o
    /\ (OpenLoop.y_min o <= 4000 <= OpenLoop.y_max o ->
        OpenLoop.tr_90_pf o = OpenLoop.Pass)
    /\ (4000 = OpenLoop.y_target o -> OpenLoop.tr_90_pf o = OpenLoop.Pass).
Proof.
  apply (transient_window_contains_model
           (OpenLoop.mk_inputs VV 500 0.01 5 (Some 0) (Some 4400) (Some 4000))
           1 0 4400 4000);
    first [reflexivity | cbn; rlra].
Defined.

End OpenLoopMoreExamples.

(** ** DataLogging: the measurement aggregation *)

Section Measurements.
Import DataLogging.

Lemma label_of (phases type_meas' root : string) :
  getitem type_meas type_meas' = Ok root ->
  get_measurement_label phases type_meas'
  = if String.eqb (lower phases) "single phase" then
      Ok [(root ++ "_1")%string]
    else if String.eqb (lower phases) "split phase" then
      Ok [(root ++ "_1")%string; (root ++ "_2")%string]
    else if String.eqb (lower phases) "three phase" then
      Ok [(root ++ "_1")%string; (root ++ "_2")%string; (root ++ "_3")%string]
    else Raise UnboundLocalError.
Proof. intros H. unfold get_measurement_label. now rewrite H. Qed.

(** The total of a quantity over the phases: the sum of the phase
    readings, for the voltage their mean, for the frequency the reading of
    the first phase; rounded to four decimals. *)
Theorem measurement_total_aggregates (data : gmap string Q)
    (type_meas' root : string) (a b c : Q) :
  getitem type_meas type_meas' = Ok root ->
  data !! (root ++ "_1")%string = Some a ->
  data !! (root ++ "_2")%string = Some b ->
  data !! (root ++ "_3")%string = Some c ->
  get_measurement_total "Three phase" data type_meas'
  = Ok (Some (py_round (if String.eqb type_meas' "V" then (a + b + c) / 3
                        else if String.eqb type_meas' "F" then a
                        else a + b + c) 4))
  /\ get_measurement_total "Split phase" data type_meas'
     = Ok (Some (py_round (if String.eqb type_meas' "V" then (a + b) / 2
                           else if String.eqb type_meas' "F" then a
                           else a + b) 4))
  /\ get_measurement_total "Single phase" data type_meas'
     = Ok (Some (py_round (if String.eqb type_meas' "V" then a / 1 else a) 4)).
Proof.
  intros Hroot Ha Hb Hc.
  unfold get_measurement_total.
  rewrite !(label_of _ _ _ Hroot).
  change (lower "Three phase") with "three phase"%string.
  change (lower "Split phase") with "split phase"%string.
  change (lower "Single phase") with "single phase"%string.
  cbn [String.eqb Ascii.eqb Bool.eqb mbind result_bind label_item lookup
       list_lookup].
  rewrite Ha, Hb, Hc. cbn [add_readings mbind result_bind].
  repeat split;
    (destruct (String.eqb type_meas' "V"); [reflexivity|]);
    (destruct (String.eqb type_meas' "F"); reflexivity).
Qed.

(** When the aggregation fails.  A reading missing for one phase makes
    the three-phase total [None], for the frequency too, although only the
    first phase is used for it.  A phase configuration written in another
    case than ["Single phase"], ["Split phase"] or ["Three phase"] passes
    the label lookup but not the aggregation: every total is [None],
    except the frequency, which is still the first reading.  A
    configuration that is none of the three names in any case, or an
    unknown quantity, raises an exception instead of returning [None]. *)
Theorem measurement_total_failures (data : gmap string Q)
    (type_meas' root : string) :
  getitem type_meas type_meas' = Ok root ->
  (data !! (root ++ "_1")%string = None
   \/ data !! (root ++ "_2")%string = None
   \/ data !! (root ++ "_3")%string = None ->
   get_measurement_total "Three phase" data type_meas' = Ok None)
  /\ (forall phases,
      In (lower phases) ["single phase"; "split phase"; "three phase"]%string ->
      ~ In phases ["Single phase"; "Split phase"; "Three phase"]%string ->
      get_measurement_total phases data type_meas'
      = if String.eqb type_meas' "F"
        then Ok (x ← data !! (root ++ "_1")%string; Some (py_round x 4))
        else Ok None)
  /\ (forall phases,
      ~ In (lower phases) ["single phase"; "split phase"; "three phase"]%string ->
      get_measurement_total phases data type_meas' = Raise UnboundLocalError)
  /\ (forall phases unknown,
      type_meas !! unknown = None ->
      get_measurement_total phases data unknown = Raise KeyError).
Proof.
  intros Hroot. split; [|split; [|split]].
  - intros Hmiss. unfold get_measurement_total.
    rewrite !(label_of _ _ _ Hroot).
    change (lower "Three phase") with "three phase"%string.
    cbn [String.eqb Ascii.eqb Bool.eqb mbind result_bind label_item lookup
         list_lookup].
    destruct (data !! (root ++ "_1")%string) as [a|]; [|reflexivity].
    destruct (data !! (root ++ "_2")%string) as [b|]; [|reflexivity].
    destruct (data !! (root ++ "_3")%string) as [c|]; [|reflexivity].
    exfalso. destruct Hmiss as [H|[H|H]]; discriminate H.
  - intros phases Hlow Hexact. unfold get_measurement_total.
    rewrite !(label_of _ _ _ Hroot).
    assert (H1 : String.eqb phases "Single phase" = false)
      by (apply eqb_false_of_ne; intros ->; apply Hexact; cbn; tauto).
    assert (H2 : String.eqb phases "Split phase" = false)
      by (apply eqb_false_of_ne; intros ->; apply Hexact; cbn; tauto).
    assert (H3 : String.eqb phases "Three phase" = false)
      by (apply eqb_false_of_ne; intros ->; apply Hexact; cbn; tauto).
    rewrite H1, H2, H3.
    cbn [In] in Hlow.
    destruct Hlow as [<- | [<- | [<- | [] ] ] ];
      cbn [String.eqb Ascii.eqb Bool.eqb mbind result_bind label_item lookup
           list_lookup div_reading];
      (destruct (String.eqb_spec type_meas' "V") as [->|_]; [reflexivity|]);
      (destruct (String.eqb type_meas' "F"); [|reflexivity]);
      cbn [mbind result_bind];
      destruct (data !! (root ++ "_1")%string); reflexivity.
  - intros phases Hlow. unfold get_measurement_total.
    rewrite !(label_of _ _ _ Hroot).
    cbn [In] in Hlow.
    destruct (String.eqb_spec (lower phases) "single phase") as [E|_];
      [exfalso; apply Hlow; rewrite E; tauto|].
    destruct (String.eqb_spec (lower phases) "split phase") as [E|_];
      [exfalso; apply Hlow; rewrite E; tauto|].
    destruct (String.eqb_spec (lower phases) "three phase") as [E|_];
      [exfalso; apply Hlow; rewrite E; tauto|].
    reflexivity.
  - intros phases unknown Hun. unfold get_measurement_total, get_measurement_label,
      getitem. rewrite Hun. reflexivity.
Qed.

End Measurements.

(** The totals of a three-phase dataset: 3000 W of active power, a mean
    voltage of 120 V and the frequency of the first phase. *)
Lemma measurement_total_three_phase_example :
  let data : gmap string Q :=
    list_to_map
      [ ("AC_P_1", 1000); ("AC_P_2", 1100); ("AC_P_3", 900) ]%string in
  DataLogging.get_measurement_total "Three phase" data "P"
  = Ok (Some (py_round (if String.eqb "P" "V" then (1000 + 1100 + 900) / 3
                        else if String.eqb "P" "F" then 1000
                        else 1000 + 1100 + 900) 4))
  /\ DataLogging.get_measurement_total "Split phase" data "P"
     = Ok (Some (py_round (if String.eqb "P" "V" then (1000 + 1100) / 2
                           else if String.eqb "P" "F" then 1000
                           else 1000 + 1100) 4))
  /\ DataLogging.get_measurement_total "Single phase" data "P"
     = Ok (Some (py_round (if String.eqb "P" "V" then 1000 / 1 else 1000) 4)).
Proof.
  intros data.
  apply (measurement_total_aggregates data "P" "AC_P" 1000 1100 900);
    reflexivity.
Defined.

(** A dataset without the third phase, and a configuration in lower
    case. *)
Lemma measurement_total_failures_example :
  let data : gmap string Q :=
    list_to_map [ ("AC_FREQ_1", 60); ("AC_FREQ_2", 60) ]%string in
  (data !! "AC_FREQ_1"%string = None \/ data !! "AC_FREQ_2"%string = None
   \/ data !! "AC_FREQ_3"%string = None ->
   DataLogging.get_measurement_total "Three phase" data "F" = Ok None)
  /\ DataLogging.get_measurement_total "three phase" data "F"
     = Ok (Some (py_round 60 4))
  /\ DataLogging.get_measurement_total "3 phase" data "F" = Raise UnboundLocalError
  /\ DataLogging.get_measurement_total "Three phase" data "S" = Raise KeyError.
Proof.
  intros data.
  destruct (measurement_total_failures data "F" "AC_FREQ" eq_refl)
    as (H1 & H2 & H3 & H4).
  split; [exact H1|]. split; [|split].
  - rewrite (H2 "three phase"%string); [reflexivity|cbn; tauto|].
    cbn. intros [H|[H|[H|[]]]]; discriminate H.
  - apply H3. cbn. intros [H|[H|[H|[]]]]; discriminate H.
  - apply H4. reflexivity.
Defined.

(** ** The step sequences *)

Section StepSequencesProps.
Import EutParameters ActiveFunction StepSequences.

(** One assignment, while the generator hands out the labels from ['G']. *)
Lemma set_next_at (value : Q) (d : OrderedDict) (k : nat) :
  set_next value (d, UtilParameters.state_at 71 k)
  = Ok (od_set d (UtilParameters.label_at 71 k) value,
        UtilParameters.state_at 71 (S k)).
Proof.
  unfold set_next. cbn [fst snd].
  rewrite get_step_label_from by lia. reflexivity.
Qed.

Lemma od_set_fresh (pre suf : OrderedDict) (k : string) (x v : Q) :
  ~ In k (map fst pre) ->
  od_set (pre ++ (k, x) :: suf) k v = pre ++ (k, v) :: suf.
Proof.
  induction pre as [|[k' v'] tl IH]; intros Hk; cbn [od_set app].
  - now rewrite String.eqb_refl.
  - cbn [map fst In] in Hk.
    destruct (String.eqb_spec k' k) as [->|_]; [tauto|].
    rewrite IH by tauto. reflexivity.
Qed.

Lemma assoc_fresh (pre suf : OrderedDict) (k : string) (x : Q) :
  ~ In k (map fst pre) ->
  assoc (pre ++ (k, x) :: suf) k = Some x.
Proof.
  induction pre as [|[k' v'] tl IH]; intros Hk; cbn [assoc app].
  - now rewrite String.eqb_refl.
  - cbn [map fst In] in Hk.
    destruct (String.eqb_spec k' k) as [->|_]; [tauto|].
    apply IH. tauto.
Qed.

(** A loop whose body assigns [g x] to the visited key maps [g] over the
    values. *)
Lemma for_items_map (body : OrderedDict -> string -> Q -> OrderedDict)
    (g : Q -> Q) (d : OrderedDict) :
  (forall pre suf k x, ~ In k (map fst pre) ->
     body (pre ++ (k, x) :: suf) k x = pre ++ (k, g x) :: suf) ->
  NoDup (map fst d) ->
  for_items body d = map (fun kv => (kv.1, g kv.2)) d.
Proof.
  intros Hbody Hnd. unfold for_items.
  set (f := fun kv : string * Q => (kv.1, g kv.2)).
  assert (G : forall suf pre, NoDup (map fst (pre ++ suf)) ->
             map fst (map f pre) = map fst pre ->
             foldl (fun d' k => match assoc d' k with
                                | Some x => body d' k x
                                | None => d'
                                end) (map f pre ++ suf) (map fst suf)
             = map f pre ++ map f suf).
  { induction suf as [|[k x] tl IH]; intros pre Hn Hf; cbn [map foldl fst].
    - reflexivity.
    - assert (Hk : ~ In k (map fst (map f pre))).
      { rewrite Hf. rewrite map_app in Hn. cbn [map fst] in Hn.
        apply NoDup_app in Hn as (_ & Hdis & _).
        intros Hin. apply (Hdis k); [now apply list_elem_of_In|].
        apply list_elem_of_In. now left. }
      rewrite assoc_fresh by exact Hk.
      rewrite Hbody by exact Hk.
      assert (E1 : map f (pre ++ [(k, x)]) ++ tl = map f pre ++ (k, g x) :: tl).
      { rewrite map_app, <- app_assoc. reflexivity. }
      rewrite <- E1. rewrite IH.
      + rewrite map_app, <- app_assoc. reflexivity.
      + rewrite <- app_assoc. exact Hn.
      + rewrite !map_app. cbn [map]. now rewrite Hf. }
  apply (G d []); [exact Hnd|reflexivity].
Qed.

Lemma round_and_limit_body (lo hi : Q) (n : N) pre suf k x :
  ~ In k (map fst pre) ->
  round_and_limit lo hi n (pre ++ (k, x) :: suf) k x
  = pre ++ (k, limited lo hi n x) :: suf.
Proof.
  intros Hk. unfold round_and_limit, limited.
  rewrite od_set_fresh by exact Hk.
  destruct (Qlt_le_dec hi x); [now rewrite od_set_fresh|].
  destruct (Qlt_le_dec x lo); [now rewrite od_set_fresh|reflexivity].
Qed.

Lemma limited_bounds (lo hi : Q) (n : N) (x : Q) :
  lo <= hi -> lo <= py_round lo n -> py_round hi n <= hi ->
  lo <= limited lo hi n x <= hi.
Proof.
  intros Hlh Hlo Hhi. unfold limited.
  destruct (Qlt_le_dec hi x); [split; [exact Hlh|apply Qle_refl]|].
  destruct (Qlt_le_dec x lo); [split; [apply Qle_refl|exact Hlh]|].
  split.
  - apply Qle_trans with (py_round lo n); [exact Hlo|now apply py_round_mono].
  - apply Qle_trans with (py_round hi n); [now apply py_round_mono|exact Hhi].
Qed.

Lemma limited_proper (lo hi : Q) (n : N) (x y : Q) :
  x == y -> limited lo hi n x == limited lo hi n y.
Proof.
  intros E. unfold limited.
  destruct (Qlt_le_dec hi x), (Qlt_le_dec hi y); try (exfalso; qlra);
    [reflexivity|].
  destruct (Qlt_le_dec x lo), (Qlt_le_dec y lo); try (exfalso; qlra);
    [reflexivity|].
  apply Qle_antisym; apply py_round_mono; qlra.
Qed.

Ltac run_steps :=
  repeat (rewrite set_next_at; cbn [mbind result_bind]);
  repeat match goal with
         | |- context [UtilParameters.label_at 71 ?k] =>
             let l := eval vm_compute in (UtilParameters.label_at 71 k) in
             change (UtilParameters.label_at 71 k) with l
         end;
  cbn [od_set od_del String.eqb Ascii.eqb Bool.eqb mbind result_bind].

Ltac distinct_labels :=
  cbn [map fst];
  apply (bool_decide_unpack _); vm_compute; exact I.

Lemma set_step_label_G (u : UtilParameters.t) :
  UtilParameters.set_step_label (Some "G"%string) u
  = Ok (UtilParameters.state_at 71 0).
Proof. reflexivity. Qed.

Lemma create_vw_dict_steps_eval (self : ActiveFunction.t) (u : UtilParameters.t)
    (c : gmap string Q) (v1 v2 : Q) :
  get_params self VW = Ok c ->
  getitem c "V1"%string = Ok v1 -> getitem c "V2"%string = Ok v2 ->
  let a_v := 0.01 * v_nom (eut self) * 1.5 in
  let lim := limited (v_low (eut self)) (v_high (eut self)) 2 in
  create_vw_dict_steps self u "Normal"
  = Ok (Some
          (if Qlt_le_dec (v_high (eut self)) v2 then
             [ ("Step G", lim (v_low (eut self) + a_v));
               ("Step H", lim (v1 - a_v));
               ("Step I", lim (v1 + a_v));
               ("Step J", lim ((v2 + v1) / 2));
               ("Step P", lim ((v1 + v2) / 2));
               ("Step Q", lim (v1 + a_v));
               ("Step R", lim (v1 - a_v));
               ("Step S", lim (v_low (eut self) + a_v)) ]%string
           else
             [ ("Step G", lim (v_low (eut self) + a_v));
               ("Step H", lim (v1 - a_v));
               ("Step I", lim (v1 + a_v));
               ("Step J", lim ((v2 + v1) / 2));
               ("Step K", lim (v2 - a_v));
               ("Step L", lim (v2 + a_v));
               ("Step M", lim (v_high (eut self) - a_v));
               ("Step N", lim (v2 + a_v));
               ("Step O", lim (v2 - a_v));
               ("Step P", lim ((v1 + v2) / 2));
               ("Step Q", lim (v1 + a_v));
               ("Step R", lim (v1 - a_v));
               ("Step S", lim (v_low (eut self) + a_v)) ]%string),
        UtilParameters.state_at 71 13).
Proof.
  intros Hc Hv1 Hv2 a_v lim.
  unfold create_vw_dict_steps. cbn [String.eqb Ascii.eqb Bool.eqb].
  rewrite set_step_label_G.
  cbn [mbind result_bind]. rewrite Hc, MRA_V. cbn [mbind result_bind].
  rewrite Hv1, Hv2. cbn [mbind result_bind].
  run_steps. fold a_v.
  destruct (Qlt_le_dec (v_high (eut self)) v2);
    cbn [od_set od_del String.eqb Ascii.eqb Bool.eqb mbind result_bind];
    (rewrite (for_items_map _ lim);
       [reflexivity | intros; now apply round_and_limit_body | distinct_labels]).
Qed.

(** The Volt-Watt steps.  In mode ['Normal'] the thirteen steps G to S
    are produced, or the eight steps G to J and P to S when [V2] lies
    above the highest voltage of the unit.  With limits that round to
    themselves and are in order, every step voltage lies within the
    limits of the unit, and the way back mirrors the way out.  In every
    other mode nothing is produced and the label generator is left
    untouched. *)
Theorem volt_watt_steps (self : ActiveFunction.t) (u : UtilParameters.t)
    (c : gmap string Q) (v1 v2 : Q) :
  get_params self VW = Ok c ->
  getitem c "V1"%string = Ok v1 -> getitem c "V2"%string = Ok v2 ->
  v_low (eut self) <= v_high (eut self) ->
  v_low (eut self) <= py_round (v_low (eut self)) 2 ->
  py_round (v_high (eut self)) 2 <= v_high (eut self) ->
  (exists d u',
     create_vw_dict_steps self u "Normal" = Ok (Some d, u')
     /\ map fst d
        = (if Qlt_le_dec (v_high (eut self)) v2
           then ["Step G"; "Step H"; "Step I"; "Step J";
                 "Step P"; "Step Q"; "Step R"; "Step S"]
           else ["Step G"; "Step H"; "Step I"; "Step J"; "Step K"; "Step L";
                 "Step M"; "Step N"; "Step O"; "Step P"; "Step Q"; "Step R";
                 "Step S"])%string
     /\ Forall (fun kv => v_low (eut self) <= kv.2 <= v_high (eut self)) d
     /\ Forall2 Qeq (map snd d) (rev (map snd d)))
  /\ (forall mode, mode <> "Normal"%string ->
      create_vw_dict_steps self u mode = Ok (None, u)).
Proof.
  intros Hc Hv1 Hv2 Hlh Hlo Hhi. split.
  - rewrite (create_vw_dict_steps_eval self u c v1 v2 Hc Hv1 Hv2).
    eexists _, _. split; [reflexivity|].
    destruct (Qlt_le_dec (v_high (eut self)) v2);
      (split; [reflexivity|]);
      (split; [repeat (apply Forall_cons; split; [now apply limited_bounds|]);
               constructor|]);
      cbn [map snd rev app];
      repeat (apply Forall2_cons; split;
              [apply limited_proper; first [reflexivity | field]|]);
      constructor.
  - intros mode Hmode. unfold create_vw_dict_steps.
    now rewrite (eqb_false_of_ne _ _ Hmode).
Qed.

(** The Volt-Var steps.  In the normal mode the 26 steps G to Z and AA
    to FF are produced; the steps J, K, M and N are removed when [V4] lies
    above the highest voltage of the unit, the steps V, W, Y and Z when
    [V1] lies below the lowest.  With limits that round to themselves and
    are in order, every step voltage lies within the limits of the unit.
    Step X, which holds [V1 - a_v], and step AA, which holds [V1 + a_v],
    are never removed.  The modes ['Vref-test'] and ['Imbalanced grid']
    produce nothing, but still reset the label generator to ['G']. *)
Theorem volt_var_steps (self : ActiveFunction.t) (u : UtilParameters.t)
    (running_test_script_parameters : gmap string Q) (ul1547 : option string)
    (c : gmap string Q) (v_ref v1 v2 v3 v4 : Q) :
  getitem running_test_script_parameters "VREF"%string = Ok v_ref ->
  get_params self VV = Ok c ->
  getitem c "V1"%string = Ok v1 -> getitem c "V2"%string = Ok v2 ->
  getitem c "V3"%string = Ok v3 -> getitem c "V4"%string = Ok v4 ->
  v_low (eut self) <= v_high (eut self) ->
  v_low (eut self) <= py_round (v_low (eut self)) 2 ->
  py_round (v_high (eut self)) 2 <= v_high (eut self) ->
  let a_v := 0.01 * v_nom (eut self) * 1.5 in
  let lim := limited (v_low (eut self)) (v_high (eut self)) 2 in
  (forall mode, mode <> "Vref-test"%string -> mode <> "Imbalanced grid"%string ->
   exists d u',
     create_vv_dict_steps self u running_test_script_parameters mode ul1547
       = Ok (Some d, u')
     /\ map fst d
        = concat
            [ ["Step G"; "Step H"; "Step I"];
              if Qlt_le_dec (v_high (eut self)) v4 then [] else ["Step J"; "Step K"];
              ["Step L"];
              if Qlt_le_dec (v_high (eut self)) v4 then [] else ["Step M"; "Step N"];
              ["Step O"; "Step P"; "Step Q"; "Step R"; "Step S"; "Step T"; "Step U"];
              if Qlt_le_dec v1 (v_low (eut self)) then [] else ["Step V"; "Step W"];
              ["Step X"];
              if Qlt_le_dec v1 (v_low (eut self)) then [] else ["Step Y"; "Step Z"];
              ["Step AA"; "Step BB"; "Step CC"; "Step DD"; "Step EE"; "Step FF"]
            ]%string
     /\ Forall (fun kv => v_low (eut self) <= kv.2 <= v_high (eut self)) d
     /\ assoc d "Step X" = Some (lim (v1 - a_v))
     /\ assoc d "Step AA" = Some (lim (v1 + a_v)))
  /\ (forall mode, mode = "Vref-test"%string \/ mode = "Imbalanced grid"%string ->
      create_vv_dict_steps self u running_test_script_parameters mode ul1547
      = Ok (None, UtilParameters.state_at 71 0)).
Proof.
  intros Hr Hc Hv1 Hv2 Hv3 Hv4 Hlh Hlo Hhi a_v lim. split.
  - intros mode Hm1 Hm2.
    unfold create_vv_dict_steps.
    rewrite Hr, MRA_V. cbn [mbind result_bind]. rewrite Hc.
    cbn [mbind result_bind].
    rewrite set_step_label_G. cbn [mbind result_bind].
    rewrite (eqb_false_of_ne _ _ Hm1), (eqb_false_of_ne _ _ Hm2).
    rewrite Hv1, Hv2, Hv3, Hv4. cbn [mbind result_bind].
    destruct ul1547; run_steps;
      (rewrite (for_items_map _ lim);
         [ | intros; now apply round_and_limit_body | distinct_labels]);
      cbn [map fst snd]; fold a_v;
      destruct (Qlt_le_dec (v_high (eut self)) v4);
      destruct (Qlt_le_dec v1 (v_low (eut self)));
      cbn [od_del String.eqb Ascii.eqb Bool.eqb mbind result_bind];
      (eexists _, _; split; [reflexivity|]);
      (split; [reflexivity|]);
      (split; [repeat (apply Forall_cons; split; [now apply limited_bounds|]);
               constructor|]);
      split; reflexivity.
  - intros mode Hmode. unfold create_vv_dict_steps.
    rewrite Hr, MRA_V. cbn [mbind result_bind]. rewrite Hc.
    cbn [mbind result_bind].
    rewrite set_step_label_G. cbn [mbind result_bind].
    destruct Hmode as [-> | ->]; reflexivity.
Qed.

Lemma round_and_limit_above_body (hi : Q) (n : N) pre suf k x :
  ~ In k (map fst pre) ->
  round_and_limit_above hi n (pre ++ (k, x) :: suf) k x
  = pre ++ (k, if Qlt_le_dec hi x then hi else py_round x n) :: suf.
Proof.
  intros Hk. unfold round_and_limit_above.
  rewrite od_set_fresh by exact Hk.
  destruct (Qlt_le_dec hi x); [now rewrite od_set_fresh|reflexivity].
Qed.

Lemma round_and_limit_below_body (lo : Q) (n : N) pre suf k x :
  ~ In k (map fst pre) ->
  round_and_limit_below lo n (pre ++ (k, x) :: suf) k x
  = pre ++ (k, if Qlt_le_dec x lo then lo else py_round x n) :: suf.
Proof.
  intros Hk. unfold round_and_limit_below.
  rewrite od_set_fresh by exact Hk.
  destruct (Qlt_le_dec x lo); [now rewrite od_set_fresh|reflexivity].
Qed.

(** The Frequency-Watt steps.  Mode ['Above'] gives the nine steps G to
    O, none above [f_max] when [f_max] is not below its rounding to three
    decimals; mode ['Below'] the eight steps G to N, none below [f_min]
    when [f_min] is not above its rounding to three decimals (a step
    limited to [f_min] is [f_min] itself, any other is rounded, and the
    rounding of a value just above [f_min] can fall below it); both
    sequences start from the same label whatever was handed out before.
    Any other mode raises [KeyError]. *)
Theorem frequency_watt_steps (self : ActiveFunction.t) (u : UtilParameters.t) :
  (forall (c : gmap string Q) (dbf f_small : Q),
      get_params self FW = Ok c ->
      getitem c "dbf"%string = Ok dbf -> getitem c "f_small"%string = Ok f_small ->
      (py_round (f_max (eut self)) 3 <= f_max (eut self) ->
       exists d u',
         create_fw_dict_steps self u "Above" = Ok (d, u')
         /\ map fst d = ["Step G"; "Step H"; "Step I"; "Step J"; "Step K";
                         "Step L"; "Step M"; "Step N"; "Step O"]%string
         /\ Forall (fun kv => kv.2 <= f_max (eut self)) d)
      /\ (f_min (eut self) <= py_round (f_min (eut self)) 3 ->
          exists d u',
            create_fw_dict_steps self u "Below" = Ok (d, u')
            /\ map fst d = ["Step G"; "Step H"; "Step I"; "Step J"; "Step K";
                            "Step L"; "Step M"; "Step N"]%string
            /\ Forall (fun kv => f_min (eut self) <= kv.2) d))
  /\ (forall mode, mode <> "Above"%string -> mode <> "Below"%string ->
      create_fw_dict_steps self u mode = Raise KeyError).
Proof.
  split.
  - intros c dbf f_small Hc Hdbf Hfs.
    assert (Hup : forall x, py_round (f_max (eut self)) 3 <= f_max (eut self) ->
              (if Qlt_le_dec (f_max (eut self)) x then f_max (eut self)
               else py_round x 3) <= f_max (eut self)).
    { intros x Hr. destruct (Qlt_le_dec (f_max (eut self)) x); [apply Qle_refl|].
      apply Qle_trans with (py_round (f_max (eut self)) 3);
        [now apply py_round_mono|exact Hr]. }
    assert (Hdn : forall x, f_min (eut self) <= py_round (f_min (eut self)) 3 ->
              f_min (eut self)
              <= (if Qlt_le_dec x (f_min (eut self)) then f_min (eut self)
                  else py_round x 3)).
    { intros x Hr. destruct (Qlt_le_dec x (f_min (eut self))); [apply Qle_refl|].
      apply Qle_trans with (py_round (f_min (eut self)) 3);
        [exact Hr|now apply py_round_mono]. }
    split; intros Hr;
      unfold create_fw_dict_steps;
      rewrite MRA_F; cbn [mbind result_bind]; rewrite Hc; cbn [mbind result_bind];
      rewrite set_step_label_G; cbn [mbind result_bind String.eqb Ascii.eqb Bool.eqb];
      rewrite Hdbf, Hfs; cbn [mbind result_bind]; run_steps.
    + rewrite (for_items_map _ (fun x => if Qlt_le_dec (f_max (eut self)) x
                                         then f_max (eut self) else py_round x 3));
        [ | intros; now apply round_and_limit_above_body | distinct_labels].
      eexists _, _. split; [reflexivity|]. split; [reflexivity|].
      repeat (apply Forall_cons; split; [now apply Hup|]). constructor.
    + rewrite (for_items_map _ (fun x => if Qlt_le_dec x (f_min (eut self))
                                         then f_min (eut self) else py_round x 3));
        [ | intros; now apply round_and_limit_below_body | distinct_labels].
      eexists _, _. split; [reflexivity|]. split; [reflexivity|].
      repeat (apply Forall_cons; split; [now apply Hdn|]). constructor.
  - intros mode Ha Hb. unfold create_fw_dict_steps.
    rewrite MRA_F. cbn [mbind result_bind].
    assert (Hg : (exists c, get_params self FW = Ok c)
                 \/ get_params self FW = Raise KeyError).
    { unfold get_params, getitem.
      destruct (param self !! FW) as [curves|]; cbn [mbind result_bind];
        [|now right].
      destruct (curves !! curve self); [left; eexists; reflexivity|now right]. }
    destruct Hg as [[c ->] | ->]; [|reflexivity]. cbn [mbind result_bind].
    rewrite set_step_label_G. cbn [mbind result_bind].
    now rewrite (eqb_false_of_ne _ _ Ha), (eqb_false_of_ne _ _ Hb).
Qed.

(** The Watt-Var steps: the nineteen steps G to Y, up from [p_min] to
    [p_rated] and back by the same values in reverse order.  The second
    step is never below [p_min] and the ninth never above [p_rated]. *)
Theorem watt_var_steps (self : ActiveFunction.t) (u : UtilParameters.t)
    (c : gmap string Q) (p1 p2 p3 : Q) :
  get_params self WV = Ok c ->
  getitem c "P1"%string = Ok p1 -> getitem c "P2"%string = Ok p2 ->
  getitem c "P3"%string = Ok p3 ->
  exists d u' lowest highest,
    create_wv_dict_steps self u = Ok (d, u')
    /\ map fst d
       = ["Step G"; "Step H"; "Step I"; "Step J"; "Step K"; "Step L"; "Step M";
          "Step N"; "Step O"; "Step P"; "Step Q"; "Step R"; "Step S"; "Step T";
          "Step U"; "Step V"; "Step W"; "Step X"; "Step Y"]%string
    /\ map snd d = rev (map snd d)
    /\ assoc d "Step G" = Some (p_min (eut self))
    /\ assoc d "Step H" = Some lowest /\ p_min (eut self) <= lowest
    /\ assoc d "Step O" = Some highest /\ highest <= p_rated (eut self)
    /\ assoc d "Step P" = Some (p_rated (eut self)).
Proof.
  intros Hc Hp1 Hp2 Hp3.
  unfold create_wv_dict_steps.
  rewrite Hc. cbn [mbind result_bind].
  rewrite set_step_label_G. cbn [mbind result_bind]. rewrite MRA_P.
  cbn [mbind result_bind]. rewrite Hp1, Hp2, Hp3. cbn [mbind result_bind].
  assert (Hif : forall (A B : Prop) (b : {A} + {B}) (x y : Q),
             (if b then Ok x else Ok y) = (Ok (if b then x else y) : result Q))
    by (intros A B [|]; reflexivity).
  rewrite set_next_at. cbn [mbind result_bind].
  rewrite !Hif. cbn [mbind result_bind].
  set (a_p := 0.05 * s_rated (eut self) * 1.5).
  set (lowest := if Qlt_le_dec (p1 - a_p) (p_min (eut self))
                 then p_min (eut self) else p1 - a_p).
  set (highest := if Qlt_le_dec (p_rated (eut self)) (p3 + a_p)
                  then p_rated (eut self) else p3 + a_p).
  run_steps.
  eexists _, _, lowest, highest. split; [reflexivity|].
  split; [reflexivity|]. split; [reflexivity|]. split; [reflexivity|].
  split; [reflexivity|].
  split.
  { unfold lowest.
    destruct (Qlt_le_dec (p1 - a_p) (p_min (eut self))); [apply Qle_refl|assumption]. }
  split; [reflexivity|].
  split; [|reflexivity].
  unfold highest.
  destruct (Qlt_le_dec (p_rated (eut self)) (p3 + a_p)); [apply Qle_refl|assumption].
Qed.

End StepSequencesProps.

(** The Volt-Watt steps of the example unit: [V2 = 132] V does not exceed
    the highest voltage, so all thirteen steps are produced. *)
Lemma volt_watt_steps_10kW :
  (exists d u',
     StepSequences.create_vw_dict_steps (run_10kW 1 None 120 60 5000)
       UtilParameters.init "Normal" = Ok (Some d, u')
     /\ map fst d
        = ["Step G"; "Step H"; "Step I"; "Step J"; "Step K"; "Step L";
           "Step M"; "Step N"; "Step O"; "Step P"; "Step Q"; "Step R";
           "Step S"]%string
     /\ Forall (fun kv => 105.6 <= kv.2 <= 132) d
     /\ Forall2 Qeq (map snd d) (rev (map snd d)))
  /\ (forall mode, mode <> "Normal"%string ->
      StepSequences.create_vw_dict_steps (run_10kW 1 None 120 60 5000)
        UtilParameters.init mode = Ok (None, UtilParameters.init)).
Proof.
  eapply (volt_watt_steps (run_10kW 1 None 120 60 5000) UtilParameters.init
            _ 127.20 132.00);
    first [reflexivity | now vm_compute].
Defined.

(** The Volt-Var steps of the example unit with a reference voltage of
    1 p.u.: no curve point lies outside the limits, so all 26 steps are
    produced. *)
Lemma volt_var_steps_10kW :
  (forall mode, mode <> "Vref-test"%string -> mode <> "Imbalanced grid"%string ->
   exists d u',
     StepSequences.create_vv_dict_steps (run_10kW 1 None 120 60 5000)
       UtilParameters.init {[ "VREF"%string := 1 ]} mode None = Ok (Some d, u')
     /\ map fst d
        = ["Step G"; "Step H"; "Step I"; "Step J"; "Step K"; "Step L"; "Step M";
           "Step N"; "Step O"; "Step P"; "Step Q"; "Step R"; "Step S"; "Step T";
           "Step U"; "Step V"; "Step W"; "Step X"; "Step Y"; "Step Z"; "Step AA";
           "Step BB"; "Step CC"; "Step DD"; "Step EE"; "Step FF"]%string
     /\ Forall (fun kv => 105.6 <= kv.2 <= 132) d
     /\ assoc d "Step X" = Some (limited 105.6 132 2 (110.40 - 0.01 * 120 * 1.5))
     /\ assoc d "Step AA" = Some (limited 105.6 132 2 (110.40 + 0.01 * 120 * 1.5)))
  /\ (forall mode, mode = "Vref-test"%string \/ mode = "Imbalanced grid"%string ->
      StepSequences.create_vv_dict_steps (run_10kW 1 None 120 60 5000)
        UtilParameters.init {[ "VREF"%string := 1 ]} mode None
      = Ok (None, UtilParameters.state_at 71 0)).
Proof.
  eapply (volt_var_steps (run_10kW 1 None 120 60 5000) UtilParameters.init
            {[ "VREF"%string := 1 ]} None _ 1 110.40 117.60 122.40 129.60);
    first [reflexivity | now vm_compute].
Defined.

(** The Watt-Var steps of the example unit. *)
Lemma watt_var_steps_10kW :
  exists d u' lowest highest,
    StepSequences.create_wv_dict_steps (run_10kW_wv 1 120 60 5000)
      UtilParameters.init = Ok (d, u')
    /\ map fst d
       = ["Step G"; "Step H"; "Step I"; "Step J"; "Step K"; "Step L"; "Step M";
          "Step N"; "Step O"; "Step P"; "Step Q"; "Step R"; "Step S"; "Step T";
          "Step U"; "Step V"; "Step W"; "Step X"; "Step Y"]%string
    /\ map snd d = rev (map snd d)
    /\ assoc d "Step G" = Some 2000
    /\ assoc d "Step H" = Some lowest /\ 2000 <= lowest
    /\ assoc d "Step O" = Some highest /\ highest <= 10000
    /\ assoc d "Step P" = Some 10000.
Proof.
  eapply (watt_var_steps (run_10kW_wv 1 120 60 5000) UtilParameters.init);
    first [reflexivity | now vm_compute].
Defined.

(** The Frequency-Watt steps of the example unit. *)
Lemma frequency_watt_steps_10kW :
  (exists d u',
     StepSequences.create_fw_dict_steps (run_10kW 1 None 120 60 5000)
       UtilParameters.init "Above" = Ok (d, u')
     /\ map fst d = ["Step G"; "Step H"; "Step I"; "Step J"; "Step K";
                     "Step L"; "Step M"; "Step N"; "Step O"]%string
     /\ Forall (fun kv => kv.2 <= 66) d)
  /\ (exists d u',
     StepSequences.create_fw_dict_steps (run_10kW 1 None 120 60 5000)
       UtilParameters.init "Below" = Ok (d, u')
     /\ map fst d = ["Step G"; "Step H"; "Step I"; "Step J"; "Step K";
                     "Step L"; "Step M"; "Step N"]%string
     /\ Forall (fun kv => 56 <= kv.2) d)
  /\ StepSequences.create_fw_dict_steps (run_10kW 1 None 120 60 5000)
       UtilParameters.init "Nominal" = Raise KeyError.
Proof.
  destruct (frequency_watt_steps (run_10kW 1 None 120 60 5000) UtilParameters.init)
    as [Hsteps Hother].
  split; [|split].
  - eapply (proj1 (Hsteps _ _ _ eq_refl eq_refl eq_refl)). now vm_compute.
  - eapply (proj2 (Hsteps _ _ _ eq_refl eq_refl eq_refl)). now vm_compute.
  - apply Hother; discriminate.
Defined.

(** The three interpolated targets of the example unit never rise. *)
Lemma interpolated_targets_never_rise_10kW :
  (forall a b, a <= b ->
   exists ta tb,
     CriteriaValidation.update_target_value isqrt (run_10kW_wv 1 120 60 5000)
       VV (Some a) None = Ok (Some ta)
     /\ CriteriaValidation.update_target_value isqrt (run_10kW_wv 1 120 60 5000)
          VV (Some b) None = Ok (Some tb)
     /\ tb <= ta)
  /\ (forall a b, a <= b ->
   exists ta tb,
     CriteriaValidation.update_target_value isqrt (run_10kW_wv 1 120 60 5000)
       VW (Some a) None = Ok (Some ta)
     /\ CriteriaValidation.update_target_value isqrt (run_10kW_wv 1 120 60 5000)
          VW (Some b) None = Ok (Some tb)
     /\ tb <= ta)
  /\ (forall a b, a <= b ->
   exists ta tb,
     CriteriaValidation.update_target_value isqrt (run_10kW_wv 1 120 60 5000)
       WV (Some a) None = Ok (Some ta)
     /\ CriteriaValidation.update_target_value isqrt (run_10kW_wv 1 120 60 5000)
          WV (Some b) None = Ok (Some tb)
     /\ tb <= ta).
Proof.
  destruct (interpolated_targets_never_rise isqrt (run_10kW_wv 1 120 60 5000) None)
    as (Hvv & Hvw & Hwv); [discriminate|].
  split; [|split].
  - eapply Hvv; first [reflexivity | now vm_compute | (vm_compute; intuition discriminate)].
  - eapply Hvw; first [reflexivity | now vm_compute | (vm_compute; intuition discriminate)].
  - eapply Hwv; first [reflexivity | now vm_compute | (vm_compute; intuition discriminate)].
Defined.

(** ** The laws of the tables that [set_params] builds *)

Section TableLaws.
Import EutParameters ActiveFunction CriteriaValidation.
Variable math_sqrt : Q -> Q.

Lemma get_params_of_table (self : ActiveFunction.t) (function : string)
    (curves : gmap Z (gmap string Q)) :
  param self !! function = Some curves ->
  forall c, curves !! curve self = Some c ->
  get_params self function = Ok c.
Proof.
  intros Hf c Hc. unfold get_params, getitem. rewrite Hf.
  cbn [mbind result_bind]. now rewrite Hc.
Qed.

Lemma three_curves {A} (a b c : A) (n : Z) :
  n = 1%Z \/ n = 2%Z \/ n = 3%Z ->
  exists x, (<[3%Z := c]> (<[2%Z := b]> (<[1%Z := a]> ∅)) : gmap Z A) !! n = Some x
            /\ (x = a \/ x = b \/ x = c).
Proof.
  intros [-> | [-> | ->] ]; eexists; (split; [reflexivity|]); tauto.
Qed.

(** For every unit with non-negative ratings that does not absorb power
    and whose [p_min] is at most half of [p_rated], the tables built by
    [VoltVar.set_params], [VoltWatt.set_params] and [WattVar.set_params]
    give, for each of the three curves and every power level [pwr >= 0],
    targets that never rise: the Volt-Var and Volt-Watt target with the
    voltage, the Watt-Var target with the active power. *)
Theorem set_params_targets_never_rise (e : EutParameters.t) (vr : Q)
    (param0 : gmap string (gmap Z (gmap string Q))) (n : Z)
    (pwr max_pwr_lim : Q) (sd step_dict : option (gmap string Q))
    (label : option string) (meas : string -> result (option Q)) :
  var_rated e = Some vr ->
  absorb e <> Some "Yes"%string ->
  0 <= v_nom e -> 0 <= s_rated e -> 0 <= vr -> 0 <= p_rated e ->
  p_min e <= 0.5 * p_rated e ->
  n = 1%Z \/ n = 2%Z \/ n = 3%Z ->
  0 <= pwr ->
  exists param1,
    VoltVar.set_params e param0 = Ok param1
    /\ forall function a b,
         In function [VV; VW; WV] -> a <= b ->
         exists ta tb,
           update_target_value math_sqrt
             (ActiveFunction.mk e pwr max_pwr_lim n
                (WattVar.set_params e false (VoltWatt.set_params e param1))
                step_dict label meas) function (Some a) sd = Ok (Some ta)
           /\ update_target_value math_sqrt
                (ActiveFunction.mk e pwr max_pwr_lim n
                   (WattVar.set_params e false (VoltWatt.set_params e param1))
                   step_dict label meas) function (Some b) sd = Ok (Some tb)
           /\ tb <= ta.
Proof.
  intros Hvr Habs Hv Hs Hr Hp Hmin Hn Hpwr.
  unfold VoltVar.set_params. rewrite Hvr. cbn [VoltVar.mul_opt mbind result_bind].
  eexists. split; [reflexivity|].
  intros function a b Hf Hab.
  assert (Hno : bool_decide (absorb e = Some "Yes"%string) = false)
    by (now apply bool_decide_eq_false).
  assert (Hp2 : forall x, x <= p_rated e -> py_int x <= py_round (p_rated e) 2).
  { intros x Hx. unfold py_int at 1.
    rewrite <- py_round_integer. apply py_round_mono.
    apply (py_int_le x (p_rated e) Hx Hp). }
  cbn [In] in Hf.
  destruct Hn as [-> | [-> | ->] ];
    match goal with
    | |- context [ActiveFunction.mk e pwr max_pwr_lim ?n ?p step_dict label meas] =>
        set (self := ActiveFunction.mk e pwr max_pwr_lim n p step_dict label meas)
    end;
    destruct (interpolated_targets_never_rise math_sqrt self sd Hpwr)
      as (Hvv & Hvw & Hwv);
    destruct Hf as [<- | [<- | [<- | [] ] ] ].
  all: try (eapply Hvv; [| | | | | | | | | |exact Hab];
    [ unfold get_params, self; cbn [param curve];
      unfold WattVar.set_params, VoltWatt.set_params;
      rewrite getitem_insert_ne by discriminate;
      rewrite getitem_insert_ne by discriminate;
      rewrite getitem_insert_eq; cbn [mbind result_bind];
      rewrite ?getitem_insert_ne by lia; apply getitem_insert_eq
    | rewrite getitem_list_to_map; reflexivity ..
    | cbn [assoc String.eqb Ascii.eqb Bool.eqb descending_from];
      repeat split; apply py_round_mono; qlra ]).
  all: try (eapply Hvw; [| | | | | |exact Hab];
    [ unfold get_params, self; cbn [param curve];
      unfold WattVar.set_params, VoltWatt.set_params;
      rewrite getitem_insert_ne by discriminate;
      rewrite getitem_insert_eq; cbn [mbind result_bind];
      rewrite ?getitem_insert_ne by lia; apply getitem_insert_eq
    | rewrite getitem_list_to_map; reflexivity ..
    | cbn [assoc String.eqb Ascii.eqb Bool.eqb descending_from];
      rewrite Hno;
      (split; [apply py_round_mono; qlra|]);
      (split; [|exact I]);
      destruct (Qlt_le_dec (0.2 * p_rated e) (p_min e)); apply Hp2; qlra ]).
  all: eapply Hwv; [| | | | | | | | | |exact Hab];
    [ unfold self; cbn [param]; unfold WattVar.set_params;
      apply getitem_insert_eq
    | unfold self; cbn [curve];
      rewrite ?getitem_insert_ne by lia; apply getitem_insert_eq
    | rewrite getitem_list_to_map; reflexivity ..
    | cbn [assoc String.eqb Ascii.eqb Bool.eqb descending_from];
      repeat split; try apply py_round_mono;
      try (destruct (Qlt_le_dec (0.2 * p_rated e) (p_min e))); qlra
    | unfold self; cbn [eut]; qlra ].
Qed.

End TableLaws.

(** The tables of the example unit, curve 2, at half power. *)
Lemma set_params_targets_never_rise_10kW :
  exists param1,
    VoltVar.set_params eut_10kW ∅ = Ok param1
    /\ forall function a b,
         In function [VV; VW; WV] -> a <= b ->
         exists ta tb,
           CriteriaValidation.update_target_value isqrt
             (ActiveFunction.mk eut_10kW 0.5 100 2
                (WattVar.set_params eut_10kW false
                   (VoltWatt.set_params eut_10kW param1))
                None None (readings 120 60 5000)) function (Some a) None
           = Ok (Some ta)
           /\ CriteriaValidation.update_target_value isqrt
                (ActiveFunction.mk eut_10kW 0.5 100 2
                   (WattVar.set_params eut_10kW false
                      (VoltWatt.set_params eut_10kW param1))
                   None None (readings 120 60 5000)) function (Some b) None
              = Ok (Some tb)
           /\ tb <= ta.
Proof.
  apply (set_params_targets_never_rise isqrt eut_10kW 4400 ∅ 2 0.5 100 None None
           None (readings 120 60 5000));
    first [reflexivity | discriminate | (right; left; reflexivity)].
Defined.

(** ** Imbalanced voltages *)

Section Imbalance.
Import ImbalanceComponent.

(** The two imbalance cases.  For each of the four configurations and a
    nominal voltage [v_nom >= 0], case A hands the grid simulator a raised
    phase A and two equally lowered phases B and C, case B the opposite,
    with the angles of B and C opposite to each other; the average of the
    three magnitudes that is returned lies at or below the rounded nominal
    voltage in case A and at or above it in case B.  Any other
    configuration, the default [None] included, configures nothing: a
    fresh object then raises [KeyError] when the average is asked for. *)
Theorem imbalance_cases (v_nom : Q) (self : ImbalanceComponent.t) :
  (forall cfg,
      In cfg ["std"; "fix_mag"; "fix_ang"; "not_fix"]%string ->
      0 <= v_nom ->
      exists hi lo lo' x y avg_a avg_b,
        set_grid_asymmetric (set_imbalance_config v_nom (Some cfg) self) true
          "case_a" "AVG_3PH_RMS"
        = Ok (Some ([hi; lo; lo], [0.0; - x; x]), Some avg_a)
        /\ set_grid_asymmetric (set_imbalance_config v_nom (Some cfg) self) true
             "case_b" "AVG_3PH_RMS"
           = Ok (Some ([lo'; hi; hi], [0.0; - y; y]), Some avg_b)
        /\ lo <= v_nom <= hi /\ lo' <= v_nom
        /\ avg_a <= py_round v_nom 2 <= avg_b)
  /\ (forall cfg,
      ~ (exists s, cfg = Some s
                   /\ In s ["std"; "fix_mag"; "fix_ang"; "not_fix"]%string) ->
      set_imbalance_config v_nom cfg self = self)
  /\ (forall case,
      set_grid_asymmetric (set_imbalance_config v_nom None init) false case
        "AVG_3PH_RMS" = Raise KeyError).
Proof.
  split; [|split].
  - intros cfg Hfix Hv. cbn [In] in Hfix.
    assert (Hcase : (cfg = "std"%string \/ cfg = "fix_ang"%string)
                    \/ (cfg = "fix_mag"%string \/ cfg = "not_fix"%string))
      by (destruct Hfix as [<- | [<- | [<- | [<- | [] ] ] ] ]; tauto).
    destruct Hcase as [Hc | Hc];
      [ exists (if String.eqb cfg "std" then 1.07 * v_nom else 1.08 * v_nom),
               (0.91 * v_nom),
               (if String.eqb cfg "std" then 0.91 * v_nom else 0.9 * v_nom),
               120.0, 120.0
      | exists (if String.eqb cfg "fix_mag" then 1.07 * v_nom else 1.08 * v_nom),
               (0.91 * v_nom),
               (if String.eqb cfg "fix_mag" then 0.91 * v_nom else 0.9 * v_nom),
               126.59, 114.5 ];
      destruct Hc as [-> | ->];
      unfold set_imbalance_config, set_grid_asymmetric;
      repeat match goal with
             | |- context [bool_decide (?a = ?b)] =>
                 first [ rewrite (bool_decide_eq_true_2 (a = b) eq_refl)
                       | rewrite (bool_decide_eq_false_2 (a = b)) by discriminate ]
             end;
      cbn [mag ang String.eqb Ascii.eqb Bool.eqb];
      repeat (rewrite ?getitem_insert_eq;
              rewrite ?getitem_insert_ne by discriminate);
      cbn [mbind result_bind].
    all: eexists _, _;
      (split; [reflexivity|]); (split; [reflexivity|]);
      (split; [split; qlra|]); (split; [qlra|]);
      unfold py_sum; cbn [foldl];
      split; apply py_round_mono;
      (apply Qle_shift_div_r || apply Qle_shift_div_l); qlra.
  - intros cfg Hfix. unfold set_imbalance_config.
    repeat match goal with
           | |- context [bool_decide (cfg = Some ?s)] =>
               destruct (bool_decide_reflect (cfg = Some s)) as [E|_];
               [exfalso; apply Hfix; exists s; split; [exact E|cbn; tauto]|]
           end.
    reflexivity.
  - intros case. reflexivity.
Qed.

End Imbalance.

(** The standard configuration of a 120 V unit. *)
Lemma imbalance_cases_120V :
  exists hi lo lo' x y avg_a avg_b,
    ImbalanceComponent.set_grid_asymmetric
      (ImbalanceComponent.set_imbalance_config 120 (Some "std"%string)
         ImbalanceComponent.init) true "case_a" "AVG_3PH_RMS"
    = Ok (Some ([hi; lo; lo], [0.0; - x; x]), Some avg_a)
    /\ ImbalanceComponent.set_grid_asymmetric
         (ImbalanceComponent.set_imbalance_config 120 (Some "std"%string)
            ImbalanceComponent.init) true "case_b" "AVG_3PH_RMS"
       = Ok (Some ([lo'; hi; hi], [0.0; - y; y]), Some avg_b)
    /\ lo <= 120 <= hi /\ lo' <= 120
    /\ avg_a <= py_round 120 2 <= avg_b.
Proof.
  apply (proj1 (imbalance_cases 120 ImbalanceComponent.init) "std"%string).
  - cbn. tauto.
  - discriminate.
Defined.

(** ** The priority steps *)

Section PrioritySteps.
Import Prioritization.

Lemma step_lookup_other (v f p : Q) (k : string) :
  k <> "V"%string -> k <> "F"%string -> k <> "P"%string ->
  step v f p !! k = None.
Proof.
  intros HV HF HP. unfold step.
  rewrite !lookup_insert_ne by congruence. apply lookup_empty.
Qed.

(** The eight priority steps.  For a unit with a rated reactive power
    [q], the Volt-Var steps all carry the reactive power [-0.44 * q] (the
    test on the counter holds at every step), the Watt-Var steps carry
    [0.05 * q] except the last, which carries [0], the constant reactive
    power steps carry [q] and the constant power factor steps the power
    factor [0.9] and no reactive power; any other function gets the bare
    steps.  Without a rated reactive power the Volt-Var and Watt-Var steps
    raise [TypeError] and the constant reactive power steps carry [None].
    Voltage, frequency and active power of a step never depend on the
    function. *)
Theorem priority_steps (self : EutParameters.t) :
  (forall q, EutParameters.var_rated self = Some q ->
     exists vv wv,
       create_pri_dict_steps self VV = Ok vv
       /\ map (fun d => d !! "Q"%string) vv = replicate 8 (Some (Some (-0.44 * q)))
       /\ create_pri_dict_steps self WV = Ok wv
       /\ map (fun d => d !! "Q"%string) wv
          = replicate 7 (Some (Some (0.05 * q))) ++ [Some (Some 0)])
  /\ (EutParameters.var_rated self = None ->
      create_pri_dict_steps self VV = Raise TypeError
      /\ create_pri_dict_steps self WV = Raise TypeError)
  /\ (exists crp cpf,
       create_pri_dict_steps self CRP = Ok crp
       /\ map (fun d => d !! "Q"%string) crp
          = replicate 8 (Some (EutParameters.var_rated self))
       /\ create_pri_dict_steps self CPF = Ok cpf
       /\ map (fun d => (d !! "PF"%string, d !! "Q"%string)) cpf
          = replicate 8 (Some (Some 0.9), None))
  /\ (forall function,
       ~ In function [VV; CPF; CRP; WV] ->
       create_pri_dict_steps self function = Ok (step_dicts self))
  /\ (forall function steps,
       create_pri_dict_steps self function = Ok steps ->
       Forall2 (fun d0 d => d !! "V"%string = d0 !! "V"%string
                            /\ d !! "F"%string = d0 !! "F"%string
                            /\ d !! "P"%string = d0 !! "P"%string)
         (step_dicts self) steps).
Proof.
  split; [|split; [|split; [|split] ] ].
  - intros q Hq. unfold create_pri_dict_steps. rewrite Hq.
    cbn [String.eqb Ascii.eqb Bool.eqb VV WV CPF CRP step_dicts vv_loop wv_loop
         rmul_opt Z.ltb Z.eqb Z.compare Z.add Pos.compare Pos.compare_cont
         Pos.add Pos.succ orb mbind result_bind].
    eexists _, _. split; [reflexivity|]. split.
    { cbn [map replicate]. now rewrite !lookup_insert_eq. }
    split; [reflexivity|].
    cbn [map replicate app]. now rewrite !lookup_insert_eq.
  - intros Hq. unfold create_pri_dict_steps. rewrite Hq. split; reflexivity.
  - unfold create_pri_dict_steps.
    cbn [String.eqb Ascii.eqb Bool.eqb VV WV CPF CRP].
    eexists _, _. split; [reflexivity|]. split.
    { cbn [map step_dicts replicate]. now rewrite !lookup_insert_eq. }
    split; [reflexivity|].
    cbn [map step_dicts replicate].
    rewrite !lookup_insert_eq, !lookup_insert_ne by discriminate.
    now rewrite !step_lookup_other by discriminate.
  - intros function Hn. unfold create_pri_dict_steps.
    cbn [In] in Hn.
    destruct (String.eqb_spec function VV) as [->|_]; [tauto|].
    destruct (String.eqb_spec function CPF) as [->|_]; [tauto|].
    destruct (String.eqb_spec function CRP) as [->|_]; [tauto|].
    destruct (String.eqb_spec function WV) as [->|_]; [tauto|].
    reflexivity.
  - intros function steps. unfold create_pri_dict_steps.
    destruct (String.eqb function VV);
      [|destruct (String.eqb function CPF);
        [|destruct (String.eqb function CRP);
          [|destruct (String.eqb function WV)] ] ].
    all: destruct (EutParameters.var_rated self) as [q|];
      cbn [step_dicts vv_loop wv_loop map
           rmul_opt Z.ltb Z.eqb Z.compare Z.add Pos.compare Pos.compare_cont
           Pos.add Pos.succ orb mbind result_bind];
      intros H; inversion H; subst; clear H.
    all: repeat constructor;
      rewrite ?lookup_insert_ne by discriminate; reflexivity.
Qed.

End PrioritySteps.

(** ** The result summary *)

Section SummaryColumns.
Import TimeResponse.

Lemma row_loop_length (str_float : Q -> string) (d : gmap string value)
    (xs ys : list string) (last_iter : Z) (l cells : list string) :
  row_loop str_float d xs ys last_iter l = Ok cells ->
  length cells
  = (length (flat_map (name_columns xs ys) l)
     + 3 * length (List.filter
                     (fun m => bool_decide (m ∈ xs) && bool_decide (m ∈ ys)) l))%nat.
Proof.
  revert cells. induction l as [|m tl IH]; intros cells H; cbn in H.
  - inversion H. reflexivity.
  - destruct (row_cells str_float d xs ys last_iter m) as [c|e] eqn:Ec;
      cbn in H; [|discriminate].
    destruct (row_loop str_float d xs ys last_iter tl) as [r|e] eqn:Er;
      cbn in H; [|discriminate].
    inversion H; subst; clear H.
    specialize (IH r eq_refl).
    cbn [flat_map List.filter]. rewrite !length_app, IH.
    assert (Hc : length c
                 = (length (name_columns xs ys m)
                    + 3 * Nat.b2n (bool_decide (m ∈ xs) && bool_decide (m ∈ ys)))%nat).
    { unfold row_cells in Ec. unfold name_columns.
      destruct (getitem d (m +:+ "_TR_" +:+ str_int last_iter)); cbn in Ec;
        [|discriminate].
      destruct (bool_decide (m ∈ xs)), (bool_decide (m ∈ ys)); cbn in Ec |- *;
        repeat match type of Ec with
               | context [getitem ?a ?b] => destruct (getitem a b); cbn in Ec
               | context [round_value ?a ?b] => destruct (round_value a b); cbn in Ec
               end; try discriminate; inversion Ec; reflexivity. }
    rewrite Hc.
    destruct (bool_decide (m ∈ xs) && bool_decide (m ∈ ys)); cbn [Nat.b2n length]; lia.
Qed.

Lemma row_data_length (str_float : Q -> string) (self : t) (row : list string) :
  row_data str_float self = Returns row ->
  length row = (length (summary_names self) + 3 * length (both_criteria self))%nat.
Proof.
  intros H. unfold row_data in H. unfold summary_names, both_criteria.
  destruct (FIRST_ITER self) as [a|]; cbn in H; [|discriminate].
  destruct (LAST_ITER self) as [b|]; cbn in H; [|discriminate].
  destruct (criteria_mode self) as [ [m0 m1] m2].
  destruct (row_loop str_float (tr_value self) (x_criteria self)
              (y_criteria self).*1 b (meas_values self)) as [cells|e] eqn:Ecells.
  2:{ destruct m0, m1, m2; cbn in H;
      repeat match type of H with
             | context [getitem ?a ?b] => destruct (getitem a b); cbn in H
             | context [last_item ?a] => destruct (last_item a); cbn in H
             end; discriminate. }
  apply row_loop_length in Ecells.
  destruct m0, m1, m2; cbn in H;
    repeat match type of H with
           | context [getitem ?a ?b] => destruct (getitem a b); cbn in H
           | context [last_item ?a] => destruct (last_item a); cbn in H
           end; try discriminate;
    destruct (current_step_label self); cbn in H;
    try discriminate; inversion H; subst; clear H;
    cbn [app length]; rewrite !length_app, Ecells; cbn [length]; lia.
Qed.

End SummaryColumns.

(** The columns of the result summary.  A row that [write_rslt_sum]
    returns has as many cells as [set_result_summary_name] has column
    names, plus three for every measured value that is both a step value
    and a criterion: the names treat such a value as a step value only,
    the row writes both groups.  So names and cells match exactly when no
    measured value is both.  The points handed to the data acquisition by
    [set_sc_points] are the names without the verdict columns, with one
    column ([event]) in place of two ([STEP], [FILENAME]). *)
Theorem summary_columns (str_float : Q -> string) (self : TimeResponse.t)
    (row : list string) :
  TimeResponse.row_data str_float self = TimeResponse.Returns row ->
  length row
  = (length (TimeResponse.summary_names self) + 3 * length (both_criteria self))%nat
  /\ (length row = length (TimeResponse.summary_names self)
      <-> both_criteria self = [])
  /\ length (TimeResponse.summary_names self)
     = (length (TimeResponse.set_sc_points self) + 1 + enabled_modes self)%nat
  /\ TimeResponse.write_rslt_sum str_float self
     = TimeResponse.Returns (String.concat "," row +:+ TimeResponse.newline).
Proof.
  intros H.
  pose proof (row_data_length str_float self row H) as Hlen.
  split; [exact Hlen|]. split; [|split].
  - rewrite Hlen. destruct (both_criteria self); cbn [length]; split;
      intros; try reflexivity; try discriminate; lia.
  - unfold TimeResponse.summary_names, TimeResponse.set_sc_points, enabled_modes.
    destruct (TimeResponse.criteria_mode self) as [ [m0 m1] m2].
    assert (E : forall l,
      length (flat_map (TimeResponse.name_columns (TimeResponse.x_criteria self)
                          (TimeResponse.y_criteria self).*1) l)
      = length (flat_map (TimeResponse.sc_columns (TimeResponse.x_criteria self)
                            (TimeResponse.y_criteria self).*1) l)).
    { induction l as [|m tl IH]; [reflexivity|].
      cbn [flat_map]. rewrite !length_app, IH. f_equal.
      unfold TimeResponse.name_columns, TimeResponse.sc_columns.
      rewrite !length_app. cbn [length]. lia. }
    rewrite !length_app, E.
    destruct m0, m1, m2; cbn [length Nat.b2n]; lia.
  - unfold TimeResponse.write_rslt_sum. rewrite H. reflexivity.
Qed.

(** The Volt-Var store after the accuracy criterion: eleven names,
    eleven cells. *)
Lemma summary_columns_volt_var :
  exists row,
    TimeResponse.row_data str_fraction volt_var_assessed = TimeResponse.Returns row
    /\ length row
       = (length (TimeResponse.summary_names volt_var_assessed)
          + 3 * length (both_criteria volt_var_assessed))%nat
    /\ (length row = length (TimeResponse.summary_names volt_var_assessed)
        <-> both_criteria volt_var_assessed = [])
    /\ length (TimeResponse.summary_names volt_var_assessed)
       = (length (TimeResponse.set_sc_points volt_var_assessed) + 1
          + enabled_modes volt_var_assessed)%nat
    /\ TimeResponse.write_rslt_sum str_fraction volt_var_assessed
       = TimeResponse.Returns (String.concat "," row +:+ TimeResponse.newline).
Proof.
  eexists. split; [vm_compute; reflexivity|].
  apply (summary_columns str_fraction volt_var_assessed).
  vm_compute; reflexivity.
Defined.

(** ** The accuracy criterion *)

Section StoreKeys.
Import TimeResponse.

#[local] Abbreviation chars := list_ascii_of_string.

Lemma chars_app (s u : string) : chars (s +:+ u) = chars s ++ chars u.
Proof. induction s as [|c s IH]; simpl; [reflexivity|now f_equal]. Qed.

Lemma chars_inj (s u : string) : chars s = chars u -> s = u.
Proof.
  intros H. rewrite <- (string_of_list_ascii_of_string s),
    <- (string_of_list_ascii_of_string u). now rewrite H.
Qed.

Lemma pretty_N_char_numeric (x : N) : numeric (pretty.pretty_N_char x).
Proof.
  unfold pretty.pretty_N_char, numeric.
  repeat case_match; split; discriminate.
Qed.

Lemma pretty_N_go_chars (x : N) :
  forall s, exists pre,
    chars (pretty.pretty_N_go x s) = pre ++ chars s
    /\ Forall numeric pre /\ ((0 < x)%N -> pre <> []).
Proof.
  induction (N.lt_wf_0 x) as [x _ IH]. intros s.
  destruct (N.eq_dec x 0%N) as [->|Hx].
  - exists []. rewrite pretty.pretty_N_go_0. split; [reflexivity|].
    split; [constructor|lia].
  - rewrite pretty.pretty_N_go_step by lia.
    destruct (IH (x `div` 10)%N ltac:(apply N.div_lt; lia)
                (String (pretty.pretty_N_char (x `mod` 10)) s))
      as (pre & E & Hpre & _).
    exists (pre ++ [pretty.pretty_N_char (x `mod` 10)%N]).
    split; [rewrite E; cbn; now rewrite <- app_assoc|].
    split.
    + apply Forall_app. split; [exact Hpre|].
      constructor; [apply pretty_N_char_numeric|constructor].
    + intros _ Hnil. now apply app_eq_nil in Hnil as [_ Hnil].
Qed.

Lemma str_int_chars (z : Z) :
  Forall numeric (chars (str_int z)) /\ chars (str_int z) <> [].
Proof.
  assert (Hpos : forall p, Forall numeric (chars (pretty.pretty (N.pos p)))
                           /\ chars (pretty.pretty (N.pos p)) <> []).
  { intros p. unfold pretty.pretty, pretty.pretty_N.
    destruct (decide (N.pos p = 0%N)) as [E|_]; [discriminate E|].
    destruct (pretty_N_go_chars (N.pos p) "") as (pre & E & Hpre & Hne).
    rewrite E. cbn [list_ascii_of_string]. rewrite app_nil_r.
    split; [exact Hpre|]. apply Hne. lia. }
  unfold str_int. destruct z as [|p|p].
  - split; [|discriminate].
    repeat constructor; discriminate.
  - apply Hpos.
  - change (pretty.pretty (Z.neg p)) with ("-" +:+ pretty.pretty (N.pos p)).
    rewrite chars_app. destruct (Hpos p) as [H1 _].
    split; [|discriminate].
    apply Forall_app. split; [|exact H1].
    repeat constructor; discriminate.
Qed.

Lemma split_unique {A} (c : A) :
  forall l1 l2 r1 r2 : list A,
    l1 ++ c :: r1 = l2 ++ c :: r2 -> ~ In c r1 -> ~ In c r2 ->
    l1 = l2 /\ r1 = r2.
Proof.
  induction l1 as [|x l1 IH]; intros [|y l2] r1 r2 H H1 H2; cbn in H.
  - inversion H. split; reflexivity.
  - inversion H; subst. exfalso. apply H1. apply in_or_app. right. now left.
  - inversion H; subst. exfalso. apply H2. apply in_or_app. right. now left.
  - inversion H; subst. destruct (IH l2 r1 r2) as [-> ->]; auto.
Qed.

(** The key of a reading, without its suffix. *)
#[local] Abbreviation K y i := (y +:+ "_TR_" +:+ str_int i)%string.

Lemma chars_K (y : string) (i : Z) :
  chars (K y i) = (chars y ++ ["_"; "T"; "R"]%char) ++ "_"%char :: chars (str_int i).
Proof. rewrite !chars_app. cbn. now rewrite <- app_assoc. Qed.

Lemma PF_key_inj (y y' : string) (i i' : Z) :
  K y i +:+ "_PF" = K y' i' +:+ "_PF" -> y = y' /\ i = i'.
Proof.
  intros H. apply (f_equal chars) in H.
  rewrite !(chars_app (K _ _)) in H. apply app_inv_tail in H.
  rewrite !chars_K in H.
  assert (Hno : forall z, ~ In "_"%char (chars (str_int z))).
  { intros z Hin. destruct (str_int_chars z) as [Hall _].
    rewrite List.Forall_forall in Hall. now destruct (Hall _ Hin). }
  apply split_unique in H as [H1 H2]; [|apply Hno|apply Hno].
  apply app_inv_tail in H1. split; [now apply chars_inj|].
  apply chars_inj in H2. unfold str_int in H2.
  now apply (inj pretty.pretty) in H2.
Qed.

Lemma last_char_ne (l l' : list ascii) (c c' : ascii) :
  c <> c' -> l ++ [c] <> l' ++ [c'].
Proof. intros Hc H. apply app_inj_tail in H as [_ H]. contradiction. Qed.

Lemma PF_key_ne_MIN (y y' : string) (i i' : Z) :
  K y' i' +:+ "_MIN" <> K y i +:+ "_PF".
Proof.
  intros H. apply (f_equal chars) in H. rewrite !(chars_app (K _ _)) in H.
  change (chars "_MIN") with (["_"; "M"; "I"]%char ++ ["N"%char]) in H.
  change (chars "_PF") with (["_"; "P"]%char ++ ["F"%char]) in H.
  rewrite !app_assoc in H. revert H. apply last_char_ne. discriminate.
Qed.

Lemma PF_key_ne_MAX (y y' : string) (i i' : Z) :
  K y' i' +:+ "_MAX" <> K y i +:+ "_PF".
Proof.
  intros H. apply (f_equal chars) in H. rewrite !(chars_app (K _ _)) in H.
  change (chars "_MAX") with (["_"; "M"; "A"]%char ++ ["X"%char]) in H.
  change (chars "_PF") with (["_"; "P"]%char ++ ["F"%char]) in H.
  rewrite !app_assoc in H. revert H. apply last_char_ne. discriminate.
Qed.

Lemma PF_key_ne_K (y y' : string) (i i' : Z) :
  K y' i' <> K y i +:+ "_PF".
Proof.
  intros H. apply (f_equal chars) in H. rewrite (chars_app (K y i)) in H.
  rewrite (chars_K y' i') in H.
  destruct (str_int_chars i') as [Hall Hne].
  destruct (exists_last Hne) as (l & c & E). rewrite E in H, Hall.
  apply Forall_app in Hall as [_ Hc]. inversion Hc as [|? ? [_ HcF] _]; subst.
  change (chars "_PF") with (["_"; "P"]%char ++ ["F"%char]) in H.
  change ("_"%char :: l ++ [c]) with (("_"%char :: l) ++ [c]) in H.
  rewrite !app_assoc in H. revert H. now apply last_char_ne.
Qed.

(** One assessment, when the three values are numbers. *)
Lemma assess_numbers (d : gmap string value) (y : string) (i : Z) (mn v mx : Q) :
  d !! (K y i +:+ "_MIN") = Some (VNum mn) ->
  d !! (K y i) = Some (VNum v) ->
  d !! (K y i +:+ "_MAX") = Some (VNum mx) ->
  assess d y i = Ok (<[K y i +:+ "_PF" := VStr (verdict mn v mx)]> d).
Proof.
  intros Hmn Hv Hmx. unfold assess, getitem.
  rewrite Hmn, Hv. cbn [mbind result_bind le_value]. unfold verdict.
  destruct (Qle_bool mn v); cbn [andb];
    rewrite ?Hmx; cbn [mbind result_bind le_value];
    rewrite (lookup_insert_ne _ _ (K y i +:+ "_MIN"))
      by (intros H; symmetry in H; revert H; apply PF_key_ne_MIN);
    rewrite (lookup_insert_ne _ _ (K y i))
      by (intros H; symmetry in H; revert H; apply PF_key_ne_K);
    rewrite (lookup_insert_ne _ _ (K y i +:+ "_MAX"))
      by (intros H; symmetry in H; revert H; apply PF_key_ne_MAX);
    rewrite Hmn, Hv, Hmx, lookup_insert_eq; reflexivity.
Qed.


#[local] Abbreviation cond m1 m2 a b :=
  (fun i : Z => (a =? i)%Z && m1 || (b =? i)%Z && m2).

Lemma store_verdicts_other (num : string -> Z -> Q * Q * Q) (k : string) :
  forall pairs d,
    (forall p, In p pairs -> k <> K p.1 p.2 +:+ "_PF") ->
    store_verdicts num d pairs !! k = d !! k.
Proof.
  induction pairs as [|p tl IH]; intros d H; [reflexivity|].
  cbn [store_verdicts foldl]. fold (store_verdicts num).
  change (store_verdicts num
            (<[K p.1 p.2 +:+ "_PF"
               := VStr (let '(mn, v, mx) := num p.1 p.2 in verdict mn v mx)]> d)
            tl !! k = d !! k).
  rewrite IH by (intros q Hq; apply H; now right).
  apply lookup_insert_ne. intros E. apply (H p); [now left|now symmetry].
Qed.

Lemma store_verdicts_app (num : string -> Z -> Q * Q * Q) d l1 l2 :
  store_verdicts num d (l1 ++ l2) = store_verdicts num (store_verdicts num d l1) l2.
Proof. unfold store_verdicts. apply foldl_app. Qed.

Lemma store_verdicts_in (num : string -> Z -> Q * Q * Q) (y : string) (i : Z) :
  forall pairs d,
    In (y, i) pairs ->
    store_verdicts num d pairs !! (K y i +:+ "_PF")
    = Some (VStr (let '(mn, v, mx) := num y i in verdict mn v mx)).
Proof.
  induction pairs as [|p tl IH] using rev_ind; intros d Hin; [destruct Hin|].
  rewrite store_verdicts_app. cbn [store_verdicts foldl].
  destruct (decide (K p.1 p.2 +:+ "_PF" = K y i +:+ "_PF")) as [E|E].
  - rewrite E. rewrite lookup_insert_eq.
    apply PF_key_inj in E as [-> ->]. reflexivity.
  - rewrite lookup_insert_ne by exact E.
    apply IH. apply in_app_or in Hin as [Hin|[E'|[] ] ]; [exact Hin|].
    exfalso. apply E. now rewrite E'.
Qed.

Lemma Z_upto_bounds (n : nat) :
  forall lo z, In z (Z_upto lo n) -> (lo <= z < lo + Z.of_nat n)%Z.
Proof.
  induction n as [|n IH]; intros lo z H; [destruct H|].
  cbn [Z_upto] in H. destruct H as [<-|H]; [lia|].
  apply IH in H. lia.
Qed.

Lemma iter_loop_numbers (m1 m2 : bool) (a b : Z) (y : string)
    (num : string -> Z -> Q * Q * Q) (d0 : gmap string value) :
  forall iters d,
    (forall k, (forall y' i', k <> K y' i' +:+ "_PF") -> d !! k = d0 !! k) ->
    (forall i, In i iters -> cond m1 m2 a b i = true ->
       d0 !! (K y i +:+ "_MIN") = Some (VNum (num y i).1.1)
       /\ d0 !! (K y i) = Some (VNum (num y i).1.2)
       /\ d0 !! (K y i +:+ "_MAX") = Some (VNum (num y i).2)) ->
    iter_loop m1 m2 a b y iters d
    = Ok (store_verdicts num d
            (map (pair y) (List.filter (cond m1 m2 a b) iters))).
Proof.
  induction iters as [|i tl IH]; intros d Hd Hnum; [reflexivity|].
  cbn [iter_loop List.filter].
  destruct (cond m1 m2 a b i) eqn:Ec.
  - destruct (Hnum i (or_introl eq_refl) Ec) as (Hmn & Hv & Hmx).
    rewrite (assess_numbers d y i (num y i).1.1 (num y i).1.2 (num y i).2).
    + cbn [mbind result_bind map].
      rewrite IH.
      * cbn [store_verdicts foldl fst snd].
        destruct (num y i) as [ [mn v] mx]. reflexivity.
      * intros k Hk. rewrite lookup_insert_ne by (intros E; now apply (Hk y i)).
        now apply Hd.
      * intros j Hj. apply Hnum. now right.
    + rewrite Hd; [exact Hmn|]. intros y' i'. apply PF_key_ne_MIN.
    + rewrite Hd; [exact Hv|]. intros y' i'. apply PF_key_ne_K.
    + rewrite Hd; [exact Hmx|]. intros y' i'. apply PF_key_ne_MAX.
  - cbn [mbind result_bind]. apply IH; [exact Hd|].
    intros j Hj. apply Hnum. now right.
Qed.

Lemma criteria_loop_numbers (self : t) (a b : Z)
    (num : string -> Z -> Q * Q * Q) (d0 : gmap string value) :
  FIRST_ITER self = Some a -> LAST_ITER self = Some b ->
  forall ys d,
    (forall k, (forall y' i', k <> K y' i' +:+ "_PF") -> d !! k = d0 !! k) ->
    (forall y i, In y ys -> In i (Z_upto a (Z.to_nat (b + 1 - a))) ->
       cond (criteria_mode self).1.2 (criteria_mode self).2 a b i = true ->
       d0 !! (K y i +:+ "_MIN") = Some (VNum (num y i).1.1)
       /\ d0 !! (K y i) = Some (VNum (num y i).1.2)
       /\ d0 !! (K y i +:+ "_MAX") = Some (VNum (num y i).2)) ->
    criteria_loop self ys d
    = Ok (store_verdicts num d
            (flat_map
               (fun y => map (pair y)
                           (List.filter
                              (cond (criteria_mode self).1.2
                                 (criteria_mode self).2 a b)
                              (Z_upto a (Z.to_nat (b + 1 - a))))) ys)).
Proof.
  intros Ha Hb. induction ys as [|y tl IH]; intros d Hd Hnum; [reflexivity|].
  cbn [criteria_loop flat_map]. rewrite Ha, Hb.
  cbn [iter_item mbind result_bind].
  destruct (criteria_mode self) as [ [m0 m1] m2]. cbn [fst snd] in *.
  rewrite (iter_loop_numbers m1 m2 a b y num d0).
  - cbn [mbind result_bind]. rewrite IH.
    + now rewrite store_verdicts_app.
    + intros k Hk. rewrite store_verdicts_other; [now apply Hd|].
      intros p _. apply Hk.
    + intros y' i Hy'. apply Hnum. now right.
  - exact Hd.
  - intros i Hi. apply Hnum; [now left|exact Hi].
Qed.

End StoreKeys.

(** The verdicts of the accuracy criterion.  Let the store hold the
    iteration numbers [a] and [b] and, for every criterion [y] and every
    assessed iteration [i] (the first one in the second criteria mode, the
    last one in the third, none when [b < a]), numbers under the keys of
    the lower bound, the reading and the upper bound.  Then
    [result_accuracy_criteria] returns; it has stored under [y_TR_i_PF] the
    verdict ['Pass'] if the reading lies within the bounds and ['Fail'] if
    not; and it has changed no other entry of the store. *)
Theorem accuracy_verdicts (self : TimeResponse.t) (a b : Z)
    (num : string -> Z -> Q * Q * Q) :
  TimeResponse.FIRST_ITER self = Some a ->
  TimeResponse.LAST_ITER self = Some b ->
  (forall y i,
      In y (TimeResponse.y_criteria self).*1 -> assessed self a b i ->
      TimeResponse.tr_value self
        !! ((y +:+ "_TR_" +:+ TimeResponse.str_int i) +:+ "_MIN")
      = Some (TimeResponse.VNum (num y i).1.1)
      /\ TimeResponse.tr_value self !! (y +:+ "_TR_" +:+ TimeResponse.str_int i)
         = Some (TimeResponse.VNum (num y i).1.2)
      /\ TimeResponse.tr_value self
           !! ((y +:+ "_TR_" +:+ TimeResponse.str_int i) +:+ "_MAX")
         = Some (TimeResponse.VNum (num y i).2)) ->
  exists d,
    TimeResponse.result_accuracy_criteria self = Ok d
    /\ (forall y i,
          In y (TimeResponse.y_criteria self).*1 -> assessed self a b i ->
          d !! ((y +:+ "_TR_" +:+ TimeResponse.str_int i) +:+ "_PF")
          = Some (TimeResponse.VStr
                    (verdict (num y i).1.1 (num y i).1.2 (num y i).2)))
    /\ (forall k,
          (forall y i,
              In y (TimeResponse.y_criteria self).*1 -> assessed self a b i ->
              k <> (y +:+ "_TR_" +:+ TimeResponse.str_int i) +:+ "_PF") ->
          d !! k = TimeResponse.tr_value self !! k).
Proof.
  intros Ha Hb Hnum.
  assert (Hass : forall i,
    In i (Z_upto a (Z.to_nat (b + 1 - a))) ->
    ((a =? i)%Z && (TimeResponse.criteria_mode self).1.2
     || (b =? i)%Z && (TimeResponse.criteria_mode self).2) = true ->
    assessed self a b i).
  { intros i Hi Hc. apply Z_upto_bounds in Hi. split; [lia|].
    apply orb_true_iff in Hc as [Hc|Hc]; apply andb_true_iff in Hc as [E Hm];
      apply Z.eqb_eq in E; [left|right]; split; auto. }
  assert (Hin : forall y i,
    In (y, i)
      (flat_map
         (fun y => map (pair y)
            (List.filter
               (fun i : Z =>
                  (a =? i)%Z && (TimeResponse.criteria_mode self).1.2
                  || (b =? i)%Z && (TimeResponse.criteria_mode self).2)
               (Z_upto a (Z.to_nat (b + 1 - a)))))
         (TimeResponse.y_criteria self).*1)
    <-> In y (TimeResponse.y_criteria self).*1 /\ assessed self a b i).
  { intros y i. rewrite in_flat_map. split.
    - intros (y' & Hy' & Hp). apply in_map_iff in Hp as (i' & E & Hi').
      inversion E; subst. apply filter_In in Hi' as [Hi' Hc].
      split; [exact Hy'|]. now apply Hass.
    - intros [Hy [Hab Hi] ]. exists y. split; [exact Hy|].
      apply in_map, filter_In. split.
      + apply Z_upto_In. destruct Hi as [ [-> _]|[-> _] ]; lia.
      + destruct Hi as [ [-> ->]|[-> ->] ]; rewrite Z.eqb_refl; cbn;
          [reflexivity|apply orb_true_r]. }
  eexists. split; [|split].
  - unfold TimeResponse.result_accuracy_criteria.
    apply (criteria_loop_numbers self a b num (TimeResponse.tr_value self) Ha Hb).
    + reflexivity.
    + intros y i Hy Hi Hc. apply Hnum; [exact Hy|]. now apply Hass.
  - intros y i Hy Hi.
    rewrite (store_verdicts_in num y i) by (apply Hin; now split).
    destruct (num y i) as [ [mn v] mx]. reflexivity.
  - intros k Hk. apply store_verdicts_other.
    intros [y i] Hp. apply Hin in Hp as [Hy Hi]. now apply Hk.
Qed.

(** The Volt-Var store: the reading after the first time response passes,
    the one after the last fails. *)
Lemma accuracy_verdicts_volt_var :
  exists d,
    TimeResponse.result_accuracy_criteria volt_var_store = Ok d
    /\ d !! "Q_TR_1_PF"%string = Some (TimeResponse.VStr "Pass")
    /\ d !! "Q_TR_2_PF"%string = Some (TimeResponse.VStr "Fail")
    /\ d !! "Q_TR_2"%string = Some (TimeResponse.VNum (-1400)).
Proof.
  destruct (accuracy_verdicts volt_var_store 1 2 volt_var_numbers
              eq_refl eq_refl) as (d & E & Hpf & Hother).
  - intros y i [<-|[] ] [_ [ [-> _]|[-> _] ] ]; vm_compute; repeat split.
  - exists d. split; [exact E|]. split; [|split].
    + apply (Hpf "Q"%string 1%Z); [now left|]. split; [lia|]. left. now split.
    + apply (Hpf "Q"%string 2%Z); [now left|]. split; [lia|]. right. now split.
    + rewrite (Hother "Q_TR_2"%string); [reflexivity|].
      intros y i [<-|[] ] [_ [ [-> _]|[-> _] ] ]; vm_compute; discriminate.
Defined.

(** ** The construction of the test object *)

Section Construction.
Import ActiveFunctionInit.

#[local] Abbreviation add_key :=
  (fun (keys : list string) (x : string) =>
     if bool_decide (x ∈ keys) then keys else keys ++ [x]).

Lemma fromkeys_from (l : list string) :
  forall acc,
    NoDup acc ->
    NoDup (foldl add_key acc l)
    /\ (forall m, m ∈ foldl add_key acc l <-> m ∈ acc \/ m ∈ l).
Proof.
  induction l as [|x tl IH]; intros acc Hnd; cbn [foldl].
  - split; [exact Hnd|]. intros m. rewrite elem_of_nil. tauto.
  - destruct (bool_decide_reflect (x ∈ acc)) as [Hx|Hx].
    + destruct (IH acc Hnd) as [H1 H2]. split; [exact H1|].
      intros m. rewrite H2, elem_of_cons. split; [tauto|].
      intros [H|[->|H] ]; tauto.
    + assert (Hnd' : NoDup (acc ++ [x])).
      { apply NoDup_app. split; [exact Hnd|]. split.
        - intros y Hy Hy'. apply list_elem_of_singleton in Hy'. now subst.
        - apply NoDup_singleton. }
      destruct (IH _ Hnd') as [H1 H2]. split; [exact H1|].
      intros m. rewrite H2, elem_of_app, list_elem_of_singleton, elem_of_cons.
      tauto.
Qed.

Lemma fromkeys_spec (l : list string) :
  NoDup (fromkeys l) /\ (forall m, m ∈ fromkeys l <-> m ∈ l).
Proof.
  destruct (fromkeys_from l [] (NoDup_nil_2)) as [H1 H2].
  split; [exact H1|]. intros m. unfold fromkeys. rewrite H2, elem_of_nil. tauto.
Qed.

Lemma fromkeys_VF (n : nat) :
  fromkeys (["V"; "F"]%string ++ replicate n "V"%string) = ["V"; "F"]%string.
Proof.
  unfold fromkeys. rewrite foldl_app.
  change (foldl add_key [] ["V"; "F"]%string) with ["V"; "F"]%string.
  induction n as [|n IH]; [reflexivity|]. exact IH.
Qed.

Lemma update_keys (d : list (string * string)) (k v : string) :
  (update d k v).*1 = if bool_decide (k ∈ d.*1) then d.*1 else d.*1 ++ [k].
Proof.
  induction d as [|[k' v'] tl IH]; cbn [update fmap list_fmap fst].
  - reflexivity.
  - destruct (String.eqb_spec k' k) as [->|Hne].
    + rewrite bool_decide_eq_true_2 by (cbn; left). reflexivity.
    + cbn [fmap list_fmap fst]. fold (fmap (M:=list) (@fst string string)) in *.
      change (list_fmap _ _ fst ?l) with (l.*1) in *.
      rewrite IH.
      destruct (bool_decide_reflect (k ∈ tl.*1)) as [Hk|Hk].
      * rewrite bool_decide_eq_true_2 by (cbn; right; exact Hk). reflexivity.
      * rewrite bool_decide_eq_false_2; [reflexivity|].
        cbn. rewrite elem_of_cons. intros [E|E]; [now symmetry in E|contradiction].
Qed.

Lemma update_NoDup (d : list (string * string)) (k v : string) :
  NoDup d.*1 -> NoDup (update d k v).*1.
Proof.
  intros H. rewrite update_keys.
  destruct (bool_decide_reflect (k ∈ d.*1)) as [Hk|Hk]; [exact H|].
  apply NoDup_app. split; [exact H|]. split.
  - intros y Hy Hy'. apply list_elem_of_singleton in Hy'. now subst.
  - apply NoDup_singleton.
Qed.


(** What the branches before [PRI] keep. *)
#[local] Abbreviation before_PRI pri cm :=
  (fun s : state =>
     NoDup (st_y_criteria s).*1 /\ aliased s = false /\ pri_x s = pri
     /\ st_criteria_mode s = cm).

Ltac branch_keeps :=
  let Hnd := fresh "Hnd" in
  let Hal := fresh "Hal" in
  let Hpri := fresh "Hpri" in
  let Hcm := fresh "Hcm" in
  intros (Hnd & Hal & Hpri & Hcm);
  match goal with |- context [if ?b then _ else _] => destruct b end;
  [|repeat split; assumption];
  unfold y_update, extend, with_param;
  cbn [st_param local aliased pri_x st_y_criteria st_criteria_mode];
  rewrite ?Hal;
  cbn [st_param local aliased pri_x st_y_criteria st_criteria_mode];
  repeat split; try assumption; try reflexivity;
  repeat apply update_NoDup; assumption.

Lemma branch_VW_keeps e has pri cm s :
  before_PRI pri cm s -> before_PRI pri cm (branch_VW e has s).
Proof. unfold branch_VW. branch_keeps. Qed.

Lemma branch_CPF_keeps has pri cm s :
  before_PRI pri cm s -> before_PRI pri cm (branch_CPF has s).
Proof. unfold branch_CPF. branch_keeps. Qed.

Lemma branch_CRP_keeps has pri cm s :
  before_PRI pri cm s -> before_PRI pri cm (branch_CRP has s).
Proof. unfold branch_CRP. branch_keeps. Qed.

Lemma branch_WV_keeps e a has pri cm s :
  before_PRI pri cm s -> before_PRI pri cm (branch_WV e a has s).
Proof. unfold branch_WV. branch_keeps. Qed.

Lemma branch_FW_keeps e fw has pri cm s :
  before_PRI pri cm s -> before_PRI pri cm (branch_FW e fw has s).
Proof. unfold branch_FW. destruct fw as [ [ [p_small tr1] tr2] tr3]. branch_keeps. Qed.

Lemma branch_LAP_keeps has pri cm s :
  before_PRI pri cm s -> before_PRI pri cm (branch_LAP has s).
Proof. unfold branch_LAP. branch_keeps. Qed.

Lemma VoltVar_set_params_cases e p :
  match EutParameters.var_rated e with
  | None => VoltVar.set_params e p = Raise TypeError
  | Some _ => exists p', VoltVar.set_params e p = Ok p'
  end.
Proof.
  unfold VoltVar.set_params, VoltVar.mul_opt.
  destruct (EutParameters.var_rated e) as [q|]; [|reflexivity].
  cbn [mbind result_bind]. eexists. reflexivity.
Qed.

Lemma branch_VV_cases e has pri cm s :
  before_PRI pri cm s ->
  match EutParameters.var_rated e with
  | None => branch_VV e has s = if has VV then Raise TypeError else Ok s
  | Some _ => exists s', branch_VV e has s = Ok s' /\ before_PRI pri cm s'
  end.
Proof.
  intros H. unfold branch_VV.
  pose proof (VoltVar_set_params_cases e (st_param s)) as Hp.
  destruct (EutParameters.var_rated e) as [q|].
  - destruct Hp as (p' & Hp). rewrite Hp. cbn [mbind result_bind].
    exists (if has VV
            then y_update "Q" VV (extend ["V"%string] (with_param p' s))
            else s).
    split; [now destruct (has VV)|].
    revert H. branch_keeps.
  - rewrite Hp. reflexivity.
Qed.

Lemma after_PRI has pri cm s :
  before_PRI pri cm s ->
  NoDup (st_y_criteria (branch_PRI has s)).*1
  /\ aliased (branch_PRI has s) = has PRI
  /\ pri_x (branch_PRI has s) = pri
  /\ st_criteria_mode (branch_PRI has s) = cm.
Proof.
  intros (Hnd & Hal & Hpri & Hcm). unfold branch_PRI.
  destruct (has PRI); [|repeat split; assumption].
  unfold y_update. cbn [st_param local aliased pri_x st_y_criteria st_criteria_mode].
  repeat split; try assumption. now repeat apply update_NoDup.
Qed.

Lemma after_IOP e has pri cm s :
  NoDup (st_y_criteria s).*1 -> aliased s = has PRI -> pri_x s = pri ->
  st_criteria_mode s = cm ->
  NoDup (st_y_criteria (branch_IOP e has s)).*1
  /\ aliased (branch_IOP e has s) = has PRI
  /\ pri_x (branch_IOP e has s)
     = pri ++ (if has PRI && has IOP then ["V"%string] else [])
  /\ st_criteria_mode (branch_IOP e has s)
     = if has IOP then (true, true, true) else cm.
Proof.
  intros Hnd Hal Hpri Hcm. unfold branch_IOP.
  destruct (has IOP).
  - unfold y_update, extend.
    cbn [st_param local aliased pri_x st_y_criteria st_criteria_mode].
    rewrite Hal. destruct (has PRI);
      cbn [st_param local aliased pri_x st_y_criteria st_criteria_mode andb];
      rewrite ?app_nil_r, ?Hpri; repeat split; try reflexivity;
      now apply update_NoDup.
  - rewrite andb_false_r, app_nil_r. repeat split; assumption.
Qed.

Lemma after_UI has pri' s :
  NoDup (st_y_criteria s).*1 -> aliased s = has PRI -> pri_x s = pri' ->
  NoDup (st_y_criteria (branch_UI has s)).*1
  /\ aliased (branch_UI has s) = has PRI
  /\ pri_x (branch_UI has s)
     = pri' ++ (if has PRI && has UI then ["V"%string] else [])
  /\ st_criteria_mode (branch_UI has s) = st_criteria_mode s.
Proof.
  intros Hnd Hal Hpri. unfold branch_UI.
  destruct (has UI).
  - unfold y_update, extend.
    cbn [st_param local aliased pri_x st_y_criteria st_criteria_mode].
    rewrite Hal. destruct (has PRI);
      cbn [st_param local aliased pri_x st_y_criteria st_criteria_mode andb];
      rewrite ?app_nil_r, ?Hpri; repeat split; try reflexivity;
      now apply update_NoDup.
  - rewrite andb_false_r, app_nil_r. repeat split; assumption.
Qed.

(** The shape of the state that [finish] receives. *)
Lemma init_cases e absorb_is_yes fw functions cm pri :
  (bool_decide (VV ∈ functions) = true /\ EutParameters.var_rated e = None
   /\ init e absorb_is_yes fw functions cm pri = Raise TypeError)
  \/ (~ (VV ∈ functions /\ EutParameters.var_rated e = None)
      /\ exists s,
        init e absorb_is_yes fw functions cm pri = Ok (finish s)
        /\ NoDup (st_y_criteria s).*1
        /\ aliased s = bool_decide (PRI ∈ functions)
        /\ pri_x s
           = (pri ++ (if bool_decide (PRI ∈ functions) && bool_decide (IOP ∈ functions)
                      then ["V"%string] else []))
             ++ (if bool_decide (PRI ∈ functions) && bool_decide (UI ∈ functions)
                 then ["V"%string] else [])
        /\ st_criteria_mode s
           = if bool_decide (IOP ∈ functions) then (true, true, true) else cm).
Proof.
  unfold init.
  set (has := fun f : string => bool_decide (f ∈ functions)).
  assert (H0 : before_PRI pri cm (mk_state ∅ [] false pri [] cm))
    by (repeat split; constructor).
  apply (branch_VW_keeps e has) in H0.
  pose proof (branch_VV_cases e has pri cm _ H0) as HVV.
  assert (Hrest : forall s, before_PRI pri cm s ->
    exists s', finish
        (branch_UI has (branch_IOP e has (branch_PRI has (branch_LAP has
           (branch_FW e fw has (branch_WV e absorb_is_yes has
              (branch_CRP has (branch_CPF has s)))))))) = finish s'
      /\ NoDup (st_y_criteria s').*1
      /\ aliased s' = has PRI
      /\ pri_x s'
         = (pri ++ (if has PRI && has IOP then ["V"%string] else []))
           ++ (if has PRI && has UI then ["V"%string] else [])
      /\ st_criteria_mode s' = if has IOP then (true, true, true) else cm).
  { intros s Hs. eexists. split; [reflexivity|].
    apply (branch_CPF_keeps has), (branch_CRP_keeps has),
      (branch_WV_keeps e absorb_is_yes has), (branch_FW_keeps e fw has),
      (branch_LAP_keeps has), (after_PRI has) in Hs.
    destruct Hs as (H1 & H2 & H3 & H4).
    destruct (after_IOP e has pri cm _ H1 H2 H3 H4) as (I1 & I2 & I3 & I4).
    destruct (after_UI has _ _ I1 I2 I3) as (U1 & U2 & U3 & U4).
    repeat split; try assumption. now rewrite U4. }
  destruct (EutParameters.var_rated e) as [q|] eqn:Eq.
  - right. split; [intros [_ E]; discriminate E|].
    destruct HVV as (s' & E & Hs'). rewrite E. cbn [mbind result_bind].
    destruct (Hrest s' Hs') as (s'' & E' & R).
    exists s''. split; [now rewrite E'|exact R].
  - rewrite HVV. fold (has VV). destruct (has VV) eqn:EVV.
    + left. repeat split; reflexivity.
    + right. split.
      * intros [Hin _]. apply bool_decide_eq_false in EVV. contradiction.
      * cbn [mbind result_bind].
        destruct (Hrest _ H0) as (s'' & E' & R).
        exists s''. split; [now rewrite E'|exact R].
Qed.

End Construction.

(** The construction of the test object, for a unit whose numeric
    ratings are configured (the record [e]).  [ActiveFunction.__init__]
    then fails, with [TypeError], when Volt-Var is requested and the unit
    has no rated reactive power, and returns for every other list of
    functions.  Whatever the list: the step values, the criteria and the
    measured values are each free of duplicates; the measured values are
    the step values together with the criteria; the criteria mode is the
    one given, unless the interoperability tests are requested, which set
    all three modes.  The class attribute [Prioritization.x_criteria] is
    left as it was unless [PRI] is requested; with [PRI] it is extended in
    place by exactly one ['V'] for [IOP] and one for [UI], the step values
    are that list without its duplicates, and so, if the attribute held
    ['V', 'F'] followed by any number of ['V'], the step values are
    ['V', 'F'] whatever else is requested. *)
Theorem construction_criteria (e : EutParameters.t) (absorb_is_yes : bool)
    (fw : option Q * option Q * option Q * option Q)
    (functions : list string) (cm : bool * bool * bool) (pri : list string) :
  (VV ∈ functions -> EutParameters.var_rated e = None ->
   ActiveFunctionInit.init e absorb_is_yes fw functions cm pri = Raise TypeError)
  /\ (~ (VV ∈ functions /\ EutParameters.var_rated e = None) ->
      exists r,
        ActiveFunctionInit.init e absorb_is_yes fw functions cm pri = Ok r
        /\ NoDup (ActiveFunctionInit.x_criteria r)
        /\ NoDup (ActiveFunctionInit.y_criteria r).*1
        /\ NoDup (ActiveFunctionInit.meas_values r)
        /\ (forall m,
              m ∈ ActiveFunctionInit.meas_values r
              <-> m ∈ ActiveFunctionInit.x_criteria r
                  \/ m ∈ (ActiveFunctionInit.y_criteria r).*1)
        /\ ActiveFunctionInit.criteria_mode r
           = (if bool_decide (ActiveFunctionInit.IOP ∈ functions)
              then (true, true, true) else cm)
        /\ (PRI ∉ functions -> ActiveFunctionInit.Prioritization_x_criteria r = pri)
        /\ (PRI ∈ functions ->
            ActiveFunctionInit.Prioritization_x_criteria r
            = (pri ++ (if bool_decide (ActiveFunctionInit.IOP ∈ functions)
                       then ["V"%string] else []))
              ++ (if bool_decide (ActiveFunctionInit.UI ∈ functions)
                  then ["V"%string] else [])
            /\ ActiveFunctionInit.x_criteria r
               = ActiveFunctionInit.fromkeys
                   (ActiveFunctionInit.Prioritization_x_criteria r)
            /\ forall n, pri = ["V"; "F"]%string ++ replicate n "V"%string ->
               ActiveFunctionInit.x_criteria r = ["V"; "F"]%string)).
Proof.
  destruct (init_cases e absorb_is_yes fw functions cm pri)
    as [(HVV & Hq & E)|(Hn & s & E & Hnd & Hal & Hpri & Hcm)].
  - split; [intros _ _; exact E|].
    intros H. exfalso. apply H. split; [|exact Hq].
    now apply bool_decide_eq_true in HVV.
  - split; [intros H1 H2; exfalso; apply Hn; now split|].
    intros _. exists (ActiveFunctionInit.finish s). split; [exact E|].
    unfold ActiveFunctionInit.finish.
    cbn [ActiveFunctionInit.x_criteria ActiveFunctionInit.y_criteria
         ActiveFunctionInit.meas_values ActiveFunctionInit.criteria_mode
         ActiveFunctionInit.Prioritization_x_criteria].
    split; [apply fromkeys_spec|]. split; [exact Hnd|].
    split; [apply fromkeys_spec|]. split.
    { intros m.
      rewrite (proj2 (fromkeys_spec _)), (proj2 (fromkeys_spec _)), elem_of_app.
      reflexivity. }
    split; [exact Hcm|]. split.
    + intros Hno. rewrite Hpri.
      rewrite (bool_decide_eq_false_2 _ Hno). cbn [andb].
      now rewrite !app_nil_r.
    + intros Hyes. unfold ActiveFunctionInit.x_criterias.
      rewrite Hal, Hpri, (bool_decide_eq_true_2 _ Hyes). cbn [andb].
      split; [reflexivity|]. split; [reflexivity|].
      intros n ->.
      assert (Hform : exists n',
        ((["V"; "F"]%string ++ replicate n "V"%string)
           ++ (if bool_decide (ActiveFunctionInit.IOP ∈ functions)
               then ["V"%string] else []))
          ++ (if bool_decide (ActiveFunctionInit.UI ∈ functions)
              then ["V"%string] else [])
        = ["V"; "F"]%string ++ replicate n' "V"%string).
      { destruct (bool_decide (ActiveFunctionInit.IOP ∈ functions)),
          (bool_decide (ActiveFunctionInit.UI ∈ functions)).
        - exists (n + 2)%nat.
          rewrite <- !app_assoc. f_equal.
          change (["V"%string] ++ ["V"%string]) with (replicate 2 "V"%string).
          now rewrite replicate_add.
        - exists (n + 1)%nat.
          rewrite app_nil_r, <- !app_assoc. f_equal.
          change ["V"%string] with (replicate 1 "V"%string).
          now rewrite replicate_add.
        - exists (n + 1)%nat.
          rewrite app_nil_r, <- !app_assoc. f_equal.
          change ["V"%string] with (replicate 1 "V"%string).
          now rewrite replicate_add.
        - exists n. now rewrite !app_nil_r. }
      destruct Hform as (n' & ->). apply fromkeys_VF.
Qed.

(** ** Function lists and the result summary *)

Section FunctionLists.
Import ActiveFunctionInit.

Lemma both_criteria_nil (self : TimeResponse.t) :
  (forall m, m ∈ TimeResponse.x_criteria self ->
             m ∈ (TimeResponse.y_criteria self).*1 -> False) ->
  both_criteria self = [].
Proof.
  intros H. unfold both_criteria.
  induction (TimeResponse.meas_values self) as [|m tl IH]; [reflexivity|].
  cbn [List.filter].
  destruct (bool_decide_reflect (m ∈ TimeResponse.x_criteria self)) as [Hx|Hx];
    [|exact IH].
  destruct (bool_decide_reflect (m ∈ (TimeResponse.y_criteria self).*1)) as [Hy|Hy];
    [|exact IH].
  destruct (H m Hx Hy).
Qed.

Ltac criteria_of_state :=
  cbn [finish x_criteria y_criteria meas_values
       branch_VW branch_VV branch_CPF branch_CRP branch_WV branch_FW branch_LAP
       branch_PRI branch_IOP branch_UI
       x_criterias y_update extend with_param st_y_criteria local aliased pri_x
       update String.eqb Ascii.eqb Bool.eqb app fmap list_fmap fst
       mbind result_bind].

(** One function: no measured value is both a step value and a criterion. *)
Lemma single_function_disjoint e absorb_is_yes fw f cm n r :
  init e absorb_is_yes fw [f] cm (["V"; "F"]%string ++ replicate n "V"%string) = Ok r ->
  forall m, m ∈ x_criteria r -> m ∈ (y_criteria r).*1 -> False.
Proof.
  unfold init.
  set (has := fun g : string => bool_decide (g ∈ [f])).
  assert (Hhas : forall g, has g = String.eqb g f).
  { intros g. unfold has. destruct (String.eqb_spec g f) as [->|Hne].
    - apply bool_decide_eq_true_2. now left.
    - apply bool_decide_eq_false_2. intros Hin.
      apply list_elem_of_singleton in Hin. contradiction. }
  unfold branch_VW, branch_VV, branch_CPF, branch_CRP, branch_WV, branch_FW,
    branch_LAP, branch_PRI, branch_IOP, branch_UI.
  rewrite !Hhas. clear Hhas has.
  unfold VW, VV, CPF, CRP, WV, FW, LAP, PRI, IOP, UI.
  pose proof (VoltVar_set_params_cases e
                (st_param (mk_state ∅ [] false
                             (["V"; "F"]%string ++ replicate n "V"%string) [] cm)))
    as HVV.
  destruct (String.eqb_spec "VW" f) as [<-|N1];
  [|destruct (String.eqb_spec "VV" f) as [<-|N2];
  [|destruct (String.eqb_spec "CPF" f) as [<-|N3];
  [|destruct (String.eqb_spec "CRP" f) as [<-|N4];
  [|destruct (String.eqb_spec "WV" f) as [<-|N5];
  [|destruct (String.eqb_spec "FW" f) as [<-|N6];
  [|destruct (String.eqb_spec "LAP" f) as [<-|N7];
  [|destruct (String.eqb_spec "PRI" f) as [<-|N8];
  [|destruct (String.eqb_spec "IOP" f) as [<-|N9];
  [|destruct (String.eqb_spec "UI" f) as [<-|N10] ] ] ] ] ] ] ] ] ].
  all: cbn [String.eqb Ascii.eqb Bool.eqb mbind result_bind].
  2:{ destruct (EutParameters.var_rated e).
      - destruct HVV as (p' & ->). cbn [mbind result_bind].
        intros H; inversion H; subst; clear H. criteria_of_state.
        intros m. rewrite (proj2 (fromkeys_spec _)).
        rewrite !elem_of_cons, !elem_of_nil. intuition congruence.
      - rewrite HVV. discriminate. }
  all: try destruct fw as [ [ [p_small tr1] tr2] tr3].
  all: intros H; inversion H; subst; clear H; criteria_of_state;
    intros m; try rewrite fromkeys_VF; rewrite ?(proj2 (fromkeys_spec _));
    rewrite ?elem_of_cons, ?elem_of_nil, ?elem_of_replicate;
    intuition congruence.
Qed.


(** Volt-Watt together with constant power factor: the active power is
    both a step value and a criterion. *)
Lemma two_functions_criteria e absorb_is_yes fw cm pri r :
  init e absorb_is_yes fw [VW; CPF] cm pri = Ok r ->
  x_criteria r = ["V"; "P"]%string
  /\ y_criteria r = [("P", VW); ("Q", CPF)]%string
  /\ meas_values r = ["V"; "P"; "Q"]%string.
Proof.
  unfold init, branch_VW, branch_VV, branch_CPF, branch_CRP, branch_WV,
    branch_FW, branch_LAP, branch_PRI, branch_IOP, branch_UI.
  unfold VW, VV, CPF, CRP, WV, FW, LAP, PRI, IOP, UI.
  repeat match goal with
         | |- context [bool_decide (?x ∈ ?l)] =>
             let b := eval vm_compute in (bool_decide (x ∈ l)) in
             change (bool_decide (x ∈ l)) with b
         end.
  cbn [mbind result_bind].
  intros H; inversion H; subst; clear H. criteria_of_state.
  repeat split; reflexivity.
Qed.

End FunctionLists.

(** Function lists and the result summary.  When the test object is
    constructed for one function, whichever it is, no measured value is
    both a step value and a criterion, so every row that [write_rslt_sum]
    returns has exactly as many cells as the summary has column names.
    When it is constructed for Volt-Watt together with constant power
    factor, the active power is both, and every row has three cells more
    than there are names. *)
Theorem function_lists_and_summary (e : EutParameters.t) (absorb_is_yes : bool)
    (fw : option Q * option Q * option Q * option Q)
    (cm : bool * bool * bool) (n : nat) (str_float : Q -> string) :
  (forall f r self row,
      ActiveFunctionInit.init e absorb_is_yes fw [f] cm
        (["V"; "F"]%string ++ replicate n "V"%string) = Ok r ->
      TimeResponse.x_criteria self = ActiveFunctionInit.x_criteria r ->
      TimeResponse.y_criteria self = ActiveFunctionInit.y_criteria r ->
      TimeResponse.meas_values self = ActiveFunctionInit.meas_values r ->
      TimeResponse.row_data str_float self = TimeResponse.Returns row ->
      length row = length (TimeResponse.summary_names self))
  /\ (forall r self row,
      ActiveFunctionInit.init e absorb_is_yes fw [VW; CPF] cm
        (["V"; "F"]%string ++ replicate n "V"%string) = Ok r ->
      TimeResponse.x_criteria self = ActiveFunctionInit.x_criteria r ->
      TimeResponse.y_criteria self = ActiveFunctionInit.y_criteria r ->
      TimeResponse.meas_values self = ActiveFunctionInit.meas_values r ->
      TimeResponse.row_data str_float self = TimeResponse.Returns row ->
      length row = (length (TimeResponse.summary_names self) + 3)%nat).
Proof.
  split.
  - intros f r self row Hr Hx Hy Hm Hrow.
    rewrite (row_data_length str_float self row Hrow).
    rewrite both_criteria_nil; [cbn [length]; lia|].
    rewrite Hx, Hy.
    exact (single_function_disjoint e absorb_is_yes fw f cm n r Hr).
  - intros r self row Hr Hx Hy Hm Hrow.
    rewrite (row_data_length str_float self row Hrow).
    destruct (two_functions_criteria e absorb_is_yes fw cm _ r Hr)
      as (Ex & Ey & Em).
    unfold both_criteria. rewrite Hx, Hy, Hm, Ex, Ey, Em. reflexivity.
Qed.

(** The Volt-Var script of the example unit: eleven names, eleven cells. *)
Lemma function_lists_and_summary_volt_var :
  exists r row,
    ActiveFunctionInit.init eut_10kW false (None, None, None, None) [VV]
      (true, true, true) ["V"; "F"]%string = Ok r
    /\ TimeResponse.row_data str_fraction volt_var_assessed
       = TimeResponse.Returns row
    /\ length row = length (TimeResponse.summary_names volt_var_assessed).
Proof.
  destruct (ActiveFunctionInit.init eut_10kW false (None, None, None, None) [VV]
              (true, true, true) ["V"; "F"]%string) as [r|] eqn:Er;
    [|vm_compute in Er; discriminate Er].
  exists r. eexists. split; [reflexivity|]. split; [vm_compute; reflexivity|].
  apply (proj1 (function_lists_and_summary eut_10kW false
                  (None, None, None, None) (true, true, true) 0 str_fraction)
           VV r volt_var_assessed).
  - exact Er.
  - vm_compute in Er. inversion Er. reflexivity.
  - vm_compute in Er. inversion Er. reflexivity.
  - vm_compute in Er. inversion Er. reflexivity.
  - vm_compute. reflexivity.
Defined.
